(** * ESMPy Grid: a shallow embedding of [src/ESMF/api/grid.py]

    The file wraps the native ESMF grid library.  The wrapper's own logic is
    bookkeeping: argument dispatch in the constructor, per-stagger shadow lists
    (flags, bounds, sizes, coordinate and item slots), views aliasing native
    memory, and the finalisation flag.  The native library is not part of the
    file, so it appears here as a parameter: a record of fallible operations
    over an abstract native state and a flat memory of cells, which the
    wrapper reaches through the views it builds.  Every native call made by
    the wrapper is recorded in a log, so that statements such as "the native
    destroy is invoked at most once" can be read off the final world. *)

From Stdlib Require Import ZArith List Bool String QArith Lia.
From stdpp Require Import base option list gmap.

Set Default Proof Using "Type".

(** ** Enumerations of [ESMF.api.constants]

    The constants module is outside the file.  The wrapper only compares
    items and file formats with the members named below, so every other
    member is kept as an anonymous one. *)

Inductive TypeKind := I4 | I8 | R4 | R8.
Inductive CoordSys := CART | SPH_DEG | SPH_RAD.
Inductive FileFormat := SCRIP | GRIDSPEC | OtherFormat (n : Z).
Inductive GridItem := MASK | AREA | OtherItem (n : Z).

#[global] Instance TypeKind_eq_dec : EqDecision TypeKind.
Proof. solve_decision. Defined.
#[global] Instance FileFormat_eq_dec : EqDecision FileFormat.
Proof. solve_decision. Defined.
#[global] Instance GridItem_eq_dec : EqDecision GridItem.
Proof. solve_decision. Defined.

(** The stagger locations the file names.  Their numeric values live in the
    constants module, so they are a parameter of the development. *)
Record StaggerLoc := {
  CENTER : nat;
  CORNER : nat;
  CORNER_VFACE : nat
}.

(** ** Exceptions and results *)

Inductive exn :=
| GridArgumentError
| GridBoundsNotCreated
| GridItemAlreadyLinked
| GridItemNotSupported
| GridSingleStaggerloc
| SerialMethod
| MethodNotImplemented
| TypeError
| ValueError
| IndexError
| AttributeError
| AssertionError
| NativeError (rc : Z).

Inductive result (A : Type) :=
| Ok (a : A)
| Raise (e : exn).
Arguments Ok {A} a.
Arguments Raise {A} e.

(** ** Arrays

    Cells hold numbers of one of the two Python kinds the file uses.  An
    array either owns its cells ([np.zeros], [np.meshgrid]) or is a view that
    aliases native memory from a base address ([ndarray_from_esmf]); reads
    and writes through a view go to the shared memory.  A cell never written
    is indeterminate, [None]. *)

Inductive scalar := SInt (z : Z) | SReal (q : Q).

Definition addr := N.
Definition handle := N.

Inductive ndarray :=
| Owned (dtype : TypeKind) (shape : list Z) (data : list (option scalar))
| Alias (dtype : TypeKind) (shape : list Z) (base : addr).

(** [constants._ESMF2PythonType] followed by the conversion numpy applies when
    an integer literal is stored in an array of that type. *)
Definition cast (t : TypeKind) (n : Z) : scalar :=
  match t with
  | I4 | I8 => SInt n
  | R4 | R8 => SReal (inject_Z n)
  end.

Definition dtype_of (a : ndarray) : TypeKind :=
  match a with Owned t _ _ | Alias t _ _ => t end.

Definition shape_of (a : ndarray) : list Z :=
  match a with Owned _ s _ | Alias _ s _ => s end.

Definition nelems (shape : list Z) : nat := Z.to_nat (fold_right Z.mul 1%Z shape).

Definition cell (base : addr) (i : nat) : addr := (base + N.of_nat i)%N.

Definition fill_mem (base : addr) (n : nat) (v : scalar) (m : gmap N scalar) : gmap N scalar :=
  foldr (fun i acc => <[cell base i := v]> acc) m (seq 0 n).

(** What a reader of the array sees, in the linear order of its cells. *)
Definition contents (m : gmap N scalar) (a : ndarray) : list (option scalar) :=
  match a with
  | Owned _ _ d => d
  | Alias _ sh b => (fun i => m !! cell b i) <$> seq 0 (nelems sh)
  end.

(** ** numpy and list primitives *)

(** [a.all()]: every element is non-zero. *)
Definition np_all (a : list Z) : bool := forallb (fun z => negb (z =? 0)%Z) a.

Definition zip_sub (a b : list Z) : list Z := zip_with Z.sub a b.

(** [a - b] on one-dimensional integer arrays, with numpy's broadcasting of a
    one-element operand, [ValueError] on any other length mismatch. *)
Definition np_sub (a b : list Z) : result (list Z) :=
  if decide (length a = length b) then Ok (zip_sub a b)
  else match a, b with
       | [x], _ => Ok ((fun y => x - y)%Z <$> b)
       | _, [y] => Ok ((fun x => x - y)%Z <$> a)
       | _, _ => Raise ValueError
       end.

Definition nonneg_shape (shape : list Z) : bool := forallb (fun z => 0 <=? z)%Z shape.

(** [np.zeros(shape=..., dtype=...)]; the shape handed over by the file is a
    slot of [size], which may still be [None]. *)
Definition np_zeros (shape : option (list Z)) (t : TypeKind) : result ndarray :=
  match shape with
  | None => Raise TypeError
  | Some sh =>
      if nonneg_shape sh
      then Ok (Owned t sh (replicate (nelems sh) (Some (cast t 0))))
      else Raise ValueError
  end.

(** Modelled from the spec: [ndarray_from_esmf] of [ESMF.util.esmpyarray],
    which is outside the file: the raw buffer returned by the native side is
    "wrapped as a non-owning view" of the requested type and shape. *)
Definition ndarray_from_esmf (data : addr) (t : TypeKind) (shape : list Z) : result ndarray :=
  if nonneg_shape shape then Ok (Alias t shape data) else Raise ValueError.

(** [np.int32] wrap-around, applied when [max_index] is cast. *)
Definition wrap32 (z : Z) : Z := ((z + 2 ^ 31) mod 2 ^ 32 - 2 ^ 31)%Z.

(** [l[i]] and [l[i] = x] on Python lists; both raise out of range.  The
    indices of the file are stagger locations and dimension numbers, which
    are not negative. *)
Definition py_get {A} (l : list A) (i : nat) : result A :=
  match l !! i with
  | Some x => Ok x
  | None => Raise IndexError
  end.

Definition py_set {A} (l : list A) (i : nat) (x : A) : result (list A) :=
  if decide (i < length l) then Ok (<[i := x]> l) else Raise IndexError.

(** [np.meshgrid(..., indexing="ij")] on the cells of one-dimensional
    arrays; the results own their cells, in row-major order. *)
Definition meshgrid2 {A} (x0 x1 : list A) : list A * list A :=
  (flat_map (fun x => replicate (length x1) x) x0,
   mjoin (replicate (length x0) x1)).

Definition meshgrid3 {A} (x0 x1 x2 : list A) : list A * list A * list A :=
  (flat_map (fun x => replicate (length x1 * length x2) x) x0,
   mjoin (replicate (length x0) (flat_map (fun x => replicate (length x2) x) x1)),
   mjoin (replicate (length x0 * length x1) x2)).

(** ** Constructor arguments *)

(** [staggerloc] is a single location or a sequence of them. *)
Inductive StaggerArg :=
| One (s : nat)
| Many (l : list nat).

Record InitArgs := {
  a_max_index : option (list Z);
  a_num_peri_dims : option Z;
  a_periodic_dim : option Z;
  a_pole_dim : option Z;
  a_coord_sys : option CoordSys;
  a_coord_typekind : option TypeKind;
  a_staggerloc : option StaggerArg;
  a_filename : option string;
  a_filetype : option FileFormat;
  a_reg_decomp : option (list Z);
  a_decompflag : option (list Z);
  a_is_sphere : option bool;
  a_add_corner_stagger : option bool;
  a_add_user_area : option bool;
  a_add_mask : option bool;
  a_varname : option string;
  a_coord_names : option (list string)
}.

(** The defaults of the signature of [__init__]. *)
Definition default_args : InitArgs :=
  {| a_max_index := None; a_num_peri_dims := Some 0%Z; a_periodic_dim := None;
     a_pole_dim := None; a_coord_sys := None; a_coord_typekind := None;
     a_staggerloc := None; a_filename := None; a_filetype := None;
     a_reg_decomp := None; a_decompflag := None; a_is_sphere := None;
     a_add_corner_stagger := None; a_add_user_area := None; a_add_mask := None;
     a_varname := None; a_coord_names := None |}.

(** ** The native library

    Each operation may raise, may change the native state and may write
    native memory.  The bindings receive the Grid object and use its native
    handle, which is what they are given here. *)

Definition NativeOp (St A : Type) : Type :=
  St -> gmap N scalar -> result A * St * gmap N scalar.

Record ESMP (St : Type) := {
  (** the manager start performed by the [initialize] decorator *)
  esmp_manager : NativeOp St unit;
  pet_count : NativeOp St nat;
  ESMP_GridCreateNoPeriDim :
    list Z -> option CoordSys -> option TypeKind -> NativeOp St handle;
  ESMP_GridCreate1PeriDim :
    list Z -> option Z -> option Z -> option CoordSys -> option TypeKind ->
    NativeOp St handle;
  ESMP_GridCreateFromFile :
    string -> FileFormat -> list Z -> InitArgs -> NativeOp St handle;
  ESMP_ScripInq : string -> NativeOp St (nat * list Z);
  ESMP_GridspecInq : string -> NativeOp St (nat * nat * list Z);
  ESMP_GridAddCoord : option handle -> nat -> NativeOp St unit;
  ESMP_GridAddItem : option handle -> GridItem -> nat -> NativeOp St unit;
  ESMP_GridGetCoordBounds : option handle -> nat -> NativeOp St (list Z * list Z);
  ESMP_GridGetCoordPtr : option handle -> nat -> nat -> NativeOp St addr;
  ESMP_GridGetItem : option handle -> GridItem -> nat -> NativeOp St addr;
  ESMP_GridDestroy : option handle -> NativeOp St unit
}.
Arguments esmp_manager {St} _.
Arguments pet_count {St} _.
Arguments ESMP_GridCreateNoPeriDim {St} _.
Arguments ESMP_GridCreate1PeriDim {St} _.
Arguments ESMP_GridCreateFromFile {St} _.
Arguments ESMP_ScripInq {St} _.
Arguments ESMP_GridspecInq {St} _.
Arguments ESMP_GridAddCoord {St} _.
Arguments ESMP_GridAddItem {St} _.
Arguments ESMP_GridGetCoordBounds {St} _.
Arguments ESMP_GridGetCoordPtr {St} _.
Arguments ESMP_GridGetItem {St} _.
Arguments ESMP_GridDestroy {St} _.

(** The native calls the wrapper makes, as they appear in the log. *)
Inductive call :=
| CManager
| CPetCount
| CGridCreateNoPeriDim
| CGridCreate1PeriDim
| CGridCreateFromFile
| CScripInq
| CGridspecInq
| CGridAddCoord (h : option handle) (stagger : nat)
| CGridAddItem (h : option handle) (item : GridItem) (stagger : nat)
| CGridGetCoordBounds (h : option handle) (stagger : nat)
| CGridGetCoordPtr (h : option handle) (dim stagger : nat)
| CGridGetItem (h : option handle) (item : GridItem) (stagger : nat)
| CGridDestroy (h : option handle).

#[global] Instance call_eq_dec : EqDecision call.
Proof. solve_decision. Defined.

Definition creates_grid (c : call) : bool :=
  match c with
  | CGridCreateNoPeriDim | CGridCreate1PeriDim | CGridCreateFromFile => true
  | _ => false
  end.

Definition is_destroy (h : option handle) (c : call) : bool :=
  bool_decide (c = CGridDestroy h).

(** How often the native destroy was invoked on handle [h]. *)
Definition destroy_count (h : option handle) (l : list call) : nat :=
  length (filter (fun c => is_destroy h c = true) l).

(** Everything outside the Grid object: the native state, the memory shared
    with it, the log of native calls and the warnings issued so far. *)
Record World (St : Type) := mkWorld {
  nstate : St;
  mem : gmap N scalar;
  calls : list call;
  warns : list string
}.
Arguments mkWorld {St} _ _ _ _.
Arguments nstate {St} _.
Arguments mem {St} _.
Arguments calls {St} _.
Arguments warns {St} _.

(** ** The Grid object

    One field per attribute the methods read.  The list attributes are held
    by value: no method of the file writes a list through a second
    reference, and the views keep their aliasing of native memory through
    their base address.  [_finalized] is [None] while the attribute is absent
    (an object whose constructor did not run to its end).  [_ocgis] and
    [_meta] are empty dictionaries no method reads. *)
Record Grid := mkGrid {
  _max_index : list Z;
  _struct : option handle;
  _type : TypeKind;
  _areatype : TypeKind;
  _rank : nat;
  _periodic_dim : option Z;
  _pole_dim : option Z;
  _coord_sys : option CoordSys;
  _ndims : nat;
  _has_corners : bool;
  _num_peri_dims : Z;
  _size : list (option (list Z));
  _staggerloc : list bool;
  _lower_bounds : list (option (list Z));
  _upper_bounds : list (option (list Z));
  _coords : list (list (option ndarray));
  _mask : list (option ndarray);
  _area : list (option ndarray);
  _finalized : option bool
}.

(** The object as [__init__] receives it: no attribute set. *)
Definition blank : Grid :=
  mkGrid [] None R8 R8 0 None None None 0 false 0%Z [] [] [] [] [] [] [] None.

Definition set_max_index v g := mkGrid v (_struct g) (_type g) (_areatype g) (_rank g) (_periodic_dim g) (_pole_dim g) (_coord_sys g) (_ndims g) (_has_corners g) (_num_peri_dims g) (_size g) (_staggerloc g) (_lower_bounds g) (_upper_bounds g) (_coords g) (_mask g) (_area g) (_finalized g).
Definition set_struct v g := mkGrid (_max_index g) v (_type g) (_areatype g) (_rank g) (_periodic_dim g) (_pole_dim g) (_coord_sys g) (_ndims g) (_has_corners g) (_num_peri_dims g) (_size g) (_staggerloc g) (_lower_bounds g) (_upper_bounds g) (_coords g) (_mask g) (_area g) (_finalized g).
Definition set_type v g := mkGrid (_max_index g) (_struct g) v (_areatype g) (_rank g) (_periodic_dim g) (_pole_dim g) (_coord_sys g) (_ndims g) (_has_corners g) (_num_peri_dims g) (_size g) (_staggerloc g) (_lower_bounds g) (_upper_bounds g) (_coords g) (_mask g) (_area g) (_finalized g).
Definition set_areatype v g := mkGrid (_max_index g) (_struct g) (_type g) v (_rank g) (_periodic_dim g) (_pole_dim g) (_coord_sys g) (_ndims g) (_has_corners g) (_num_peri_dims g) (_size g) (_staggerloc g) (_lower_bounds g) (_upper_bounds g) (_coords g) (_mask g) (_area g) (_finalized g).
Definition set_rank v g := mkGrid (_max_index g) (_struct g) (_type g) (_areatype g) v (_periodic_dim g) (_pole_dim g) (_coord_sys g) (_ndims g) (_has_corners g) (_num_peri_dims g) (_size g) (_staggerloc g) (_lower_bounds g) (_upper_bounds g) (_coords g) (_mask g) (_area g) (_finalized g).
Definition set_periodic_dim v g := mkGrid (_max_index g) (_struct g) (_type g) (_areatype g) (_rank g) v (_pole_dim g) (_coord_sys g) (_ndims g) (_has_corners g) (_num_peri_dims g) (_size g) (_staggerloc g) (_lower_bounds g) (_upper_bounds g) (_coords g) (_mask g) (_area g) (_finalized g).
Definition set_pole_dim v g := mkGrid (_max_index g) (_struct g) (_type g) (_areatype g) (_rank g) (_periodic_dim g) v (_coord_sys g) (_ndims g) (_has_corners g) (_num_peri_dims g) (_size g) (_staggerloc g) (_lower_bounds g) (_upper_bounds g) (_coords g) (_mask g) (_area g) (_finalized g).
Definition set_coord_sys v g := mkGrid (_max_index g) (_struct g) (_type g) (_areatype g) (_rank g) (_periodic_dim g) (_pole_dim g) v (_ndims g) (_has_corners g) (_num_peri_dims g) (_size g) (_staggerloc g) (_lower_bounds g) (_upper_bounds g) (_coords g) (_mask g) (_area g) (_finalized g).
Definition set_ndims v g := mkGrid (_max_index g) (_struct g) (_type g) (_areatype g) (_rank g) (_periodic_dim g) (_pole_dim g) (_coord_sys g) v (_has_corners g) (_num_peri_dims g) (_size g) (_staggerloc g) (_lower_bounds g) (_upper_bounds g) (_coords g) (_mask g) (_area g) (_finalized g).
Definition set_has_corners v g := mkGrid (_max_index g) (_struct g) (_type g) (_areatype g) (_rank g) (_periodic_dim g) (_pole_dim g) (_coord_sys g) (_ndims g) v (_num_peri_dims g) (_size g) (_staggerloc g) (_lower_bounds g) (_upper_bounds g) (_coords g) (_mask g) (_area g) (_finalized g).
Definition set_num_peri_dims v g := mkGrid (_max_index g) (_struct g) (_type g) (_areatype g) (_rank g) (_periodic_dim g) (_pole_dim g) (_coord_sys g) (_ndims g) (_has_corners g) v (_size g) (_staggerloc g) (_lower_bounds g) (_upper_bounds g) (_coords g) (_mask g) (_area g) (_finalized g).
Definition set_size v g := mkGrid (_max_index g) (_struct g) (_type g) (_areatype g) (_rank g) (_periodic_dim g) (_pole_dim g) (_coord_sys g) (_ndims g) (_has_corners g) (_num_peri_dims g) v (_staggerloc g) (_lower_bounds g) (_upper_bounds g) (_coords g) (_mask g) (_area g) (_finalized g).
Definition set_staggerloc v g := mkGrid (_max_index g) (_struct g) (_type g) (_areatype g) (_rank g) (_periodic_dim g) (_pole_dim g) (_coord_sys g) (_ndims g) (_has_corners g) (_num_peri_dims g) (_size g) v (_lower_bounds g) (_upper_bounds g) (_coords g) (_mask g) (_area g) (_finalized g).
Definition set_lower_bounds v g := mkGrid (_max_index g) (_struct g) (_type g) (_areatype g) (_rank g) (_periodic_dim g) (_pole_dim g) (_coord_sys g) (_ndims g) (_has_corners g) (_num_peri_dims g) (_size g) (_staggerloc g) v (_upper_bounds g) (_coords g) (_mask g) (_area g) (_finalized g).
Definition set_upper_bounds v g := mkGrid (_max_index g) (_struct g) (_type g) (_areatype g) (_rank g) (_periodic_dim g) (_pole_dim g) (_coord_sys g) (_ndims g) (_has_corners g) (_num_peri_dims g) (_size g) (_staggerloc g) (_lower_bounds g) v (_coords g) (_mask g) (_area g) (_finalized g).
Definition set_coords v g := mkGrid (_max_index g) (_struct g) (_type g) (_areatype g) (_rank g) (_periodic_dim g) (_pole_dim g) (_coord_sys g) (_ndims g) (_has_corners g) (_num_peri_dims g) (_size g) (_staggerloc g) (_lower_bounds g) (_upper_bounds g) v (_mask g) (_area g) (_finalized g).
Definition set_mask v g := mkGrid (_max_index g) (_struct g) (_type g) (_areatype g) (_rank g) (_periodic_dim g) (_pole_dim g) (_coord_sys g) (_ndims g) (_has_corners g) (_num_peri_dims g) (_size g) (_staggerloc g) (_lower_bounds g) (_upper_bounds g) (_coords g) v (_area g) (_finalized g).
Definition set_area v g := mkGrid (_max_index g) (_struct g) (_type g) (_areatype g) (_rank g) (_periodic_dim g) (_pole_dim g) (_coord_sys g) (_ndims g) (_has_corners g) (_num_peri_dims g) (_size g) (_staggerloc g) (_lower_bounds g) (_upper_bounds g) (_coords g) (_mask g) v (_finalized g).
Definition set_finalized v g := mkGrid (_max_index g) (_struct g) (_type g) (_areatype g) (_rank g) (_periodic_dim g) (_pole_dim g) (_coord_sys g) (_ndims g) (_has_corners g) (_num_peri_dims g) (_size g) (_staggerloc g) (_lower_bounds g) (_upper_bounds g) (_coords g) (_mask g) (_area g) v.

(** ** Slicing helpers of [ESMF.util.slicing]

    The module is outside the file.  What its functions do to an array is a
    parameter; that they pass [None] through is in their names. *)
Record Slicing (Slc : Type) := {
  get_formatted_slice : Slc -> nat -> result Slc;
  slice_array : ndarray -> Slc -> result ndarray;
  ssslice_array : ndarray -> Slc -> nat -> nat -> result ndarray
}.
Arguments get_formatted_slice {Slc} _.
Arguments slice_array {Slc} _.
Arguments ssslice_array {Slc} _.

(** ** A reference native library

    A small serial native side on which the wrapper can be run: one grid
    whose handle is 7, local bounds from zero up to the cell counts, one
    buffer per coordinate dimension and per item at distinct addresses.  Its
    state is the upper bounds it reports; [drift] is added to them after
    each bounds query, so [drift = 0] is a native side that does not move. *)

Definition toy_coord_ptr (d stagger : nat) : addr := N.of_nat (1000 * (1 + d + 8 * stagger)).

Definition toy_item_ptr (item : GridItem) (stagger : nat) : addr :=
  N.of_nat (1000 * (100 + 2 * stagger + match item with MASK => 0 | _ => 1 end)).

Definition toy_esmp (pets : nat) (drift : Z) : ESMP (list Z) := {|
  esmp_manager := fun st m => (Ok tt, st, m);
  pet_count := fun st m => (Ok pets, st, m);
  ESMP_GridCreateNoPeriDim := fun mi _ _ _ m => (Ok 7%N, mi, m);
  ESMP_GridCreate1PeriDim := fun mi _ _ _ _ _ m => (Ok 7%N, mi, m);
  ESMP_GridCreateFromFile := fun _ _ _ _ _ m => (Ok 7%N, [4; 4]%Z, m);
  ESMP_ScripInq := fun _ st m => (Ok (2, [4; 4]%Z), st, m);
  ESMP_GridspecInq := fun _ st m => (Ok (2, 1, [4; 4]%Z), st, m);
  ESMP_GridAddCoord := fun _ _ st m => (Ok tt, st, m);
  ESMP_GridAddItem := fun _ _ _ st m => (Ok tt, st, m);
  ESMP_GridGetCoordBounds := fun _ _ st m =>
    (Ok ((fun _ => 0%Z) <$> st, st), (fun z => z + drift)%Z <$> st, m);
  ESMP_GridGetCoordPtr := fun _ d stagger st m => (Ok (toy_coord_ptr d stagger), st, m);
  ESMP_GridGetItem := fun _ item stagger st m => (Ok (toy_item_ptr item stagger), st, m);
  ESMP_GridDestroy := fun _ st m => (Ok tt, st, m)
|}.

(** The same native side without a state: the upper bounds it reports are
    [ub] whatever happened before, and [pets] workers are running. *)
Definition box_esmp (pets : nat) (ub : list Z) : ESMP unit := {|
  esmp_manager := fun st m => (Ok tt, st, m);
  pet_count := fun st m => (Ok pets, st, m);
  ESMP_GridCreateNoPeriDim := fun _ _ _ st m => (Ok 7%N, st, m);
  ESMP_GridCreate1PeriDim := fun _ _ _ _ _ st m => (Ok 7%N, st, m);
  ESMP_GridCreateFromFile := fun _ _ _ _ st m => (Ok 7%N, st, m);
  ESMP_ScripInq := fun _ st m => (Ok (length ub, ub), st, m);
  ESMP_GridspecInq := fun _ st m => (Ok (length ub, 1, ub), st, m);
  ESMP_GridAddCoord := fun _ _ st m => (Ok tt, st, m);
  ESMP_GridAddItem := fun _ _ _ st m => (Ok tt, st, m);
  ESMP_GridGetCoordBounds := fun _ _ st m => (Ok ((fun _ => 0%Z) <$> ub, ub), st, m);
  ESMP_GridGetCoordPtr := fun _ d stagger st m => (Ok (toy_coord_ptr d stagger), st, m);
  ESMP_GridGetItem := fun _ item stagger st m => (Ok (toy_item_ptr item stagger), st, m);
  ESMP_GridDestroy := fun _ st m => (Ok tt, st, m)
|}.

(** A native side on which the buffer of coordinate dimension 1 cannot be
    obtained: that query raises, everything else is as in [box_esmp]. *)
Definition flaky_esmp (ub : list Z) : ESMP unit := {|
  esmp_manager := fun st m => (Ok tt, st, m);
  pet_count := fun st m => (Ok 1, st, m);
  ESMP_GridCreateNoPeriDim := fun _ _ _ st m => (Ok 7%N, st, m);
  ESMP_GridCreate1PeriDim := fun _ _ _ _ _ st m => (Ok 7%N, st, m);
  ESMP_GridCreateFromFile := fun _ _ _ _ st m => (Ok 7%N, st, m);
  ESMP_ScripInq := fun _ st m => (Ok (length ub, ub), st, m);
  ESMP_GridspecInq := fun _ st m => (Ok (length ub, 1, ub), st, m);
  ESMP_GridAddCoord := fun _ _ st m => (Ok tt, st, m);
  ESMP_GridAddItem := fun _ _ _ st m => (Ok tt, st, m);
  ESMP_GridGetCoordBounds := fun _ _ st m => (Ok ((fun _ => 0%Z) <$> ub, ub), st, m);
  ESMP_GridGetCoordPtr := fun _ d stagger st m =>
    if decide (d = 1) then (Raise (NativeError 1), st, m)
    else (Ok (toy_coord_ptr d stagger), st, m);
  ESMP_GridGetItem := fun _ item stagger st m => (Ok (toy_item_ptr item stagger), st, m);
  ESMP_GridDestroy := fun _ st m => (Ok tt, st, m)
|}.

Definition box_world : World unit := mkWorld tt ∅ [] [].

(** [Grid(max_index=[4, 4])]: no stagger location requested. *)
Definition args_bare : InitArgs :=
  {| a_max_index := Some [4; 4]%Z; a_num_peri_dims := Some 0%Z; a_periodic_dim := None;
     a_pole_dim := None; a_coord_sys := None; a_coord_typekind := None;
     a_staggerloc := None; a_filename := None; a_filetype := None;
     a_reg_decomp := None; a_decompflag := None; a_is_sphere := None;
     a_add_corner_stagger := None; a_add_user_area := None; a_add_mask := None;
     a_varname := None; a_coord_names := None |}.

(** The stagger locations with the values of the two-dimensional and
    three-dimensional enumerations of ESMF. *)
Definition toy_loc : StaggerLoc := {| CENTER := 0; CORNER := 3; CORNER_VFACE := 7 |}.

(** Slicing that keeps every array whole. *)
Definition toy_slicing : Slicing unit := {|
  get_formatted_slice := fun slc _ => Ok slc;
  slice_array := fun a _ => Ok a;
  ssslice_array := fun a _ _ _ => Ok a
|}.

Definition toy_world : World (list Z) := mkWorld [] ∅ [] [].

(** [Grid(max_index=[4, 4], staggerloc=CENTER)] *)
Definition args_4x4 : InitArgs :=
  {| a_max_index := Some [4; 4]%Z; a_num_peri_dims := Some 0%Z; a_periodic_dim := None;
     a_pole_dim := None; a_coord_sys := None; a_coord_typekind := None;
     a_staggerloc := Some (One 0); a_filename := None; a_filetype := None;
     a_reg_decomp := None; a_decompflag := None; a_is_sphere := None;
     a_add_corner_stagger := None; a_add_user_area := None; a_add_mask := None;
     a_varname := None; a_coord_names := None |}.

(** [Grid(max_index=[4, 4, 2], num_peri_dims=1)] *)
Definition args_periodic : InitArgs :=
  {| a_max_index := Some [4; 4; 2]%Z; a_num_peri_dims := Some 1%Z; a_periodic_dim := None;
     a_pole_dim := None; a_coord_sys := None; a_coord_typekind := None;
     a_staggerloc := None; a_filename := None; a_filetype := None;
     a_reg_decomp := None; a_decompflag := None; a_is_sphere := None;
     a_add_corner_stagger := None; a_add_user_area := None; a_add_mask := None;
     a_varname := None; a_coord_names := None |}.

(** A Grid of rank 2 whose bounds at the centre are cached as
    [lower = [0, 0]], [upper = [4, 4]], [size = [4, 4]]. *)
Definition cached_grid : Grid :=
  mkGrid [4; 4]%Z (Some 7%N) R8 R8 2 None None None 2 false 0%Z
    [Some [4; 4]%Z; None; None; None]
    [false; false; false; false]
    [Some [0; 0]%Z; None; None; None]
    [Some [4; 4]%Z; None; None; None]
    [[None; None]; [None; None]; [None; None]; [None; None]]
    [None; None; None; None]
    [None; None; None; None]
    (Some false).


(** ** Further inputs *)

(** [Grid(max_index=[4], staggerloc=CENTER)] *)
Definition args_line : InitArgs :=
  {| a_max_index := Some [4]%Z; a_num_peri_dims := Some 0%Z; a_periodic_dim := None;
     a_pole_dim := None; a_coord_sys := None; a_coord_typekind := None;
     a_staggerloc := Some (One 0); a_filename := None; a_filetype := None;
     a_reg_decomp := None; a_decompflag := None; a_is_sphere := None;
     a_add_corner_stagger := None; a_add_user_area := None; a_add_mask := None;
     a_varname := None; a_coord_names := None |}.


(** [Grid(max_index=[4, 4], num_peri_dims=2)] *)
Definition args_two_periodic : InitArgs :=
  {| a_max_index := Some [4; 4]%Z; a_num_peri_dims := Some 2%Z; a_periodic_dim := None;
     a_pole_dim := None; a_coord_sys := None; a_coord_typekind := None;
     a_staggerloc := None; a_filename := None; a_filetype := None;
     a_reg_decomp := None; a_decompflag := None; a_is_sphere := None;
     a_add_corner_stagger := None; a_add_user_area := None; a_add_mask := None;
     a_varname := None; a_coord_names := None |}.

(** [Grid(max_index=[4, 4], add_user_area=True, add_mask=True)] *)
Definition args_items : InitArgs :=
  {| a_max_index := Some [4; 4]%Z; a_num_peri_dims := Some 0%Z; a_periodic_dim := None;
     a_pole_dim := None; a_coord_sys := None; a_coord_typekind := None;
     a_staggerloc := None; a_filename := None; a_filetype := None;
     a_reg_decomp := None; a_decompflag := None; a_is_sphere := None;
     a_add_corner_stagger := None; a_add_user_area := Some true; a_add_mask := Some true;
     a_varname := None; a_coord_names := None |}.

(** A native side that cannot give the bounds of any location: the query
    raises, everything else is as in [box_esmp]. *)
Definition boundless_esmp : ESMP unit := {|
  esmp_manager := fun st m => (Ok tt, st, m);
  pet_count := fun st m => (Ok 1, st, m);
  ESMP_GridCreateNoPeriDim := fun _ _ _ st m => (Ok 7%N, st, m);
  ESMP_GridCreate1PeriDim := fun _ _ _ _ _ st m => (Ok 7%N, st, m);
  ESMP_GridCreateFromFile := fun _ _ _ _ st m => (Ok 7%N, st, m);
  ESMP_ScripInq := fun _ st m => (Ok (2, [4; 4]%Z), st, m);
  ESMP_GridspecInq := fun _ st m => (Ok (2, 1, [4; 4]%Z), st, m);
  ESMP_GridAddCoord := fun _ _ st m => (Ok tt, st, m);
  ESMP_GridAddItem := fun _ _ _ st m => (Ok tt, st, m);
  ESMP_GridGetCoordBounds := fun _ _ st m => (Raise (NativeError 2), st, m);
  ESMP_GridGetCoordPtr := fun _ d stagger st m => (Ok (toy_coord_ptr d stagger), st, m);
  ESMP_GridGetItem := fun _ item stagger st m => (Ok (toy_item_ptr item stagger), st, m);
  ESMP_GridDestroy := fun _ st m => (Ok tt, st, m)
|}.

(** [Grid(filename="grid.nc", filetype=FileFormat.SCRIP, add_corner_stagger=True)] *)
Definition args_scrip : InitArgs :=
  {| a_max_index := None; a_num_peri_dims := Some 0%Z; a_periodic_dim := None;
     a_pole_dim := None; a_coord_sys := None; a_coord_typekind := None;
     a_staggerloc := None; a_filename := Some "grid.nc"%string; a_filetype := Some SCRIP;
     a_reg_decomp := None; a_decompflag := None; a_is_sphere := None;
     a_add_corner_stagger := Some true; a_add_user_area := None; a_add_mask := None;
     a_varname := None; a_coord_names := None |}.

(** A native side on which a grid cannot be released: the destroy call
    raises, everything else is as in [box_esmp]. *)
Definition stuck_esmp : ESMP unit := {|
  esmp_manager := fun st m => (Ok tt, st, m);
  pet_count := fun st m => (Ok 1, st, m);
  ESMP_GridCreateNoPeriDim := fun _ _ _ st m => (Ok 7%N, st, m);
  ESMP_GridCreate1PeriDim := fun _ _ _ _ _ st m => (Ok 7%N, st, m);
  ESMP_GridCreateFromFile := fun _ _ _ _ st m => (Ok 7%N, st, m);
  ESMP_ScripInq := fun _ st m => (Ok (2, [4; 4]%Z), st, m);
  ESMP_GridspecInq := fun _ st m => (Ok (2, 1, [4; 4]%Z), st, m);
  ESMP_GridAddCoord := fun _ _ st m => (Ok tt, st, m);
  ESMP_GridAddItem := fun _ _ _ st m => (Ok tt, st, m);
  ESMP_GridGetCoordBounds := fun _ _ st m => (Ok ([0; 0]%Z, [4; 4]%Z), st, m);
  ESMP_GridGetCoordPtr := fun _ d stagger st m => (Ok (toy_coord_ptr d stagger), st, m);
  ESMP_GridGetItem := fun _ item stagger st m => (Ok (toy_item_ptr item stagger), st, m);
  ESMP_GridDestroy := fun _ st m => (Raise (NativeError 3), st, m)
|}.

(** The cached grid with a mask linked at location 1. *)
Definition masked_grid : Grid :=
  set_mask [None; Some (Alias I4 [4; 4]%Z (toy_item_ptr MASK 1)); None; None] cached_grid.

(** [Grid(filename="grid.nc", filetype=FileFormat.GRIDSPEC)] *)
Definition args_gridspec : InitArgs :=
  {| a_max_index := None; a_num_peri_dims := Some 0%Z; a_periodic_dim := None;
     a_pole_dim := None; a_coord_sys := None; a_coord_typekind := None;
     a_staggerloc := None; a_filename := Some "grid.nc"%string; a_filetype := Some GRIDSPEC;
     a_reg_decomp := None; a_decompflag := None; a_is_sphere := None;
     a_add_corner_stagger := None; a_add_user_area := None; a_add_mask := None;
     a_varname := None; a_coord_names := None |}.

(** [Grid(max_index=[4, 4], staggerloc=[StaggerLoc.CENTER, StaggerLoc.CORNER])] *)
Definition args_pair : InitArgs :=
  {| a_max_index := Some [4; 4]%Z; a_num_peri_dims := Some 0%Z; a_periodic_dim := None;
     a_pole_dim := None; a_coord_sys := None; a_coord_typekind := None;
     a_staggerloc := Some (Many [0; 3]); a_filename := None; a_filetype := None;
     a_reg_decomp := None; a_decompflag := None; a_is_sphere := None;
     a_add_corner_stagger := None; a_add_user_area := None; a_add_mask := None;
     a_varname := None; a_coord_names := None |}.
(** ** The method monad

    A method runs on the object [self] and on the world; an exception leaves
    both as they were when it was raised (there is no rollback). *)

Section GridMethods.

Context {St Slc : Type}.
Variable esmp : ESMP St.
Variable loc : StaggerLoc.
Variable slicing : Slicing Slc.

Definition M (A : Type) : Type := Grid -> World St -> result A * Grid * World St.

Definition ret {A} (a : A) : M A := fun g w => (Ok a, g, w).

Definition raise {A} (e : exn) : M A := fun g w => (Raise e, g, w).

Definition bind {A B} (m : M A) (k : A -> M B) : M B :=
  fun g w =>
    match m g w with
    | (Ok a, g1, w1) => k a g1 w1
    | (Raise e, g1, w1) => (Raise e, g1, w1)
    end.

Notation "'do' x <- m ; k" := (bind m (fun x => k))
  (at level 10, x pattern, m at level 100, k at level 200).
Notation "m ;; k" := (bind m (fun _ => k))
  (at level 100, k at level 200, right associativity, only parsing).

Definition lift {A} (r : result A) : M A := fun g w => (r, g, w).

Definition self : M Grid := fun g w => (Ok g, g, w).

Definition modify (f : Grid -> Grid) : M unit := fun g w => (Ok tt, f g, w).

Definition when (b : bool) (m : M unit) : M unit := if b then m else ret tt.

(** [try: m except: raise e] *)
Definition try_except {A} (m : M A) (e : exn) : M A :=
  fun g w =>
    match m g w with
    | (Ok a, g1, w1) => (Ok a, g1, w1)
    | (Raise _, g1, w1) => (Raise e, g1, w1)
    end.

Definition assert (b : bool) : M unit := if b then ret tt else raise AssertionError.

Definition warn (msg : string) : M unit :=
  fun g w => (Ok tt, g, mkWorld (nstate w) (mem w) (calls w) (warns w ++ [msg])).

(** A call into the native library, recorded in the log. *)
Definition native {A} (c : call) (op : NativeOp St A) : M A :=
  fun g w =>
    match op (nstate w) (mem w) with
    | (r, s1, m1) => (r, g, mkWorld s1 m1 (calls w ++ [c]) (warns w))
    end.

(** [a[...] = v] through a view: the cells of native memory are written. *)
Definition write_mem (base : addr) (n : nat) (v : scalar) : M unit :=
  fun g w => (Ok tt, g, mkWorld (nstate w) (fill_mem base n v (mem w)) (calls w) (warns w)).

Fixpoint for_each {A} (l : list A) (body : A -> M unit) : M unit :=
  match l with
  | [] => ret tt
  | x :: l' => body x;; for_each l' body
  end.

(** *** Slots of the shadow lists *)

Definition set_coord (stagger d : nat) (x : ndarray) : M unit :=
  do g <- self;
  do row <- lift (py_get (_coords g) stagger);
  do row' <- lift (py_set row d (Some x));
  modify (set_coords (<[stagger := row']> (_coords g))).

Definition get_coord (stagger d : nat) : M (option ndarray) :=
  do g <- self;
  do row <- lift (py_get (_coords g) stagger);
  lift (py_get row d).

(** [a[...] = n] on an array held in a slot: an owned array is overwritten
    where it is held, a view writes native memory. *)
Definition fill_array (store : ndarray -> M unit) (a : option ndarray) (n : Z) : M unit :=
  match a with
  | None => raise TypeError
  | Some (Owned t sh d) => store (Owned t sh (replicate (length d) (Some (cast t n))))
  | Some (Alias t sh b) => write_mem b (nelems sh) (cast t n)
  end.

Definition fill_coord (stagger d : nat) (n : Z) : M unit :=
  do a <- get_coord stagger d;
  fill_array (set_coord stagger d) a n.

Definition set_item_slot (item : GridItem) (stagger : nat) (x : ndarray) : M unit :=
  do g <- self;
  match item with
  | MASK => do l <- lift (py_set (_mask g) stagger (Some x)); modify (set_mask l)
  | AREA => do l <- lift (py_set (_area g) stagger (Some x)); modify (set_area l)
  | OtherItem _ => raise GridItemNotSupported
  end.

(** [self._lower_bounds[stagger] = v] and its siblings. *)
Definition set_lower (stagger : nat) (v : list Z) : M unit :=
  do g <- self;
  do l <- lift (py_set (_lower_bounds g) stagger (Some v));
  modify (set_lower_bounds l).

Definition set_upper (stagger : nat) (v : list Z) : M unit :=
  do g <- self;
  do l <- lift (py_set (_upper_bounds g) stagger (Some v));
  modify (set_upper_bounds l).

Definition set_size_at (stagger : nat) (v : list Z) : M unit :=
  do g <- self;
  do l <- lift (py_set (_size g) stagger (Some v));
  modify (set_size l).

Definition set_flag (stagger : nat) (v : bool) : M unit :=
  do g <- self;
  do l <- lift (py_set (_staggerloc g) stagger v);
  modify (set_staggerloc l).

Definition get_lower (stagger : nat) : M (option (list Z)) :=
  do g <- self; lift (py_get (_lower_bounds g) stagger).

Definition get_upper (stagger : nat) : M (option (list Z)) :=
  do g <- self; lift (py_get (_upper_bounds g) stagger).

Definition get_size (stagger : nat) : M (option (list Z)) :=
  do g <- self; lift (py_get (_size g) stagger).

(** *** Native queries on the Grid's handle *)

Definition get_bounds (g : Grid) (stagger : nat) : M (list Z * list Z) :=
  native (CGridGetCoordBounds (_struct g) stagger)
         (ESMP_GridGetCoordBounds esmp (_struct g) stagger).

Definition get_coord_ptr (g : Grid) (d stagger : nat) : M addr :=
  native (CGridGetCoordPtr (_struct g) d stagger)
         (ESMP_GridGetCoordPtr esmp (_struct g) d stagger).

(** *** [_verify_grid_bounds_]

    The first query for a location stores the native bounds and their
    difference.  A later query fetches the bounds again and asserts, for
    each of lower, upper and size, that [cached.all() == fresh.all()]:
    [all()] is a single truth value, so what is compared is whether both
    arrays are free of zeros. *)

Definition _verify_grid_bounds_ (stagger : nat) : M unit :=
  do cached <- get_lower stagger;
  do g <- self;
  match cached with
  | None =>
      do (lb, ub) <- try_except (get_bounds g stagger) GridBoundsNotCreated;
      set_lower stagger lb;;
      set_upper stagger ub;;
      (* find the local size of this stagger, from the two values just stored *)
      do d <- lift (np_sub ub lb);
      set_size_at stagger d
  | Some clb =>
      do (lb, ub) <- get_bounds g stagger;
      assert (eqb (np_all clb) (np_all lb));;
      do cub <- get_upper stagger;
      match cub with
      | None => raise AttributeError
      | Some cub =>
          assert (eqb (np_all cub) (np_all ub));;
          do csz <- get_size stagger;
          match csz with
          | None => raise AttributeError
          | Some csz =>
              do d <- lift (np_sub ub lb);
              assert (eqb (np_all csz) (np_all d))
          end
      end
  end.

(** *** Linking native buffers *)

Definition is_corner (stagger : nat) : bool :=
  bool_decide (stagger = CORNER loc \/ stagger = CORNER_VFACE loc).

Definition _link_coord_buffer_ (coord_dim stagger : nat) : M unit :=
  do g <- self;
  (* get the data pointer and bounds of the ESMF allocation *)
  do data <- get_coord_ptr g coord_dim stagger;
  do (lb, ub) <- get_bounds g stagger;
  do d <- lift (np_sub ub lb);
  do gridCoordP <- lift (ndarray_from_esmf data (_type g) d);
  (* alias the coordinates to a grid property *)
  set_coord stagger coord_dim gridCoordP;;
  when (is_corner stagger) (modify (set_has_corners true)).

Definition the_mem : M (gmap N scalar) := fun g w => (Ok (mem w), g, w).

(** One axis of a file-ingested grid: a one-dimensional view whose length is
    entry [k] of [ub - lb]. *)
Definition axis_view (g : Grid) (lb ub : list Z) (k stagger : nat) : M ndarray :=
  do p <- get_coord_ptr g k stagger;
  do d <- lift (np_sub ub lb);
  do n <- lift (py_get d k);
  lift (ndarray_from_esmf p (_type g) [n]).

Definition _link_coord_buffer_1Dcoords (stagger : nat) : M unit :=
  do g <- self;
  do (lb, ub) <- get_bounds g stagger;
  do gc0 <- axis_view g lb ub 0 stagger;
  do gc1 <- axis_view g lb ub 1 stagger;
  do (gc00, gc11, gc22) <-
    (if decide (_rank g = 3) then
       do gc2 <- axis_view g lb ub 2 stagger;
       do m <- the_mem;
       match meshgrid3 (contents m gc0) (contents m gc1) (contents m gc2) with
       | (c0, c1, c2) =>
           let sh := shape_of gc0 ++ shape_of gc1 ++ shape_of gc2 in
           ret (Owned (_type g) sh c0, Owned (_type g) sh c1, Some (Owned (_type g) sh c2))
       end
     else if decide (_rank g = 2) then
       do m <- the_mem;
       match meshgrid2 (contents m gc0) (contents m gc1) with
       | (c0, c1) =>
           let sh := shape_of gc0 ++ shape_of gc1 in
           ret (Owned (_type g) sh c0, Owned (_type g) sh c1, None)
       end
     else raise ValueError);
  (* alias the coordinates to a grid property *)
  set_coord stagger 0 gc00;;
  set_coord stagger 1 gc11;;
  (* gc22 exists exactly when the rank is 3 *)
  match gc22 with
  | Some gc22 => set_coord stagger 2 gc22
  | None => ret tt
  end;;
  when (is_corner stagger) (modify (set_has_corners true)).

Definition get_item_slot (item : GridItem) (stagger : nat) : M (option ndarray) :=
  do g <- self;
  match item with
  | MASK => lift (py_get (_mask g) stagger)
  | AREA => lift (py_get (_area g) stagger)
  | OtherItem _ => raise GridItemNotSupported
  end.

Definition item_type (item : GridItem) : TypeKind :=
  match item with MASK => I4 | _ => R8 end.

Definition _link_item_buffer_ (item : GridItem) (stagger : nat) : M unit :=
  do g <- self;
  (* get the data pointer and bounds of the ESMF allocation *)
  do data <- native (CGridGetItem (_struct g) item stagger)
                    (ESMP_GridGetItem esmp (_struct g) item stagger);
  do (lb, ub) <- get_bounds g stagger;
  match item with
  | OtherItem _ => raise GridItemNotSupported
  | _ =>
      do d <- lift (np_sub ub lb);
      do a <- lift (ndarray_from_esmf data (item_type item) d);
      set_item_slot item stagger a
  end.

(** *** Allocation *)

(** [self._coords[stagger][d] = np.zeros(shape=(self.size[stagger]), dtype=...)] *)
Definition zero_coord (stagger d : nat) : M unit :=
  do sz <- get_size stagger;
  do g <- self;
  do z <- lift (np_zeros sz (_type g));
  set_coord stagger d z.

Definition link_coords (stagger : nat) : M unit :=
  do g <- self;
  if decide (_ndims g = _rank g \/ _ndims g = 0) then
    for_each (seq 0 (_rank g)) (fun xyz => _link_coord_buffer_ xyz stagger)
  else if decide (_ndims g < _rank g) then
    when (negb (bool_decide (_ndims g = 1))) (raise ValueError);;
    _link_coord_buffer_1Dcoords stagger
  else ret tt.

Definition _allocate_coords_ (stagger : nat) (from_file : bool) : M unit :=
  (* verify that bounds and other necessary data are available *)
  _verify_grid_bounds_ stagger;;
  (* allocate space for the coordinates on the Python side *)
  zero_coord stagger 0;;
  zero_coord stagger 1;;
  do g <- self;
  when (bool_decide (_rank g = 3)) (zero_coord stagger 2);;
  (* link the ESMF allocations to the Python grid properties *)
  link_coords stagger;;
  (* initialize to zeros, because ESMF doesn't handle that *)
  when (negb from_file)
    (fill_coord stagger 0 0;;
     fill_coord stagger 1 0;;
     when (bool_decide (_rank g = 3)) (fill_coord stagger 2 0)).

Definition fill_item (item : GridItem) (stagger : nat) (n : Z) : M unit :=
  do a <- get_item_slot item stagger;
  fill_array (set_item_slot item stagger) a n.

Definition _allocate_items_ (item : GridItem) (stagger : nat) (from_file : bool) : M unit :=
  _verify_grid_bounds_ stagger;;
  match item with
  | OtherItem _ => raise GridItemNotSupported
  | _ =>
      do sz <- get_size stagger;
      do z <- lift (np_zeros sz (item_type item));
      set_item_slot item stagger z
  end;;
  (* link the ESMF allocations to the grid properties *)
  _link_item_buffer_ item stagger;;
  (* initialize to zeros, because ESMF doesn't handle that *)
  when (negb from_file)
    match item with
    | MASK => fill_item MASK stagger 1
    | AREA => fill_item AREA stagger 0
    | OtherItem _ => raise GridItemNotSupported
    end.

(** *** [add_coords] and [add_item] *)

(** A missing [staggerloc] is the centre; a scalar becomes a one-element
    list ([list(staggerloc)] raises [TypeError] on it). *)
Definition normalize (staggerloc : option StaggerArg) : list nat :=
  match staggerloc with
  | None => [CENTER loc]
  | Some (One s) => [s]
  | Some (Many l) => l
  end.

Definition already_added : string := "This coordinate has already been added.".

Definition add_coords_at (from_file : bool) (stagger : nat) : M unit :=
  do c <- get_coord stagger 0;
  match c with
  | Some _ => warn already_added
  | None =>
      (* request that ESMF allocate space for the coordinates *)
      when (negb from_file)
        (do g <- self;
         native (CGridAddCoord (_struct g) stagger)
                (ESMP_GridAddCoord esmp (_struct g) stagger));;
      (* and now for Python *)
      _allocate_coords_ stagger from_file;;
      (* set the staggerlocs to be done *)
      set_flag stagger true
  end.

Definition add_coords (staggerloc : option StaggerArg) (coord_dim : option nat)
    (from_file : bool) : M (option ndarray) :=
  let staggerloc := normalize staggerloc in
  for_each staggerloc (add_coords_at from_file);;
  match staggerloc, coord_dim with
  | [s], Some d => get_coord s d
  | _, _ => ret None
  end.

(** The check of one iteration of [add_item]: the new value of [done]. *)
Definition item_check (item : GridItem) (stagger : nat) : M bool :=
  match item with
  | OtherItem _ => raise GridItemNotSupported
  | _ =>
      do a <- get_item_slot item stagger;
      match a with
      | Some _ => raise GridItemAlreadyLinked
      | None => ret false
      end
  end.

Fixpoint add_item_loop (item : GridItem) (from_file : bool) (l : list nat)
    (done : bool) : M unit :=
  match l with
  | [] => ret tt
  | stagger :: l' =>
      (* check to see if they are done *)
      do done <- item_check item stagger;
      when (negb done)
        (when (negb from_file)
           (do g <- self;
            native (CGridAddItem (_struct g) item stagger)
                   (ESMP_GridAddItem esmp (_struct g) item stagger));;
         _allocate_items_ item stagger from_file);;
      add_item_loop item from_file l' done
  end.

Definition add_item (item : GridItem) (staggerloc : option StaggerArg)
    (from_file : bool) : M (option ndarray) :=
  let staggerloc := normalize staggerloc in
  add_item_loop item from_file staggerloc true;;
  match staggerloc with
  | [s] => get_item_slot item s
  | _ => ret None
  end.

(** *** [copy], [destroy], [__del__] *)

(** [copy(self)] copies the attribute table, so the copy has the same native
    handle and the same lists; it is then marked as finalized. *)
Definition copy : M Grid :=
  do g <- self;
  (* don't call ESMF destructor twice on the same shallow Python object *)
  ret (set_finalized (Some true) g).

Definition destroy : M unit :=
  do g <- self;
  match _finalized g with
  | None => ret tt
  | Some true => ret tt
  | Some false =>
      native (CGridDestroy (_struct g)) (ESMP_GridDestroy esmp (_struct g));;
      modify (set_finalized (Some true))
  end.

Definition __del__ : M unit := destroy.

(** *** [get_coords] and [get_item]; a list or tuple of locations is refused *)

Definition get_coords (coord_dim : nat) (staggerloc : option StaggerArg) : M ndarray :=
  do s <- match staggerloc with
          | None => ret (CENTER loc)
          | Some (One s) => ret s
          | Some (Many _) => raise GridSingleStaggerloc
          end;
  do c <- get_coord s coord_dim;
  match c with
  | None => raise AssertionError
  | Some a => ret a
  end.

Definition get_item (item : GridItem) (staggerloc : option StaggerArg) : M ndarray :=
  do s <- match staggerloc with
          | None => ret (CENTER loc)
          | Some (One s) => ret s
          | Some (Many _) => raise GridSingleStaggerloc
          end;
  do c <- get_item_slot item s;
  match c with
  | None => raise AssertionError
  | Some a => ret a
  end.

(** *** [__getitem__] *)

Definition rbind {A B} (r : result A) (k : A -> result B) : result B :=
  match r with
  | Ok a => k a
  | Raise e => Raise e
  end.

Fixpoint rmap {A B} (f : A -> result B) (l : list A) : result (list B) :=
  match l with
  | [] => Ok []
  | x :: l' => rbind (f x) (fun y => rbind (rmap f l') (fun ys => Ok (y :: ys)))
  end.

(** [get_none_or_slice] and [get_none_or_ssslice] on a slot holding an
    array or [None]. *)
Definition none_or {A B} (f : A -> result B) (target : option A) : result (option B) :=
  match target with
  | None => Ok None
  | Some a => rbind (f a) (fun b => Ok (Some b))
  end.

(** Modelled from the spec: [get_none_or_bound] of [ESMF.util.slicing],
    which is outside the file: upper bounds are recomputed "from the
    resulting view shape", [None] where the slot holds no view. *)
Definition get_none_or_bound (target : list (option ndarray)) (ind : nat) : result (option (list Z)) :=
  rbind (py_get target ind) (fun a => Ok (shape_of <$> a)).

Definition __getitem__ (slc : Slc) : M Grid :=
  (* no slicing in parallel *)
  do n <- native CPetCount (pet_count esmp);
  if decide (1 < n) then raise SerialMethod else
  (* format and copy *)
  do g <- self;
  do slc <- lift (get_formatted_slice slicing slc (_rank g));
  do ret_ <- copy;
  let staggers := seq 0 (2 ^ _rank g) in
  (* coords, mask and area *)
  do coords' <- lift (rmap (fun stagger =>
      rmap (fun coorddim =>
        rbind (py_get (_coords g) stagger) (fun row =>
        rbind (py_get row coorddim) (fun a =>
        none_or (fun a => ssslice_array slicing a slc stagger (_rank g)) a)))
        (seq 0 (_rank g))) staggers);
  do mask' <- lift (rmap (fun stagger =>
      rbind (py_get (_mask g) stagger) (none_or (fun a => slice_array slicing a slc)))
      staggers);
  do area' <- lift (rmap (fun stagger =>
      rbind (py_get (_area g) stagger) (none_or (fun a => slice_array slicing a slc)))
      staggers);
  (* upper bounds are "sliced" by taking the shape of the coords *)
  do upper' <- lift (rmap (fun stagger =>
      rbind (py_get coords' stagger) (fun row => get_none_or_bound row 0)) staggers);
  (* lower bounds do not need to be sliced yet *)
  ret (set_upper_bounds upper' (set_area area' (set_mask mask' (set_coords coords' ret_)))).

(** *** [__init__] *)

Definition from_file_only (name : string) : string :=
  String.append name " is only used for grids created from file, this argument will be ignored.".

Definition in_memory_only (name : string) : string :=
  String.append name " is only used for grids created in memory, this argument will be ignored.".

Definition given {A} (x : option A) : bool :=
  match x with Some _ => true | None => false end.

(** Python truth of an optional flag and of an optional list. *)
Definition truthy (b : option bool) : bool :=
  match b with Some true => true | _ => false end.

Definition nonempty {A} (l : option (list A)) : bool :=
  match l with Some (_ :: _) => true | _ => false end.

(** Which of the two creation modes the arguments select. *)
Inductive mode :=
| InMemory
| FromFile (filename : string) (filetype : FileFormat).

Definition from_file_of (md : mode) : bool :=
  match md with InMemory => false | FromFile _ _ => true end.

Definition check_args (a : InitArgs) : M mode :=
  match a_max_index a with
  | Some max_index =>
      (* in-memory grid: cast max_index *)
      modify (set_max_index (wrap32 <$> max_index));;
      (* raise warnings on all from file args *)
      when (given (a_filename a)) (warn (from_file_only "filename"));;
      when (given (a_filetype a)) (warn (from_file_only "filetype"));;
      when (given (a_reg_decomp a)) (warn (from_file_only "reg_decomp"));;
      when (given (a_decompflag a)) (warn (from_file_only "decompflag"));;
      when (given (a_is_sphere a)) (warn (from_file_only "is_sphere"));;
      when (given (a_add_corner_stagger a)) (warn (from_file_only "add_corner_stagger"));;
      when (given (a_add_user_area a)) (warn (from_file_only "add_user_area"));;
      when (given (a_add_mask a)) (warn (from_file_only "add_mask"));;
      when (given (a_varname a)) (warn (from_file_only "varname"));;
      when (nonempty (a_coord_names a)) (warn (from_file_only "coord_names"));;
      ret InMemory
  | None =>
      match a_filename a, a_filetype a with
      | Some filename, Some filetype =>
          (* from file *)
          if bool_decide (filetype <> SCRIP /\ filetype <> GRIDSPEC)
          then raise GridArgumentError
          else
            (* max_index is None on this path, so its warning never fires *)
            when (negb (bool_decide (a_num_peri_dims a = Some 0%Z)))
              (warn (in_memory_only "num_peri_dims"));;
            when (given (a_periodic_dim a)) (warn (in_memory_only "periodic_dim"));;
            when (given (a_pole_dim a)) (warn (in_memory_only "pole_dim"));;
            when (given (a_coord_sys a)) (warn (in_memory_only "coord_sys"));;
            when (given (a_coord_typekind a)) (warn (in_memory_only "coord_typekind"));;
            when (given (a_staggerloc a)) (warn (in_memory_only "staggerloc"));;
            ret (FromFile filename filetype)
      | _, _ =>
          (* need max_index to create in memory or filename to create from file *)
          raise GridArgumentError
      end
  end.

Definition create_from_file (a : InitArgs) (filename : string) (filetype : FileFormat)
    : M (option StaggerArg) :=
  (* create default reg_decomp if it is not passed as an argument *)
  do reg_decomp <-
    match a_reg_decomp a with
    | None => do n <- native CPetCount (pet_count esmp); ret [Z.of_nat n; 1%Z]
    | Some r => ret r
    end;
  do h <- native CGridCreateFromFile
                 (ESMP_GridCreateFromFile esmp filename filetype reg_decomp a);
  modify (set_struct (Some h));;
  (* grid rank and dims *)
  (if decide (filetype = SCRIP) then
     do (rank, max_index) <- native CScripInq (ESMP_ScripInq esmp filename);
     modify (set_rank rank);;
     modify (set_max_index max_index);;
     modify (set_ndims rank)
   else
     do (rd, max_index) <- native CGridspecInq (ESMP_GridspecInq esmp filename);
     modify (set_rank rd.1);;
     modify (set_ndims rd.2);;
     modify (set_max_index max_index));;
  (* stagger is not required for from-file grids *)
  let staggerloc :=
    if truthy (a_add_corner_stagger a) && negb (bool_decide (CORNER loc = CENTER loc))
    then [CENTER loc; CORNER loc] else [CENTER loc] in
  (* is_sphere defaults to True *)
  (if bool_decide (a_is_sphere a = Some false) then modify (set_num_peri_dims 0%Z)
   else modify (set_num_peri_dims 1%Z);; modify (set_periodic_dim (Some 0%Z)));;
  ret (Some (Many staggerloc)).

Definition create_in_memory (a : InitArgs) : M (option StaggerArg) :=
  do g <- self;
  (if decide (_num_peri_dims g = 0%Z) then
     do h <- native CGridCreateNoPeriDim
                    (ESMP_GridCreateNoPeriDim esmp (_max_index g)
                       (a_coord_sys a) (a_coord_typekind a));
     modify (set_struct (Some h))
   else if decide (_num_peri_dims g = 1%Z) then
     do h <- native CGridCreate1PeriDim
                    (ESMP_GridCreate1PeriDim esmp (_max_index g)
                       (a_periodic_dim a) (a_pole_dim a)
                       (a_coord_sys a) (a_coord_typekind a));
     modify (set_struct (Some h));;
     when (negb (given (a_periodic_dim a)))
       (modify (set_periodic_dim (Some 0%Z));;
        modify (set_pole_dim (Some 1%Z)))
   else raise TypeError);;
  (* grid rank *)
  modify (set_rank (length (_max_index g)));;
  modify (set_ndims (length (_max_index g)));;
  ret (a_staggerloc a).

(** The attributes set before the grid is created; the placeholders given
    to the shadow lists at this point are replaced below before any read. *)
Definition reset_attributes (a : InitArgs) : M unit :=
  modify (set_struct None);;
  modify (set_type R8);;
  modify (set_areatype R8);;
  modify (set_periodic_dim (a_periodic_dim a));;
  modify (set_pole_dim (a_pole_dim a));;
  modify (set_coord_sys (a_coord_sys a));;
  modify (set_has_corners false);;
  modify (set_num_peri_dims (default 0%Z (a_num_peri_dims a))).

(** The shadow lists, one entry per stagger location: [2 ** rank] of them. *)
Definition shadow_lists : M unit :=
  do g <- self;
  let n := 2 ^ _rank g in
  modify (set_staggerloc (replicate n false));;
  modify (set_lower_bounds (replicate n None));;
  modify (set_upper_bounds (replicate n None));;
  modify (set_size (replicate n None));;
  modify (set_coords (replicate n (replicate (_rank g) None)));;
  modify (set_mask (replicate n None));;
  modify (set_area (replicate n None)).

(** Coordinates for the requested locations, then area, then mask. *)
Definition populate (a : InitArgs) (staggerloc : option StaggerArg) (from_file : bool)
    : M unit :=
  (* Add coordinates if a staggerloc is specified *)
  when (given staggerloc) (add_coords staggerloc None from_file;; ret tt);;
  (* Add items if they are specified *)
  when (truthy (a_add_user_area a))
    (add_item AREA (Some (One (CENTER loc))) from_file;; ret tt);;
  when (truthy (a_add_mask a))
    (add_item MASK (Some (One (CENTER loc))) from_file;; ret tt).

Definition __init__ (a : InitArgs) : M unit :=
  do md <- check_args a;
  (* type, kind, rank, etc. *)
  reset_attributes a;;
  (* create the correct grid *)
  do staggerloc <-
    match md with
    | FromFile filename filetype => create_from_file a filename filetype
    | InMemory => create_in_memory a
    end;
  (* grid type *)
  modify (set_type (default R8 (a_coord_typekind a)));;
  shadow_lists;;
  populate a staggerloc (from_file_of md);;
  (* the destructor is registered with atexit here *)
  modify (set_finalized (Some false)).

(** The [initialize] decorator of [ESMF.api.esmpymanager] is outside the
    file; it is taken to start the ESMF manager and then run the decorated
    function.  [Grid_call a w] is the expression [Grid(...)]: the decorated
    constructor run on a new object. *)
Definition initialize {A} (f : M A) : M A :=
  native CManager (esmp_manager esmp);; f.

Definition Grid_call (a : InitArgs) (w : World St) : result unit * Grid * World St :=
  initialize (__init__ a) blank w.

(** * Vocabulary of the statements *)

(** ** Frames: what a successful run may change

    [frame F P g g']: from [g] to [g'] the attributes fixed at construction
    are the same; a flag may differ only at a location in [F] and a slot of
    coordinates, bounds or items only at a location in [P]; and whatever was
    set stays set. *)

Definition coord_at (g : Grid) (s d : nat) : option ndarray :=
  match _coords g !! s with
  | Some row => mjoin (row !! d)
  | None => None
  end.

Definition lower_at (g : Grid) (s : nat) : option (list Z) := mjoin (_lower_bounds g !! s).
Definition upper_at (g : Grid) (s : nat) : option (list Z) := mjoin (_upper_bounds g !! s).
Definition size_at (g : Grid) (s : nat) : option (list Z) := mjoin (_size g !! s).
Definition mask_at (g : Grid) (s : nat) : option ndarray := mjoin (_mask g !! s).
Definition area_at (g : Grid) (s : nat) : option ndarray := mjoin (_area g !! s).

Definition item_at (item : GridItem) (g : Grid) (s : nat) : option ndarray :=
  match item with
  | MASK => mask_at g s
  | AREA => area_at g s
  | OtherItem _ => None
  end.

Record frame (F P : nat -> Prop) (g g' : Grid) : Prop := mkFrame {
  fr_max_index : _max_index g' = _max_index g;
  fr_struct : _struct g' = _struct g;
  fr_type : _type g' = _type g;
  fr_areatype : _areatype g' = _areatype g;
  fr_rank : _rank g' = _rank g;
  fr_periodic_dim : _periodic_dim g' = _periodic_dim g;
  fr_pole_dim : _pole_dim g' = _pole_dim g;
  fr_coord_sys : _coord_sys g' = _coord_sys g;
  fr_ndims : _ndims g' = _ndims g;
  fr_num_peri_dims : _num_peri_dims g' = _num_peri_dims g;
  fr_finalized : _finalized g' = _finalized g;
  fr_flags_len : length (_staggerloc g') = length (_staggerloc g);
  fr_flags : forall i, ~ F i -> _staggerloc g' !! i = _staggerloc g !! i;
  fr_flags_mono : forall i, _staggerloc g !! i = Some true -> _staggerloc g' !! i = Some true;
  fr_coords : forall i, ~ P i -> _coords g' !! i = _coords g !! i;
  fr_coords_mono : forall i d, is_Some (coord_at g i d) -> is_Some (coord_at g' i d);
  fr_lower : forall i, ~ P i -> _lower_bounds g' !! i = _lower_bounds g !! i;
  fr_upper : forall i, ~ P i -> _upper_bounds g' !! i = _upper_bounds g !! i;
  fr_size : forall i, ~ P i -> _size g' !! i = _size g !! i;
  fr_lower_mono : forall i, is_Some (lower_at g i) -> is_Some (lower_at g' i);
  fr_upper_mono : forall i, is_Some (upper_at g i) -> is_Some (upper_at g' i);
  fr_size_mono : forall i, is_Some (size_at g i) -> is_Some (size_at g' i);
  fr_mask : forall i, ~ P i -> _mask g' !! i = _mask g !! i;
  fr_area : forall i, ~ P i -> _area g' !! i = _area g !! i;
  fr_mask_mono : forall i, is_Some (mask_at g i) -> is_Some (mask_at g' i);
  fr_area_mono : forall i, is_Some (area_at g i) -> is_Some (area_at g' i)
}.

(** [keeps R m]: every successful run of [m] relates the object before to
    the object after by [R]. *)
Definition keeps {A} (R : Grid -> Grid -> Prop) (m : M A) : Prop :=
  forall g w a g' w', m g w = (Ok a, g', w') -> R g g'.

(** The predicate that allows every location. *)
Definition any : nat -> Prop := fun _ => True.

(** A location is populated when every dimension has its coordinate array,
    its bounds and size are cached and its flag is set. *)
Definition populated (g : Grid) (s : nat) : Prop :=
  (forall d, d < _rank g -> is_Some (coord_at g s d))
  /\ is_Some (lower_at g s) /\ is_Some (upper_at g s) /\ is_Some (size_at g s)
  /\ _staggerloc g !! s = Some true.

(** Only [_verify_grid_bounds_] writes the cached bounds; [same_bounds]
    relates two objects with the same cache and the same native handle. *)
Definition same_bounds (g g' : Grid) : Prop :=
  _lower_bounds g' = _lower_bounds g /\ _upper_bounds g' = _upper_bounds g
  /\ _size g' = _size g /\ _struct g' = _struct g.

(** ** A native side whose bounds do not move

    [bounds_fixed h s lb ub]: in every native state, the bounds query for
    location [s] of grid [h] answers [(lb, ub)].  Against such a native side
    the cache of a location is consistent when nothing is cached yet or the
    cached size is [ub - lb]. *)

Definition bounds_fixed (h : option handle) (s : nat) (lb ub : list Z) : Prop :=
  forall st m, (ESMP_GridGetCoordBounds esmp h s st m).1.1 = Ok (lb, ub).

Definition consistent (lb ub : list Z) (g : Grid) (s : nat) : Prop :=
  lower_at g s = None \/ exists sz, np_sub ub lb = Ok sz /\ size_at g s = Some sz.

Definition cache_rel (c : nat) (lb ub : list Z) (g g' : Grid) : Prop :=
  bounds_fixed (_struct g) c lb ub -> consistent lb ub g c ->
  consistent lb ub g' c /\ _struct g' = _struct g.

(** What [add_item] writes into a new item: ones for a mask, zeros for an
    area. *)
Definition fill_value (item : GridItem) : Z :=
  match item with MASK => 1%Z | _ => 0%Z end.

(** The locations the constructor was asked to add coordinates at. *)
Definition requested (staggerloc : option StaggerArg) : list nat :=
  match staggerloc with
  | None => []
  | Some _ => normalize staggerloc
  end.


(** A steady native side: every call the wrapper makes returns normally,
    and the bounds of a location are the same in every native state, with a
    difference [szf s] that is a legal shape. *)
Record steady (lbf ubf szf : nat -> list Z) : Prop := mkSteady {
  st_manager : forall st m, (esmp_manager esmp st m).1.1 = Ok tt;
  st_create0 : forall mi cs tk st m,
    exists h, (ESMP_GridCreateNoPeriDim esmp mi cs tk st m).1.1 = Ok h;
  st_create1 : forall mi pd po cs tk st m,
    exists h, (ESMP_GridCreate1PeriDim esmp mi pd po cs tk st m).1.1 = Ok h;
  st_add_coord : forall h s st m, (ESMP_GridAddCoord esmp h s st m).1.1 = Ok tt;
  st_add_item : forall h i s st m, (ESMP_GridAddItem esmp h i s st m).1.1 = Ok tt;
  st_bounds : forall h s st m,
    (ESMP_GridGetCoordBounds esmp h s st m).1.1 = Ok (lbf s, ubf s);
  st_size : forall s, np_sub (ubf s) (lbf s) = Ok (szf s) /\ nonneg_shape (szf s) = true;
  st_coord_ptr : forall h d s st m,
    exists p, (ESMP_GridGetCoordPtr esmp h d s st m).1.1 = Ok p;
  st_get_item : forall h i s st m,
    exists p, (ESMP_GridGetItem esmp h i s st m).1.1 = Ok p
}.

(** A Grid of rank [r] whose shadow lists have [n] entries, with rows of
    [r] coordinate slots, and whose cached bounds are those of the steady
    native side. *)
Record ready (lbf ubf szf : nat -> list Z) (n r : nat) (g : Grid) : Prop := mkReady {
  rd_rank : _rank g = r;
  rd_ndims : _ndims g = r;
  rd_flags : length (_staggerloc g) = n;
  rd_lower : length (_lower_bounds g) = n;
  rd_upper : length (_upper_bounds g) = n;
  rd_size : length (_size g) = n;
  rd_mask : length (_mask g) = n;
  rd_area : length (_area g) = n;
  rd_coords : length (_coords g) = n;
  rd_rows : forall i row, _coords g !! i = Some row -> length row = r;
  rd_cache : forall s clb,
    _lower_bounds g !! s = Some (Some clb) ->
    clb = lbf s /\ _upper_bounds g !! s = Some (Some (ubf s))
    /\ _size g !! s = Some (Some (szf s))
}.

(** The item slots of two objects are the same. *)
Definition same_items (g g' : Grid) : Prop :=
  _mask g' = _mask g /\ _area g' = _area g.

(** Adding an item leaves the slots of the other item alone. *)
Definition other_items (item : GridItem) (g g' : Grid) : Prop :=
  match item with
  | MASK => _area g' = _area g
  | AREA => _mask g' = _mask g
  | OtherItem _ => same_items g g'
  end.

(** The arguments on which an in-memory construction can go through: a
    [max_index] of at least two entries, zero or one periodic dimension, and
    every location it has to touch within the [2 ** rank] entries of the
    shadow lists. *)
Definition accepted (a : InitArgs) (mi : list Z) : Prop :=
  2 <= length mi
  /\ (default 0%Z (a_num_peri_dims a) = 0%Z \/ default 0%Z (a_num_peri_dims a) = 1%Z)
  /\ (forall s, s ∈ requested (a_staggerloc a) -> s < 2 ^ length mi)
  /\ (truthy (a_add_user_area a) || truthy (a_add_mask a) = true ->
      CENTER loc < 2 ^ length mi).

(** ** Whatever the outcome

    [keeps] speaks of runs that return.  A method that raises has still run
    up to that point, and the object keeps what was written: [stays R m]
    relates the object before to the object after every run of [m], normal
    or not. *)
Definition stays {A} (R : Grid -> Grid -> Prop) (m : M A) : Prop :=
  forall g w, R g (m g w).1.2.

(** The attributes fixed when the object is constructed. *)
Record same_attributes (g g' : Grid) : Prop := mkSameAttributes {
  sa_max_index : _max_index g' = _max_index g;
  sa_struct : _struct g' = _struct g;
  sa_type : _type g' = _type g;
  sa_areatype : _areatype g' = _areatype g;
  sa_rank : _rank g' = _rank g;
  sa_periodic_dim : _periodic_dim g' = _periodic_dim g;
  sa_pole_dim : _pole_dim g' = _pole_dim g;
  sa_coord_sys : _coord_sys g' = _coord_sys g;
  sa_ndims : _ndims g' = _ndims g;
  sa_num_peri_dims : _num_peri_dims g' = _num_peri_dims g;
  sa_finalized : _finalized g' = _finalized g
}.

(** The lengths of the shadow lists and of the rows of coordinate slots. *)
Record same_shape (g g' : Grid) : Prop := mkSameShape {
  ss_rank : _rank g' = _rank g;
  ss_flags : length (_staggerloc g') = length (_staggerloc g);
  ss_lower : length (_lower_bounds g') = length (_lower_bounds g);
  ss_upper : length (_upper_bounds g') = length (_upper_bounds g);
  ss_size : length (_size g') = length (_size g);
  ss_mask : length (_mask g') = length (_mask g);
  ss_area : length (_area g') = length (_area g);
  ss_coords : length <$> _coords g' = length <$> _coords g
}.

(** The layout the constructor gives the shadow lists: one entry per
    stagger location, [2 ** rank] of them, and one coordinate slot per
    dimension in every row. *)
Record shaped (g : Grid) : Prop := mkShaped {
  sh_flags : length (_staggerloc g) = 2 ^ _rank g;
  sh_lower : length (_lower_bounds g) = 2 ^ _rank g;
  sh_upper : length (_upper_bounds g) = 2 ^ _rank g;
  sh_size : length (_size g) = 2 ^ _rank g;
  sh_mask : length (_mask g) = 2 ^ _rank g;
  sh_area : length (_area g) = 2 ^ _rank g;
  sh_coords : length <$> _coords g = replicate (2 ^ _rank g) (_rank g)
}.

(** What a method leaves of the coordinate side and of the item side. *)
Record same_coordinates (g g' : Grid) : Prop := mkSameCoordinates {
  sc_coords : _coords g' = _coords g;
  sc_flags : _staggerloc g' = _staggerloc g;
  sc_has_corners : _has_corners g' = _has_corners g
}.

(** The finalization flag is what it was. *)
Definition same_finalized (g g' : Grid) : Prop := _finalized g' = _finalized g.

(** ** The native calls of a run

    [logs P m]: every run of [m], normal or not, only appends to the log of
    native calls, and every call it appends satisfies [P]. *)
Definition logs {A} (P : call -> Prop) (m : M A) : Prop :=
  forall g w, exists l, calls (m g w).2 = calls w ++ l /\ Forall P l.

(** Every cell of the buffer of [n] cells at [b] holds [v]. *)
Definition all_cells (m : gmap N scalar) (b : addr) (n : nat) (v : scalar) : Prop :=
  forall i, i < n -> m !! cell b i = Some v.

(** The kinds of native calls: queries of what the native side holds,
    requests to allocate, calls that read a grid file, and the release of
    a native grid ([creates_grid] is above). *)
Definition is_query (c : call) : bool :=
  match c with
  | CGridGetCoordBounds _ _ | CGridGetCoordPtr _ _ _ | CGridGetItem _ _ _ => true
  | _ => false
  end.

Definition is_allocation (c : call) : bool :=
  match c with
  | CGridAddCoord _ _ | CGridAddItem _ _ _ => true
  | _ => false
  end.

Definition is_file_call (c : call) : bool :=
  match c with
  | CGridCreateFromFile | CScripInq | CGridspecInq => true
  | _ => false
  end.

Definition releases (c : call) : bool :=
  match c with
  | CGridDestroy _ => true
  | _ => false
  end.

(** The body of [__init__] after the check of the arguments, which has
    selected the creation mode [md]. *)
Definition construct (a : InitArgs) (md : mode) : M unit :=
  reset_attributes a;;
  do staggerloc <-
    match md with
    | FromFile filename filetype => create_from_file a filename filetype
    | InMemory => create_in_memory a
    end;
  modify (set_type (default R8 (a_coord_typekind a)));;
  shadow_lists;;
  populate a staggerloc (from_file_of md);;
  modify (set_finalized (Some false)).

(** [has_corners] is what it was. *)
Definition same_corners (g g' : Grid) : Prop := _has_corners g' = _has_corners g.

(** * Reasoning about runs *)

(** ** Inversion of a run that returned normally *)

Lemma bind_ok {A B} (m : M A) (k : A -> M B) g w b g' w' :
  bind m k g w = (Ok b, g', w') ->
  exists a g1 w1, m g w = (Ok a, g1, w1) /\ k a g1 w1 = (Ok b, g', w').
Proof.
  unfold bind. destruct (m g w) as [[[a|e] g1] w1]; intros H.
  - exists a, g1, w1. split; [reflexivity | exact H].
  - discriminate H.
Qed.

Lemma bind_run {A B} (m : M A) (k : A -> M B) g w a g1 w1 :
  m g w = (Ok a, g1, w1) -> bind m k g w = k a g1 w1.
Proof. unfold bind. intros ->. reflexivity. Qed.

Lemma bind_raise {A B} (m : M A) (k : A -> M B) g w e g1 w1 :
  m g w = (Raise e, g1, w1) -> bind m k g w = (Raise e, g1, w1).
Proof. unfold bind. intros ->. reflexivity. Qed.

Lemma ret_ok {A} (x a : A) g w g' w' :
  ret x g w = (Ok a, g', w') -> a = x /\ g' = g /\ w' = w.
Proof. unfold ret. intros H. injection H as <- <- <-. auto. Qed.

Lemma raise_ok {A} e (a : A) g w g' w' : raise e g w = (Ok a, g', w') -> False.
Proof. unfold raise. discriminate. Qed.

Lemma lift_ok {A} (r : result A) a g w g' w' :
  lift r g w = (Ok a, g', w') -> r = Ok a /\ g' = g /\ w' = w.
Proof. unfold lift. intros H. injection H as -> <- <-. auto. Qed.

Lemma self_ok a g w g' w' : self g w = (Ok a, g', w') -> a = g /\ g' = g /\ w' = w.
Proof. unfold self. intros H. injection H as <- <- <-. auto. Qed.

Lemma modify_ok f a g w g' w' : modify f g w = (Ok a, g', w') -> g' = f g /\ w' = w.
Proof. unfold modify. intros H. injection H as _ <- <-. auto. Qed.

Lemma the_mem_ok a g w g' w' : the_mem g w = (Ok a, g', w') -> a = mem w /\ g' = g /\ w' = w.
Proof. unfold the_mem. intros H. injection H as <- <- <-. auto. Qed.

Lemma warn_ok msg a g w g' w' :
  warn msg g w = (Ok a, g', w') ->
  g' = g /\ w' = mkWorld (nstate w) (mem w) (calls w) (warns w ++ [msg]).
Proof. unfold warn. intros H. injection H as _ <- <-. auto. Qed.

Lemma write_mem_ok b n v a g w g' w' :
  write_mem b n v g w = (Ok a, g', w') ->
  g' = g /\ w' = mkWorld (nstate w) (fill_mem b n v (mem w)) (calls w) (warns w).
Proof. unfold write_mem. intros H. injection H as _ <- <-. auto. Qed.

Lemma native_ok {A} c (op : NativeOp St A) a g w g' w' :
  native c op g w = (Ok a, g', w') ->
  exists s1 m1, op (nstate w) (mem w) = (Ok a, s1, m1) /\ g' = g /\
                w' = mkWorld s1 m1 (calls w ++ [c]) (warns w).
Proof.
  unfold native. destruct (op (nstate w) (mem w)) as [[r s1] m1].
  intros H. injection H as -> <- <-. eauto.
Qed.

Lemma assert_ok b a g w g' w' :
  assert b g w = (Ok a, g', w') -> b = true /\ g' = g /\ w' = w.
Proof. destruct b; simpl; unfold ret, raise; intros H; [injection H as _ <- <-; auto | discriminate]. Qed.

Lemma try_except_ok {A} (m : M A) e a g w g' w' :
  try_except m e g w = (Ok a, g', w') -> m g w = (Ok a, g', w').
Proof. unfold try_except. destruct (m g w) as [[[x|x] g1] w1]; intros H; [exact H | discriminate]. Qed.

Lemma when_ok b (m : M unit) a g w g' w' :
  when b m g w = (Ok a, g', w') ->
  (b = true /\ m g w = (Ok a, g', w')) \/ (b = false /\ g' = g /\ w' = w).
Proof.
  destruct b; simpl; intros H; [left; auto | right].
  apply ret_ok in H. tauto.
Qed.

(** [minv H] takes a successful run apart along its binds and primitives. *)
Ltac minv H :=
  lazymatch type of H with
  | bind _ _ _ _ = (Ok _, _, _) =>
      let H1 := fresh "Hrun" in
      apply bind_ok in H; destruct H as (? & ? & ? & H1 & H); minv H1; minv H
  | ret _ _ _ = (Ok _, _, _) => apply ret_ok in H; destruct H as (? & ? & ?); subst
  | raise _ _ _ = (Ok _, _, _) => apply raise_ok in H; destruct H
  | lift _ _ _ = (Ok _, _, _) => apply lift_ok in H; destruct H as (H & ? & ?); subst
  | self _ _ = (Ok _, _, _) => apply self_ok in H; destruct H as (? & ? & ?); subst
  | modify _ _ _ = (Ok _, _, _) => apply modify_ok in H; destruct H as (? & ?); subst
  | the_mem _ _ = (Ok _, _, _) => apply the_mem_ok in H; destruct H as (? & ? & ?); subst
  | warn _ _ _ = (Ok _, _, _) => apply warn_ok in H; destruct H as (? & ?); subst
  | write_mem _ _ _ _ _ = (Ok _, _, _) => apply write_mem_ok in H; destruct H as (? & ?); subst
  | native _ _ _ _ = (Ok _, _, _) =>
      apply native_ok in H; destruct H as (? & ? & H & ? & ?); subst
  | assert _ _ _ = (Ok _, _, _) => apply assert_ok in H; destruct H as (H & ? & ?); subst
  | try_except _ _ _ _ = (Ok _, _, _) => apply try_except_ok in H; minv H
  | get_bounds _ _ _ _ = (Ok _, _, _) => unfold get_bounds in H; minv H
  | get_coord_ptr _ _ _ _ _ = (Ok _, _, _) => unfold get_coord_ptr in H; minv H
  | (match ?x with _ => _ end) _ _ = (Ok _, _, _) =>
      destruct x eqn:?; minv H
  | _ => idtac
  end.



Lemma frame_refl F P g : frame F P g g.
Proof. constructor; auto. Qed.

Lemma frame_trans F P g1 g2 g3 : frame F P g1 g2 -> frame F P g2 g3 -> frame F P g1 g3.
Proof.
  intros H1 H2. destruct H1, H2. constructor; try congruence.
  all: try (intros i Hi;
            match goal with
            | H : forall j, ~ _ j -> ?l !! j = _ |- ?l !! i = _ => rewrite (H i Hi)
            end; auto; fail).
  all: auto.
Qed.

Lemma frame_weaken (F F' P P' : nat -> Prop) g g' :
  (forall i, F i -> F' i) -> (forall i, P i -> P' i) ->
  frame F P g g' -> frame F' P' g g'.
Proof. intros HF HP []. constructor; auto. Qed.



Section Keeps.
Variable R : Grid -> Grid -> Prop.
Hypothesis R_refl : forall g, R g g.
Hypothesis R_trans : forall g1 g2 g3, R g1 g2 -> R g2 g3 -> R g1 g3.

Lemma keeps_bind {A B} (m : M A) (k : A -> M B) :
  keeps R m -> (forall a, keeps R (k a)) -> keeps R (bind m k).
Proof using R_trans.
  intros Hm Hk g w b g' w' H. apply bind_ok in H as (a & g1 & w1 & H1 & H2).
  eapply R_trans; [eapply Hm | eapply Hk]; eassumption.
Qed.

Lemma keeps_ret {A} (x : A) : keeps R (ret x).
Proof using R_refl. intros g w a g' w' H. minv H. apply R_refl. Qed.

Lemma keeps_raise {A} e : keeps R (@raise A e).
Proof. intros g w a g' w' H. minv H. Qed.

Lemma keeps_lift {A} (r : result A) : keeps R (lift r).
Proof using R_refl. intros g w a g' w' H. minv H. apply R_refl. Qed.

Lemma keeps_self : keeps R self.
Proof using R_refl. intros g w a g' w' H. minv H. apply R_refl. Qed.

Lemma keeps_the_mem : keeps R the_mem.
Proof using R_refl. intros g w a g' w' H. minv H. apply R_refl. Qed.

Lemma keeps_warn msg : keeps R (warn msg).
Proof using R_refl. intros g w a g' w' H. minv H. apply R_refl. Qed.

Lemma keeps_write_mem b n v : keeps R (write_mem b n v).
Proof using R_refl. intros g w a g' w' H. minv H. apply R_refl. Qed.

Lemma keeps_native {A} c (op : NativeOp St A) : keeps R (native c op).
Proof using R_refl. intros g w a g' w' H. minv H. apply R_refl. Qed.

Lemma keeps_assert b : keeps R (assert b).
Proof using R_refl. intros g w a g' w' H. minv H. apply R_refl. Qed.

Lemma keeps_try_except {A} (m : M A) e : keeps R m -> keeps R (try_except m e).
Proof. intros Hm g w a g' w' H. apply try_except_ok in H. eapply Hm, H. Qed.

Lemma keeps_when b m : keeps R m -> keeps R (when b m).
Proof using R_refl.
  intros Hm g w a g' w' H. apply when_ok in H as [[_ H] | (_ & -> & _)].
  - eapply Hm, H.
  - apply R_refl.
Qed.

Lemma keeps_for_each {A} (l : list A) (body : A -> M unit) :
  (forall x, x ∈ l -> keeps R (body x)) -> keeps R (for_each l body).
Proof using R_refl R_trans.
  induction l as [|x l IH]; intros Hb; simpl.
  - apply keeps_ret.
  - apply keeps_bind.
    + apply Hb. left.
    + intros _. apply IH. intros y Hy. apply Hb. right. exact Hy.
Qed.

Lemma keeps_modify f : (forall g, R g (f g)) -> keeps R (modify f).
Proof. intros Hf g w a g' w' H. minv H. apply Hf. Qed.

End Keeps.

(** ** List primitives *)

Lemma py_get_ok {A} (l : list A) i x : py_get l i = Ok x <-> l !! i = Some x.
Proof.
  unfold py_get. destruct (l !! i) as [y|]; split; intros H;
    try discriminate; congruence.
Qed.

Lemma py_set_ok {A} (l l' : list A) i x :
  py_set l i x = Ok l' <-> i < length l /\ l' = <[i := x]> l.
Proof.
  unfold py_set. destruct (decide (i < length l)) as [Hi|Hi]; split.
  - intros H. injection H as <-. auto.
  - intros [_ ->]. reflexivity.
  - discriminate.
  - intros [Hi' _]. contradiction.
Qed.

Lemma mjoin_insert_is_Some {A} (l : list (option A)) s i x :
  is_Some (mjoin (l !! i)) -> is_Some (mjoin (<[s := Some x]> l !! i)).
Proof.
  intros H. destruct (decide (s = i)) as [->|Hne].
  - destruct (l !! i) as [o|] eqn:E; [|destruct H as [? H]; discriminate H].
    rewrite list_lookup_insert_eq by (eapply lookup_lt_Some; eauto). simpl. eauto.
  - rewrite list_lookup_insert_ne by exact Hne. exact H.
Qed.

(** Turns the list accesses of a successful run into lookups. *)
Ltac pyinv :=
  repeat match goal with
    | H : py_get _ _ = Ok _ |- _ => apply py_get_ok in H
    | H : py_set _ _ _ = Ok _ |- _ => apply py_set_ok in H; destruct H as [? ->]
    end.

(** ** Frames of the slot primitives *)

Lemma fk_set_coord (F P : nat -> Prop) s d x :
  P s -> keeps (frame F P) (set_coord s d x).
Proof.
  intros HP g w a g' w' H. unfold set_coord in H. minv H. pyinv.
  match goal with H0 : _coords _ !! s = Some _ |- _ => rename H0 into Hrow end.
  constructor; simpl; auto.
  - intros i Hi. apply list_lookup_insert_ne. intros ->. contradiction.
  - intros i d' Hs. unfold coord_at in *. simpl.
    destruct (decide (s = i)) as [->|Hne].
    + rewrite list_lookup_insert_eq by (eapply lookup_lt_Some; eauto).
      rewrite Hrow in Hs. apply mjoin_insert_is_Some. exact Hs.
    + rewrite list_lookup_insert_ne by exact Hne. exact Hs.
Qed.

Lemma fk_set_item_slot (F P : nat -> Prop) item s x :
  P s -> keeps (frame F P) (set_item_slot item s x).
Proof.
  intros HP g w a g' w' H. unfold set_item_slot in H. minv H; pyinv.
  - constructor; simpl; auto.
    + intros i Hi. apply list_lookup_insert_ne. intros ->. contradiction.
    + intros i. unfold mask_at. simpl. apply mjoin_insert_is_Some.
  - constructor; simpl; auto.
    + intros i Hi. apply list_lookup_insert_ne. intros ->. contradiction.
    + intros i. unfold area_at. simpl. apply mjoin_insert_is_Some.
Qed.

Lemma fk_set_lower (F P : nat -> Prop) s v : P s -> keeps (frame F P) (set_lower s v).
Proof.
  intros HP g w a g' w' H. unfold set_lower in H. minv H. pyinv.
  constructor; simpl; auto.
  - intros i Hi. apply list_lookup_insert_ne. intros ->. contradiction.
  - intros i. unfold lower_at. simpl. apply mjoin_insert_is_Some.
Qed.

Lemma fk_set_upper (F P : nat -> Prop) s v : P s -> keeps (frame F P) (set_upper s v).
Proof.
  intros HP g w a g' w' H. unfold set_upper in H. minv H. pyinv.
  constructor; simpl; auto.
  - intros i Hi. apply list_lookup_insert_ne. intros ->. contradiction.
  - intros i. unfold upper_at. simpl. apply mjoin_insert_is_Some.
Qed.

Lemma fk_set_size_at (F P : nat -> Prop) s v : P s -> keeps (frame F P) (set_size_at s v).
Proof.
  intros HP g w a g' w' H. unfold set_size_at in H. minv H. pyinv.
  constructor; simpl; auto.
  - intros i Hi. apply list_lookup_insert_ne. intros ->. contradiction.
  - intros i. unfold size_at. simpl. apply mjoin_insert_is_Some.
Qed.

Lemma fk_set_flag (F P : nat -> Prop) s : F s -> keeps (frame F P) (set_flag s true).
Proof.
  intros HF g w a g' w' H. unfold set_flag in H. minv H. pyinv.
  constructor; simpl; auto.
  - apply length_insert.
  - intros i Hi. apply list_lookup_insert_ne. intros ->. contradiction.
  - intros i Hi. destruct (decide (s = i)) as [->|Hne].
    + apply list_lookup_insert_eq. assumption.
    + rewrite list_lookup_insert_ne by exact Hne. exact Hi.
Qed.

Lemma fk_has_corners (F P : nat -> Prop) b : keeps (frame F P) (modify (set_has_corners b)).
Proof. apply keeps_modify. intros g. constructor; simpl; auto. Qed.

(** The rules of [keeps] at a frame. *)
Lemma fk_bind (F P : nat -> Prop) {A B} (m : M A) (k : A -> M B) :
  keeps (frame F P) m -> (forall a, keeps (frame F P) (k a)) -> keeps (frame F P) (bind m k).
Proof. apply keeps_bind, frame_trans. Qed.

Lemma fk_when (F P : nat -> Prop) b m : keeps (frame F P) m -> keeps (frame F P) (when b m).
Proof. apply keeps_when, frame_refl. Qed.

Lemma fk_try_except (F P : nat -> Prop) {A} (m : M A) e :
  keeps (frame F P) m -> keeps (frame F P) (try_except m e).
Proof. apply keeps_try_except. Qed.

Lemma fk_for_each (F P : nat -> Prop) {A} (l : list A) (body : A -> M unit) :
  (forall x, x ∈ l -> keeps (frame F P) (body x)) -> keeps (frame F P) (for_each l body).
Proof. apply keeps_for_each; [apply frame_refl | apply frame_trans]. Qed.

Lemma fk_ret (F P : nat -> Prop) {A} (x : A) : keeps (frame F P) (ret x).
Proof. apply keeps_ret, frame_refl. Qed.

Lemma fk_raise (F P : nat -> Prop) {A} e : keeps (frame F P) (@raise A e).
Proof. apply keeps_raise. Qed.

Lemma fk_lift (F P : nat -> Prop) {A} (r : result A) : keeps (frame F P) (lift r).
Proof. apply keeps_lift, frame_refl. Qed.

Lemma fk_self (F P : nat -> Prop) : keeps (frame F P) self.
Proof. apply keeps_self, frame_refl. Qed.

Lemma fk_the_mem (F P : nat -> Prop) : keeps (frame F P) the_mem.
Proof. apply keeps_the_mem, frame_refl. Qed.

Lemma fk_warn (F P : nat -> Prop) msg : keeps (frame F P) (warn msg).
Proof. apply keeps_warn, frame_refl. Qed.

Lemma fk_write_mem (F P : nat -> Prop) b n v : keeps (frame F P) (write_mem b n v).
Proof. apply keeps_write_mem, frame_refl. Qed.

Lemma fk_native (F P : nat -> Prop) {A} c (op : NativeOp St A) : keeps (frame F P) (native c op).
Proof. apply keeps_native, frame_refl. Qed.

Lemma fk_assert (F P : nat -> Prop) b : keeps (frame F P) (assert b).
Proof. apply keeps_assert, frame_refl. Qed.

Create HintDb fk.
#[local] Hint Resolve fk_ret fk_raise fk_lift fk_self fk_the_mem fk_warn fk_write_mem
  fk_native fk_assert fk_has_corners fk_set_coord fk_set_item_slot fk_set_lower
  fk_set_upper fk_set_size_at fk_set_flag : fk.

(** [fk] walks the body of a method, rule by rule. *)
Ltac fk :=
  repeat first
    [ solve [ eauto with fk ]
    | apply fk_bind; [ | intros ? ]
    | apply fk_when
    | apply fk_try_except
    | match goal with
      | |- keeps _ (match ?x with _ => _ end) => destruct x
      end ].

(** ** Frames of the methods *)

Lemma fk_get_coord (F P : nat -> Prop) s d : keeps (frame F P) (get_coord s d).
Proof. unfold get_coord. fk. Qed.

Lemma fk_get_item_slot (F P : nat -> Prop) item s : keeps (frame F P) (get_item_slot item s).
Proof. unfold get_item_slot. fk. Qed.

Lemma fk_get_lower (F P : nat -> Prop) s : keeps (frame F P) (get_lower s).
Proof. unfold get_lower. fk. Qed.

Lemma fk_get_upper (F P : nat -> Prop) s : keeps (frame F P) (get_upper s).
Proof. unfold get_upper. fk. Qed.

Lemma fk_get_size (F P : nat -> Prop) s : keeps (frame F P) (get_size s).
Proof. unfold get_size. fk. Qed.

#[local] Hint Resolve fk_get_coord fk_get_item_slot fk_get_lower fk_get_upper fk_get_size : fk.

Lemma fk_fill_array (F P : nat -> Prop) store a n :
  (forall x, keeps (frame F P) (store x)) -> keeps (frame F P) (fill_array store a n).
Proof. intros Hs. unfold fill_array. fk. Qed.

Lemma fk_fill_coord (F P : nat -> Prop) s d n : P s -> keeps (frame F P) (fill_coord s d n).
Proof. intros HP. unfold fill_coord. fk. apply fk_fill_array. intros x. fk. Qed.

Lemma fk_fill_item (F P : nat -> Prop) item s n : P s -> keeps (frame F P) (fill_item item s n).
Proof. intros HP. unfold fill_item. fk. apply fk_fill_array. intros x. fk. Qed.

Lemma fk_verify (F P : nat -> Prop) s : P s -> keeps (frame F P) (_verify_grid_bounds_ s).
Proof. intros HP. unfold _verify_grid_bounds_, get_bounds. fk. Qed.

#[local] Hint Resolve fk_fill_coord fk_fill_item fk_verify : fk.

Lemma fk_link_coord_buffer (F P : nat -> Prop) d s :
  P s -> keeps (frame F P) (_link_coord_buffer_ d s).
Proof. intros HP. unfold _link_coord_buffer_, get_coord_ptr, get_bounds. fk. Qed.

Lemma fk_axis_view (F P : nat -> Prop) g lb ub k s : keeps (frame F P) (axis_view g lb ub k s).
Proof. unfold axis_view, get_coord_ptr. fk. Qed.

#[local] Hint Resolve fk_link_coord_buffer fk_axis_view : fk.

Lemma fk_link_coord_buffer_1D (F P : nat -> Prop) s :
  P s -> keeps (frame F P) (_link_coord_buffer_1Dcoords s).
Proof.
  intros HP. unfold _link_coord_buffer_1Dcoords, get_bounds. fk.
Qed.

#[local] Hint Resolve fk_link_coord_buffer_1D : fk.

Lemma fk_zero_coord (F P : nat -> Prop) s d : P s -> keeps (frame F P) (zero_coord s d).
Proof. intros HP. unfold zero_coord. fk. Qed.

Lemma fk_link_coords (F P : nat -> Prop) s : P s -> keeps (frame F P) (link_coords s).
Proof.
  intros HP. unfold link_coords. fk.
  apply fk_for_each. intros x _. fk.
Qed.

#[local] Hint Resolve fk_zero_coord fk_link_coords : fk.

Lemma fk_allocate_coords (F P : nat -> Prop) s ff :
  P s -> keeps (frame F P) (_allocate_coords_ s ff).
Proof. intros HP. unfold _allocate_coords_. fk. Qed.

Lemma fk_link_item_buffer (F P : nat -> Prop) item s :
  P s -> keeps (frame F P) (_link_item_buffer_ item s).
Proof. intros HP. unfold _link_item_buffer_, get_bounds. fk. Qed.

#[local] Hint Resolve fk_allocate_coords fk_link_item_buffer : fk.

Lemma fk_allocate_items (F P : nat -> Prop) item s ff :
  P s -> keeps (frame F P) (_allocate_items_ item s ff).
Proof. intros HP. unfold _allocate_items_. fk. Qed.

#[local] Hint Resolve fk_allocate_items : fk.

Lemma fk_add_coords_at (F P : nat -> Prop) ff s :
  F s -> P s -> keeps (frame F P) (add_coords_at ff s).
Proof. intros HF HP. unfold add_coords_at. fk. Qed.

Lemma fk_item_check (F P : nat -> Prop) item s : keeps (frame F P) (item_check item s).
Proof. unfold item_check. fk. Qed.

#[local] Hint Resolve fk_add_coords_at fk_item_check : fk.

Lemma fk_add_item_loop (F P : nat -> Prop) item ff l done :
  (forall s, s ∈ l -> P s) -> keeps (frame F P) (add_item_loop item ff l done).
Proof.
  revert done. induction l as [|s l IH]; intros done HP; simpl.
  - fk.
  - assert (P s) by (apply HP; left).
    fk. apply IH. intros s' Hs'. apply HP. right. exact Hs'.
Qed.

(** [add_coords] may set the flags of the requested locations and fill
    their slots; nothing else of the object changes. *)
Lemma fk_add_coords sl cd ff :
  keeps (frame (fun s => s ∈ normalize sl) (fun s => s ∈ normalize sl)) (add_coords sl cd ff).
Proof.
  unfold add_coords. fk.
  apply fk_for_each. intros s Hs. apply fk_add_coords_at; exact Hs.
Qed.

(** [add_item] changes no flag. *)
Lemma fk_add_item item sl ff :
  keeps (frame (fun _ => False) (fun s => s ∈ normalize sl)) (add_item item sl ff).
Proof.
  unfold add_item. fk.
  apply fk_add_item_loop. auto.
Qed.

(** ** Steps that leave the cached bounds alone

    Only [_verify_grid_bounds_] writes the lists of lower bounds, upper
    bounds and sizes; every other step of an allocation keeps them and the
    native handle as they are. *)



Lemma same_bounds_refl g : same_bounds g g.
Proof. unfold same_bounds. auto. Qed.

Lemma same_bounds_trans g1 g2 g3 :
  same_bounds g1 g2 -> same_bounds g2 g3 -> same_bounds g1 g3.
Proof. unfold same_bounds. intros (? & ? & ? & ?) (? & ? & ? & ?). repeat split; congruence. Qed.

Lemma sb_bind {A B} (m : M A) (k : A -> M B) :
  keeps same_bounds m -> (forall a, keeps same_bounds (k a)) -> keeps same_bounds (bind m k).
Proof. apply keeps_bind, same_bounds_trans. Qed.

Lemma sb_when b m : keeps same_bounds m -> keeps same_bounds (when b m).
Proof. apply keeps_when, same_bounds_refl. Qed.

Lemma sb_for_each {A} (l : list A) (body : A -> M unit) :
  (forall x, x ∈ l -> keeps same_bounds (body x)) -> keeps same_bounds (for_each l body).
Proof. apply keeps_for_each; [apply same_bounds_refl | apply same_bounds_trans]. Qed.

Lemma sb_ret {A} (x : A) : keeps same_bounds (ret x).
Proof. apply keeps_ret, same_bounds_refl. Qed.

Lemma sb_raise {A} e : keeps same_bounds (@raise A e).
Proof. apply keeps_raise. Qed.

Lemma sb_lift {A} (r : result A) : keeps same_bounds (lift r).
Proof. apply keeps_lift, same_bounds_refl. Qed.

Lemma sb_self : keeps same_bounds self.
Proof. apply keeps_self, same_bounds_refl. Qed.

Lemma sb_the_mem : keeps same_bounds the_mem.
Proof. apply keeps_the_mem, same_bounds_refl. Qed.

Lemma sb_warn msg : keeps same_bounds (warn msg).
Proof. apply keeps_warn, same_bounds_refl. Qed.

Lemma sb_write_mem b n v : keeps same_bounds (write_mem b n v).
Proof. apply keeps_write_mem, same_bounds_refl. Qed.

Lemma sb_native {A} c (op : NativeOp St A) : keeps same_bounds (native c op).
Proof. apply keeps_native, same_bounds_refl. Qed.

Lemma sb_has_corners b : keeps same_bounds (modify (set_has_corners b)).
Proof. apply keeps_modify. intros g. unfold same_bounds. simpl. auto. Qed.

Lemma sb_set_coords v : keeps same_bounds (modify (set_coords v)).
Proof. apply keeps_modify. intros g. unfold same_bounds. simpl. auto. Qed.

Lemma sb_set_mask v : keeps same_bounds (modify (set_mask v)).
Proof. apply keeps_modify. intros g. unfold same_bounds. simpl. auto. Qed.

Lemma sb_set_area v : keeps same_bounds (modify (set_area v)).
Proof. apply keeps_modify. intros g. unfold same_bounds. simpl. auto. Qed.

Lemma sb_set_staggerloc v : keeps same_bounds (modify (set_staggerloc v)).
Proof. apply keeps_modify. intros g. unfold same_bounds. simpl. auto. Qed.

Create HintDb sb.
#[local] Hint Resolve sb_ret sb_raise sb_lift sb_self sb_the_mem sb_warn sb_write_mem
  sb_native sb_has_corners sb_set_coords sb_set_mask sb_set_area sb_set_staggerloc : sb.

Ltac sb :=
  repeat first
    [ solve [ eauto with sb ]
    | apply sb_bind; [ | intros ? ]
    | apply sb_when
    | match goal with
      | |- keeps _ (match ?x with _ => _ end) => destruct x
      end ].

Lemma sb_set_coord s d x : keeps same_bounds (set_coord s d x).
Proof. unfold set_coord. sb. Qed.

Lemma sb_set_item_slot item s x : keeps same_bounds (set_item_slot item s x).
Proof. unfold set_item_slot. sb. Qed.

Lemma sb_set_flag s v : keeps same_bounds (set_flag s v).
Proof. unfold set_flag. sb. Qed.

Lemma sb_get_coord s d : keeps same_bounds (get_coord s d).
Proof. unfold get_coord. sb. Qed.

Lemma sb_get_item_slot item s : keeps same_bounds (get_item_slot item s).
Proof. unfold get_item_slot. sb. Qed.

Lemma sb_get_size s : keeps same_bounds (get_size s).
Proof. unfold get_size. sb. Qed.

#[local] Hint Resolve sb_set_coord sb_set_item_slot sb_set_flag sb_get_coord
  sb_get_item_slot sb_get_size : sb.

Lemma sb_fill_array store a n :
  (forall x, keeps same_bounds (store x)) -> keeps same_bounds (fill_array store a n).
Proof. intros Hs. unfold fill_array. sb. Qed.

Lemma sb_fill_coord s d n : keeps same_bounds (fill_coord s d n).
Proof. unfold fill_coord. sb. apply sb_fill_array. intros x. sb. Qed.

Lemma sb_fill_item item s n : keeps same_bounds (fill_item item s n).
Proof. unfold fill_item. sb. apply sb_fill_array. intros x. sb. Qed.

Lemma sb_zero_coord s d : keeps same_bounds (zero_coord s d).
Proof. unfold zero_coord. sb. Qed.

Lemma sb_link_coord_buffer d s : keeps same_bounds (_link_coord_buffer_ d s).
Proof. unfold _link_coord_buffer_, get_coord_ptr, get_bounds. sb. Qed.

Lemma sb_axis_view g lb ub k s : keeps same_bounds (axis_view g lb ub k s).
Proof. unfold axis_view, get_coord_ptr. sb. Qed.

#[local] Hint Resolve sb_fill_coord sb_fill_item sb_zero_coord sb_link_coord_buffer
  sb_axis_view : sb.

Lemma sb_link_coord_buffer_1D s : keeps same_bounds (_link_coord_buffer_1Dcoords s).
Proof. unfold _link_coord_buffer_1Dcoords, get_bounds. sb. Qed.

#[local] Hint Resolve sb_link_coord_buffer_1D : sb.

Lemma sb_link_coords s : keeps same_bounds (link_coords s).
Proof. unfold link_coords. sb. apply sb_for_each. intros x _. sb. Qed.

Lemma sb_link_item_buffer item s : keeps same_bounds (_link_item_buffer_ item s).
Proof. unfold _link_item_buffer_, get_bounds. sb. Qed.

#[local] Hint Resolve sb_link_coords sb_link_item_buffer : sb.

(** ** What successful runs establish *)



Lemma any_holds s : any s.
Proof. exact I. Qed.

#[local] Hint Resolve any_holds : fk.

(** The frame of a successful run recorded in hypothesis [H]. *)
Ltac frame_as H K :=
  lazymatch type of H with
  | ?m ?g ?w = (Ok ?a, ?g', ?w') =>
      assert (K : keeps (frame any any) m) by fk;
      specialize (K g w a g' w' H)
  end.

Tactic Notation "frame_of" hyp(H) "as" ident(K) := frame_as H K.
Tactic Notation "frame_of" hyp(H) := let K := fresh "Hfr" in frame_as H K.

Lemma get_coord_ok s d c g w g' w' :
  get_coord s d g w = (Ok c, g', w') -> g' = g /\ w' = w /\ coord_at g s d = c.
Proof.
  intros H. unfold get_coord in H. minv H. pyinv.
  repeat split. unfold coord_at.
  repeat match goal with E : _ !! _ = Some _ |- _ => rewrite E; clear E end.
  reflexivity.
Qed.

Lemma get_coord_run s d g w :
  get_coord s d g w = (rbind (py_get (_coords g) s) (fun row => py_get row d), g, w).
Proof.
  unfold get_coord, bind, self, lift, rbind.
  destruct (py_get (_coords g) s); reflexivity.
Qed.

Lemma set_coord_post s d x a g w g' w' :
  set_coord s d x g w = (Ok a, g', w') -> coord_at g' s d = Some x /\ w' = w.
Proof.
  intros H. unfold set_coord in H. minv H. pyinv. split; [|reflexivity].
  unfold coord_at. simpl.
  match goal with E : _coords _ !! s = Some _ |- _ =>
    rewrite list_lookup_insert_eq by (eapply lookup_lt_Some; exact E) end.
  rewrite list_lookup_insert_eq by assumption. reflexivity.
Qed.

Lemma zero_coord_post s d a g w g' w' :
  zero_coord s d g w = (Ok a, g', w') -> is_Some (coord_at g' s d).
Proof.
  intros H. unfold zero_coord in H. minv H.
  match goal with E : set_coord _ _ _ _ _ = _ |- _ => apply set_coord_post in E as [E _] end.
  eauto.
Qed.

Lemma verify_post s a g w g' w' :
  _verify_grid_bounds_ s g w = (Ok a, g', w') ->
  is_Some (lower_at g' s) /\ is_Some (upper_at g' s) /\ is_Some (size_at g' s).
Proof.
  intros H. unfold _verify_grid_bounds_ in H.
  apply bind_ok in H as (cached & g1 & w1 & Hget & H).
  unfold get_lower in Hget. minv Hget. pyinv.
  apply bind_ok in H as (g0 & g2 & w2 & Hs & H). minv Hs.
  destruct cached as [clb|].
  - minv H.
    unfold get_upper, get_size in *.
    repeat match goal with E : bind _ _ _ _ = (Ok _, _, _) |- _ => minv E end.
    pyinv. unfold lower_at, upper_at, size_at.
    repeat match goal with E : _ !! _ = Some _ |- _ => rewrite E; clear E end.
    simpl. eauto.
  - minv H.
    match goal with E : set_size_at _ _ _ _ = _ |- _ => rename E into Hsz end.
    match goal with E : set_upper _ _ _ _ = _ |- _ => rename E into Hub end.
    match goal with E : set_lower _ _ _ _ = _ |- _ => rename E into Hlb end.
    frame_of Hsz. frame_of Hub.
    unfold set_lower in Hlb. minv Hlb. unfold set_upper in Hub. minv Hub.
    unfold set_size_at in Hsz. minv Hsz. pyinv.
    unfold lower_at, upper_at, size_at. simpl in *.
    rewrite !list_lookup_insert_eq by assumption. simpl. eauto.
Qed.

Lemma link_coord_buffer_post d s a g w g' w' :
  _link_coord_buffer_ d s g w = (Ok a, g', w') -> is_Some (coord_at g' s d).
Proof.
  intros H. unfold _link_coord_buffer_ in H. minv H.
  match goal with E : set_coord _ _ _ _ _ = _ |- _ => apply set_coord_post in E as [E _] end.
  match goal with E : when _ _ _ _ = _ |- _ => frame_of E end.
  eapply fr_coords_mono; [eassumption|]. eauto.
Qed.

Lemma link_all_post s (l : list nat) a g w g' w' :
  for_each l (fun xyz => _link_coord_buffer_ xyz s) g w = (Ok a, g', w') ->
  forall d, d ∈ l -> is_Some (coord_at g' s d).
Proof.
  revert a g w g' w'. induction l as [|x l IH]; intros a g w g' w' H d Hd.
  - inversion Hd.
  - simpl in H. apply bind_ok in H as (u & g1 & w1 & H1 & H2).
    apply elem_of_cons in Hd as [->|Hd].
    + apply link_coord_buffer_post in H1.
      assert (Hfr : keeps (frame any any) (for_each l (fun xyz => _link_coord_buffer_ xyz s))).
      { apply fk_for_each. intros y _. fk. }
      eapply fr_coords_mono; [eapply Hfr; exact H2 | exact H1].
    + eapply IH; eassumption.
Qed.

(** In the case the file calls normal (the coordinate arrays have the rank of
    the grid), linking fills the slot of every dimension. *)
Lemma link_coords_post s a g w g' w' :
  _ndims g = _rank g \/ _ndims g = 0 ->
  link_coords s g w = (Ok a, g', w') ->
  forall d, d < _rank g -> is_Some (coord_at g' s d).
Proof.
  intros Hn H d Hd. unfold link_coords in H.
  apply bind_ok in H as (g0 & g1 & w1 & Hs & H). minv Hs.
  destruct (decide (_ndims g = _rank g \/ _ndims g = 0)) as [_|Hno]; [|contradiction].
  eapply link_all_post; [exact H|]. apply elem_of_seq. lia.
Qed.



Lemma populated_frame F P g g' s : frame F P g g' -> populated g s -> populated g' s.
Proof.
  intros Hfr (Hc & Hl & Hu & Hz & Hf). unfold populated.
  rewrite (fr_rank _ _ _ _ Hfr).
  repeat split.
  - intros d Hd. eapply fr_coords_mono; eauto.
  - eapply fr_lower_mono; eauto.
  - eapply fr_upper_mono; eauto.
  - eapply fr_size_mono; eauto.
  - eapply fr_flags_mono; eauto.
Qed.

Lemma allocate_coords_post s ff a g w g' w' :
  _allocate_coords_ s ff g w = (Ok a, g', w') ->
  is_Some (coord_at g' s 0)
  /\ is_Some (lower_at g' s) /\ is_Some (upper_at g' s) /\ is_Some (size_at g' s)
  /\ (_ndims g = _rank g \/ _ndims g = 0 ->
      forall d, d < _rank g -> is_Some (coord_at g' s d)).
Proof.
  intros H. unfold _allocate_coords_ in H.
  apply bind_ok in H as (u1 & g1 & w1 & Hv & H).
  apply bind_ok in H as (u2 & g2 & w2 & Hz0 & H).
  apply bind_ok in H as (u3 & g3 & w3 & Hz1 & H).
  apply bind_ok in H as (g0 & g4 & w4 & Hs & H). minv Hs.
  apply bind_ok in H as (u5 & g5 & w5 & Hz2 & H).
  apply bind_ok in H as (u6 & g6 & w6 & Hl & Hfill).
  frame_of Hv as Fv. frame_of Hz0 as Fz0. frame_of Hz1 as Fz1. frame_of Hz2 as Fz2.
  frame_of Hl as Fl. frame_of Hfill as Ffill.
  assert (frame any any g2 g') as Hrest2.
  { eapply frame_trans; [exact Fz1|]. eapply frame_trans; [exact Fz2|].
    eapply frame_trans; [exact Fl|]. exact Ffill. }
  assert (frame any any g1 g') as Hrest.
  { eapply frame_trans; [exact Fz0|]. exact Hrest2. }
  assert (frame any any g g5) as Hpre.
  { eapply frame_trans; [exact Fv|]. eapply frame_trans; [exact Fz0|].
    eapply frame_trans; [exact Fz1|]. exact Fz2. }
  apply verify_post in Hv as (Hlo & Hup & Hsz).
  apply zero_coord_post in Hz0.
  repeat split.
  - eapply fr_coords_mono; [exact Hrest2 | exact Hz0].
  - eapply fr_lower_mono; [exact Hrest | exact Hlo].
  - eapply fr_upper_mono; [exact Hrest | exact Hup].
  - eapply fr_size_mono; [exact Hrest | exact Hsz].
  - intros Hn d Hd. eapply fr_coords_mono; [exact Ffill|].
    eapply link_coords_post; [| exact Hl |].
    + rewrite (fr_ndims _ _ _ _ Hpre), (fr_rank _ _ _ _ Hpre). exact Hn.
    + rewrite (fr_rank _ _ _ _ Hpre). exact Hd.
Qed.

Lemma set_flag_post s v a g w g' w' :
  set_flag s v g w = (Ok a, g', w') -> _staggerloc g' !! s = Some v.
Proof.
  intros H. unfold set_flag in H. minv H. pyinv. simpl.
  apply list_lookup_insert_eq. assumption.
Qed.

(** One iteration of [add_coords]: on a location whose first slot is set it
    warns and changes nothing; otherwise it leaves the location populated. *)
Lemma add_coords_at_post ff s a g w g' w' :
  add_coords_at ff s g w = (Ok a, g', w') ->
  frame (fun i => i = s) (fun i => i = s) g g'
  /\ is_Some (coord_at g' s 0)
  /\ ((is_Some (coord_at g s 0) /\ g' = g
       /\ w' = mkWorld (nstate w) (mem w) (calls w) (warns w ++ [already_added]))
      \/ (coord_at g s 0 = None
          /\ is_Some (lower_at g' s) /\ is_Some (upper_at g' s) /\ is_Some (size_at g' s)
          /\ _staggerloc g' !! s = Some true
          /\ (_ndims g = _rank g \/ _ndims g = 0 ->
              forall d, d < _rank g -> is_Some (coord_at g' s d)))).
Proof.
  intros H. split.
  { assert (K : keeps (frame (fun i => i = s) (fun i => i = s)) (add_coords_at ff s))
      by (apply fk_add_coords_at; reflexivity).
    eapply K, H. }
  unfold add_coords_at in H.
  apply bind_ok in H as (c & g1 & w1 & Hc & H).
  apply get_coord_ok in Hc as (-> & -> & Hc).
  destruct c as [x|].
  - minv H. split; [rewrite Hc; eauto|]. left. rewrite Hc. eauto.
  - apply bind_ok in H as (u1 & g1 & w1 & Hadd & H).
    apply bind_ok in H as (u2 & g2 & w2 & Hall & Hflag).
    frame_of Hadd as Fadd. frame_of Hflag as Fflag.
    pose proof (allocate_coords_post _ _ _ _ _ _ _ Hall) as (H0 & Hlo & Hup & Hsz & Hd).
    apply set_flag_post in Hflag.
    split; [eapply fr_coords_mono; [exact Fflag | exact H0]|]. right.
    repeat split; auto.
    + eapply fr_lower_mono; [exact Fflag | exact Hlo].
    + eapply fr_upper_mono; [exact Fflag | exact Hup].
    + eapply fr_size_mono; [exact Fflag | exact Hsz].
    + intros Hn d Hdr. eapply fr_coords_mono; [exact Fflag|]. apply Hd.
      * rewrite (fr_ndims _ _ _ _ Fadd), (fr_rank _ _ _ _ Fadd). exact Hn.
      * rewrite (fr_rank _ _ _ _ Fadd). exact Hdr.
Qed.

Lemma coord_at_same_row g g' i d :
  _coords g' !! i = _coords g !! i -> coord_at g' i d = coord_at g i d.
Proof. unfold coord_at. intros ->. reflexivity. Qed.

Lemma fk_add_coords_loop (F P : nat -> Prop) ff (l : list nat) :
  (forall s, s ∈ l -> F s /\ P s) -> keeps (frame F P) (for_each l (add_coords_at ff)).
Proof.
  intros H. apply fk_for_each. intros s Hs. destruct (H s Hs). apply fk_add_coords_at; assumption.
Qed.

(** The loop of [add_coords]: a requested location that was empty, or was
    populated already, is populated when the loop returns. *)
Lemma add_coords_loop_post ff (l : list nat) s a g w g' w' :
  for_each l (add_coords_at ff) g w = (Ok a, g', w') ->
  s ∈ l ->
  _ndims g = _rank g \/ _ndims g = 0 ->
  coord_at g s 0 = None \/ populated g s ->
  populated g' s.
Proof.
  revert a g w g' w'. induction l as [|x l IH]; intros a g w g' w' H Hs Hn HQ.
  - inversion Hs.
  - simpl in H. apply bind_ok in H as (u & g1 & w1 & H1 & H2).
    pose proof (add_coords_at_post _ _ _ _ _ _ _ H1) as (Hfr & Hset & Hcase).
    assert (Hrest : frame any any g1 g').
    { eapply (fk_add_coords_loop any any); [|exact H2]. intros; split; exact I. }
    destruct (decide (s = x)) as [->|Hne].
    + eapply populated_frame; [exact Hrest|].
      destruct Hcase as [(Hsome & -> & _) | (Hnone & Hlo & Hup & Hsz & Hflag & Hall)].
      * destruct HQ as [HQ|HQ]; [|exact HQ]. rewrite HQ in Hsome.
        destruct Hsome as [? ?]; discriminate.
      * unfold populated. rewrite (fr_rank _ _ _ _ Hfr). auto.
    + apply elem_of_cons in Hs as [Hs|Hs]; [contradiction|].
      eapply IH; [exact H2 | exact Hs | |].
      * rewrite (fr_ndims _ _ _ _ Hfr), (fr_rank _ _ _ _ Hfr). exact Hn.
      * destruct HQ as [HQ|HQ].
        -- left. rewrite <- HQ. apply coord_at_same_row.
           apply (fr_coords _ _ _ _ Hfr). exact Hne.
        -- right. eapply populated_frame; eassumption.
Qed.

(** The same loop, seen from the flags: where the first slot is set the flag
    is set, and after the loop this holds at every requested location. *)
Lemma add_coords_loop_flags ff (l : list nat) a g w g' w' :
  for_each l (add_coords_at ff) g w = (Ok a, g', w') ->
  (forall i, is_Some (coord_at g i 0) -> _staggerloc g !! i = Some true) ->
  (forall i, is_Some (coord_at g' i 0) -> _staggerloc g' !! i = Some true)
  /\ (forall s, s ∈ l -> _staggerloc g' !! s = Some true).
Proof.
  revert a g w g' w'. induction l as [|x l IH]; intros a g w g' w' H Hinv.
  - simpl in H. minv H. split; [exact Hinv|]. intros s Hs. inversion Hs.
  - simpl in H. apply bind_ok in H as (u & g1 & w1 & H1 & H2).
    pose proof (add_coords_at_post _ _ _ _ _ _ _ H1) as (Hfr & Hset & Hcase).
    assert (Hinv1 : forall i, is_Some (coord_at g1 i 0) -> _staggerloc g1 !! i = Some true).
    { intros i Hi. destruct (decide (i = x)) as [->|Hne].
      - destruct Hcase as [(Hsome & -> & _) | (_ & _ & _ & _ & Hflag & _)]; auto.
      - rewrite (fr_flags _ _ _ _ Hfr) by exact Hne. apply Hinv.
        rewrite <- (coord_at_same_row g g1 i 0); [exact Hi|].
        apply (fr_coords _ _ _ _ Hfr). exact Hne. }
    destruct (IH _ _ _ _ _ H2 Hinv1) as (Hinv' & Hl).
    split; [exact Hinv'|].
    intros s Hs. apply elem_of_cons in Hs as [->|Hs]; [|auto].
    assert (Hrest : frame any any g1 g').
    { eapply (fk_add_coords_loop any any); [|exact H2]. intros; split; exact I. }
    eapply fr_flags_mono; [exact Hrest|]. apply Hinv1. exact Hset.
Qed.

(** ** The constructor, phase by phase *)

Lemma when_warn_ok b msg a g w g' w' :
  when b (warn msg) g w = (Ok a, g', w') ->
  g' = g /\ nstate w' = nstate w /\ mem w' = mem w /\ calls w' = calls w.
Proof.
  intros H. apply when_ok in H as [[_ H] | (_ & -> & ->)]; [|auto].
  apply warn_ok in H as (-> & ->). auto.
Qed.

Lemma check_args_in_memory a mi md g w g' w' :
  a_max_index a = Some mi ->
  check_args a g w = (Ok md, g', w') ->
  md = InMemory /\ g' = set_max_index (wrap32 <$> mi) g
  /\ nstate w' = nstate w /\ mem w' = mem w /\ calls w' = calls w.
Proof.
  intros Hmi H. unfold check_args in H. rewrite Hmi in H. minv H.
  repeat match goal with
    | E : when _ (warn _) _ _ = (Ok _, _, _) |- _ =>
        apply when_warn_ok in E as (-> & ? & ? & ?)
    end.
  repeat split; congruence.
Qed.

Lemma reset_attributes_post a u g w g' w' :
  reset_attributes a g w = (Ok u, g', w') ->
  w' = w /\ _max_index g' = _max_index g /\ _finalized g' = _finalized g
  /\ _periodic_dim g' = a_periodic_dim a /\ _pole_dim g' = a_pole_dim a
  /\ _num_peri_dims g' = default 0%Z (a_num_peri_dims a).
Proof. intros H. unfold reset_attributes in H. minv H. simpl. repeat split. Qed.

Lemma create_in_memory_post a st g w g' w' :
  create_in_memory a g w = (Ok st, g', w') ->
  st = a_staggerloc a
  /\ _max_index g' = _max_index g
  /\ _rank g' = length (_max_index g)
  /\ _ndims g' = length (_max_index g)
  /\ _finalized g' = _finalized g
  /\ (_num_peri_dims g = 0%Z \/ _num_peri_dims g = 1%Z)
  /\ (_num_peri_dims g = 0%Z -> _periodic_dim g' = _periodic_dim g /\ _pole_dim g' = _pole_dim g)
  /\ (_num_peri_dims g = 1%Z -> a_periodic_dim a = None ->
      _periodic_dim g' = Some 0%Z /\ _pole_dim g' = Some 1%Z).
Proof.
  intros H. unfold create_in_memory in H.
  apply bind_ok in H as (g0 & g1 & w1 & Hs & H). minv Hs.
  apply bind_ok in H as (u & g1 & w1 & Hc & H). minv H. simpl.
  destruct (decide (_num_peri_dims g = 0%Z)) as [E0|N0].
  - minv Hc. simpl. repeat apply conj; auto. intros E1. congruence.
  - destruct (decide (_num_peri_dims g = 1%Z)) as [E1|N1]; [|minv Hc].
    apply bind_ok in Hc as (h & g2 & w2 & Hn & Hc). minv Hn.
    apply bind_ok in Hc as (u2 & g3 & w3 & Hm & Hc). minv Hm.
    apply when_ok in Hc as [[Hb Hc] | (Hb & -> & _)].
    + minv Hc. simpl. repeat apply conj; auto. intros; contradiction.
    + simpl. repeat apply conj; auto; try (intros; contradiction).
      intros _ Hp. rewrite Hp in Hb. discriminate.
Qed.

Lemma shadow_lists_post u g w g' w' :
  shadow_lists g w = (Ok u, g', w') ->
  w' = w
  /\ _max_index g' = _max_index g /\ _rank g' = _rank g /\ _ndims g' = _ndims g
  /\ _periodic_dim g' = _periodic_dim g /\ _pole_dim g' = _pole_dim g
  /\ _finalized g' = _finalized g /\ _struct g' = _struct g
  /\ _staggerloc g' = replicate (2 ^ _rank g) false
  /\ _coords g' = replicate (2 ^ _rank g) (replicate (_rank g) None)
  /\ _lower_bounds g' = replicate (2 ^ _rank g) None
  /\ _upper_bounds g' = replicate (2 ^ _rank g) None
  /\ _size g' = replicate (2 ^ _rank g) None
  /\ _mask g' = replicate (2 ^ _rank g) None
  /\ _area g' = replicate (2 ^ _rank g) None.
Proof. intros H. unfold shadow_lists in H. minv H. simpl. repeat split. Qed.



Lemma fk_populate a st ff :
  keeps (frame (fun s => s ∈ requested st) any) (populate a st ff).
Proof.
  assert (forall item,
    keeps (frame (fun s => s ∈ requested st) any)
          (bind (add_item item (Some (One (CENTER loc))) ff) (fun _ => ret tt))) as Hitem.
  { intros item. apply fk_bind; [|intros; apply fk_ret].
    intros g w r g' w' H. eapply frame_weaken; [| |eapply fk_add_item, H]; simpl.
    - intros i [].
    - intros; exact I. }
  unfold populate.
  apply fk_bind; [|intros _; apply fk_bind; [|intros _]].
  - destruct st as [x|]; simpl.
    + apply fk_bind; [|intros; apply fk_ret].
      intros g w r g' w' H.
      eapply frame_weaken; [| |eapply fk_add_coords, H]; simpl; auto.
      intros; exact I.
    + apply fk_ret.
  - apply fk_when, Hitem.
  - apply fk_when, Hitem.
Qed.

Lemma coord_at_fresh g n r i d :
  _coords g = replicate n (replicate r None) -> coord_at g i d = None.
Proof.
  intros E. unfold coord_at. rewrite E.
  destruct (replicate n (replicate r None) !! i) as [row|] eqn:Er; [|reflexivity].
  apply lookup_replicate in Er as [-> _].
  destruct (replicate r (@None ndarray) !! d) as [c|] eqn:Ec; [|reflexivity].
  apply lookup_replicate in Ec as [-> _]. reflexivity.
Qed.

Lemma populate_flags a st ff u g w g' w' :
  populate a st ff g w = (Ok u, g', w') ->
  (forall i, coord_at g i 0 = None) ->
  forall s, s ∈ requested st -> _staggerloc g' !! s = Some true.
Proof.
  intros H Hempty s Hs. unfold populate in H.
  apply bind_ok in H as (u1 & g1 & w1 & Hc & Hrest).
  assert (Hfr : frame any any g1 g').
  { assert (K : keeps (frame any any)
        (bind (when (truthy (a_add_user_area a))
                 (bind (add_item AREA (Some (One (CENTER loc))) ff) (fun _ => ret tt)))
              (fun _ => when (truthy (a_add_mask a))
                 (bind (add_item MASK (Some (One (CENTER loc))) ff) (fun _ => ret tt))))).
    { assert (forall item, keeps (frame any any)
          (bind (add_item item (Some (One (CENTER loc))) ff) (fun _ => ret tt))) as Hitem.
      { intros item. apply fk_bind; [|intros; apply fk_ret].
        intros g2 w2 r g3 w3 H. eapply frame_weaken; [| |eapply fk_add_item, H]; simpl.
        - intros i [].
        - intros; exact I. }
      apply fk_bind; [|intros _]; apply fk_when, Hitem. }
    eapply K, Hrest. }
  eapply fr_flags_mono; [exact Hfr|].
  destruct st as [x|]; [|inversion Hs]. simpl in Hc, Hs.
  apply bind_ok in Hc as (r & g2 & w2 & Hadd & Hret).
  apply ret_ok in Hret as (_ & -> & ->).
  unfold add_coords in Hadd.
  apply bind_ok in Hadd as (u2 & g3 & w3 & Hloop & Hret).
  assert (g2 = g3) as ->.
  { destruct (normalize (Some x)) as [|s0 [|]]; apply ret_ok in Hret as (_ & -> & _); reflexivity. }
  eapply add_coords_loop_flags; [exact Hloop | | exact Hs].
  intros i [c Hi]. rewrite Hempty in Hi. discriminate.
Qed.

(** What an in-memory construction that returned normally went through:
    the shadow lists were laid out for [2 ** rank] locations, all empty,
    then [populate] ran, then the finalization flag was set. *)
Lemma init_in_memory a mi u g w g' w' :
  a_max_index a = Some mi ->
  __init__ a g w = (Ok u, g', w') ->
  exists g0 w0 g1,
    _rank g0 = length mi /\ _ndims g0 = length mi
    /\ _staggerloc g0 = replicate (2 ^ length mi) false
    /\ _coords g0 = replicate (2 ^ length mi) (replicate (length mi) None)
    /\ _lower_bounds g0 = replicate (2 ^ length mi) None
    /\ _size g0 = replicate (2 ^ length mi) None
    /\ _mask g0 = replicate (2 ^ length mi) None
    /\ _area g0 = replicate (2 ^ length mi) None
    /\ (default 0%Z (a_num_peri_dims a) = 1%Z -> a_periodic_dim a = None ->
        _periodic_dim g0 = Some 0%Z /\ _pole_dim g0 = Some 1%Z)
    /\ populate a (a_staggerloc a) false g0 w0 = (Ok tt, g1, w')
    /\ g' = set_finalized (Some false) g1.
Proof.
  intros Hmi H. unfold __init__ in H.
  apply bind_ok in H as (md & g1 & w1 & Hca & H).
  apply (check_args_in_memory _ _ _ _ _ _ _ Hmi) in Hca as (-> & -> & _).
  apply bind_ok in H as (u1 & g2 & w2 & Hra & H).
  apply reset_attributes_post in Hra as (-> & Hmi2 & _ & Hpd & Hpo & Hnp).
  apply bind_ok in H as (st & g3 & w3 & Hcr & H).
  apply create_in_memory_post in Hcr as (-> & Hmi3 & Hr3 & Hn3 & _ & _ & _ & Hper).
  apply bind_ok in H as (u3 & g4 & w4 & Hty & H). apply modify_ok in Hty as (-> & ->).
  apply bind_ok in H as (u4 & g5 & w5 & Hsh & H).
  apply shadow_lists_post in Hsh
    as (-> & _ & Hr5 & Hn5 & Hpd5 & Hpo5 & _ & _ & Hfl & Hco & Hlo & _ & Hsz & Hma & Har).
  apply bind_ok in H as (u5 & g6 & w6 & Hpop & H). apply modify_ok in H as (-> & ->).
  simpl in *.
  assert (length (_max_index g2) = length mi) as Hlen.
  { rewrite Hmi2. simpl. apply length_fmap. }
  rewrite Hlen in *. rewrite Hr3 in *.
  exists g5, w3, g6. destruct u5.
  repeat apply conj; auto; try congruence.
  intros Hone Hnone. rewrite Hpd5, Hpo5. apply Hper; [congruence | exact Hnone].
Qed.



Lemma cache_rel_refl c lb ub g : cache_rel c lb ub g g.
Proof. unfold cache_rel. auto. Qed.

Lemma cache_rel_trans c lb ub g1 g2 g3 :
  cache_rel c lb ub g1 g2 -> cache_rel c lb ub g2 g3 -> cache_rel c lb ub g1 g3.
Proof.
  unfold cache_rel. intros H12 H23 Hf Hc.
  destruct (H12 Hf Hc) as [Hc2 E2]. rewrite <- E2 in Hf.
  destruct (H23 Hf Hc2) as [Hc3 E3]. split; [exact Hc3 | congruence].
Qed.

Lemma keeps_weaken {A} (R R' : Grid -> Grid -> Prop) (m : M A) :
  (forall g g', R g g' -> R' g g') -> keeps R m -> keeps R' m.
Proof. intros HR Hm g w a g' w' H. apply HR. eapply Hm, H. Qed.

Lemma cache_rel_same_bounds c lb ub g g' : same_bounds g g' -> cache_rel c lb ub g g'.
Proof.
  intros (El & Eu & Es & Eh) _ Hc. split; [|exact Eh].
  unfold consistent, lower_at, size_at in *. rewrite El, Es. exact Hc.
Qed.

Lemma cache_rel_frame (F P : nat -> Prop) c lb ub g g' :
  ~ P c -> frame F P g g' -> cache_rel c lb ub g g'.
Proof.
  intros HP Hfr _ Hc. split; [|apply (fr_struct _ _ _ _ Hfr)].
  unfold consistent, lower_at, size_at in *.
  rewrite (fr_lower _ _ _ _ Hfr) by exact HP.
  rewrite (fr_size _ _ _ _ Hfr) by exact HP. exact Hc.
Qed.

Lemma kc_of_sb {A} c lb ub (m : M A) : keeps same_bounds m -> keeps (cache_rel c lb ub) m.
Proof. apply keeps_weaken, cache_rel_same_bounds. Qed.

Lemma get_bounds_fixed g0 s lb ub x y g w g' w' :
  bounds_fixed (_struct g0) s lb ub ->
  get_bounds g0 s g w = (Ok (x, y), g', w') -> x = lb /\ y = ub.
Proof.
  intros Hf H. unfold get_bounds in H. apply native_ok in H as (s1 & m1 & H & _).
  specialize (Hf (nstate w) (mem w)). rewrite H in Hf. simpl in Hf.
  injection Hf as -> ->. auto.
Qed.

(** After a verification that returned normally the cached size is the
    difference of the fixed bounds. *)
Lemma verify_size s lb ub u g w g' w' :
  bounds_fixed (_struct g) s lb ub -> consistent lb ub g s ->
  _verify_grid_bounds_ s g w = (Ok u, g', w') ->
  (exists sz, np_sub ub lb = Ok sz /\ size_at g' s = Some sz) /\ _struct g' = _struct g.
Proof.
  intros Hf Hc H. unfold _verify_grid_bounds_ in H.
  apply bind_ok in H as (cached & g1 & w1 & Hget & H).
  unfold get_lower in Hget. minv Hget. pyinv.
  apply bind_ok in H as (g0 & g2 & w2 & Hs & H). apply self_ok in Hs as (-> & -> & ->).
  destruct cached as [clb|].
  - assert (g' = g) as ->.
    { minv H. unfold get_upper, get_size in *.
      repeat match goal with E : bind _ _ _ _ = (Ok _, _, _) |- _ => minv E end.
      reflexivity. }
    split; [|reflexivity].
    destruct Hc as [Hc | Hc]; [|exact Hc].
    unfold lower_at in Hc. rewrite Hget in Hc. discriminate.
  - apply bind_ok in H as ([x y] & g3 & w3 & Hb & H).
    apply try_except_ok in Hb.
    pose proof (get_bounds_fixed _ _ _ _ _ _ _ _ _ _ Hf Hb) as [-> ->].
    unfold get_bounds in Hb. minv Hb.
    apply bind_ok in H as (u1 & g4 & w4 & Hl & H).
    apply bind_ok in H as (u2 & g5 & w5 & Hu & H).
    apply bind_ok in H as (d & g6 & w6 & Hd & H). apply lift_ok in Hd as (Hd & -> & ->).
    unfold set_lower in Hl. minv Hl. unfold set_upper in Hu. minv Hu.
    unfold set_size_at in H. minv H. pyinv. simpl in *.
    split; [|reflexivity]. exists d. split; [exact Hd|].
    unfold size_at. simpl. rewrite list_lookup_insert_eq by assumption. reflexivity.
Qed.

Lemma kc_bind c lb ub {A B} (m : M A) (k : A -> M B) :
  keeps (cache_rel c lb ub) m -> (forall a, keeps (cache_rel c lb ub) (k a)) ->
  keeps (cache_rel c lb ub) (bind m k).
Proof. apply keeps_bind, cache_rel_trans. Qed.

Lemma kc_when c lb ub b m :
  keeps (cache_rel c lb ub) m -> keeps (cache_rel c lb ub) (when b m).
Proof. apply keeps_when, cache_rel_refl. Qed.

Lemma kc_verify c lb ub s : keeps (cache_rel c lb ub) (_verify_grid_bounds_ s).
Proof.
  destruct (decide (s = c)) as [->|Hne].
  - intros g w u g' w' H Hf Hc.
    destruct (verify_size _ _ _ _ _ _ _ _ Hf Hc H) as [Hsz E].
    split; [right; exact Hsz | exact E].
  - eapply keeps_weaken; [|apply (fk_verify any (fun i => i = s)); reflexivity].
    intros g g'. apply cache_rel_frame. congruence.
Qed.

Create HintDb kc.
#[local] Hint Resolve kc_verify : kc.
#[local] Hint Extern 5 (keeps (cache_rel _ _ _) _) => (apply kc_of_sb; solve [sb]) : kc.

Ltac kc :=
  repeat first
    [ solve [ eauto with kc ]
    | apply kc_bind; [ | intros ? ]
    | apply kc_when
    | match goal with
      | |- keeps _ (match ?x with _ => _ end) => destruct x
      end ].

Lemma kc_allocate_coords c lb ub s ff : keeps (cache_rel c lb ub) (_allocate_coords_ s ff).
Proof. unfold _allocate_coords_. kc. Qed.

Lemma kc_allocate_items c lb ub item s ff :
  keeps (cache_rel c lb ub) (_allocate_items_ item s ff).
Proof. unfold _allocate_items_. kc. Qed.

#[local] Hint Resolve kc_allocate_coords kc_allocate_items : kc.

Lemma kc_add_coords_at c lb ub ff s : keeps (cache_rel c lb ub) (add_coords_at ff s).
Proof. unfold add_coords_at. kc. Qed.

Lemma kc_item_check c lb ub item s : keeps (cache_rel c lb ub) (item_check item s).
Proof. unfold item_check. kc. Qed.

#[local] Hint Resolve kc_add_coords_at kc_item_check : kc.

Lemma kc_add_item_loop c lb ub item ff l done :
  keeps (cache_rel c lb ub) (add_item_loop item ff l done).
Proof. revert done. induction l as [|s l IH]; intros done; simpl; kc. Qed.

Lemma kc_add_coords c lb ub sl cd ff : keeps (cache_rel c lb ub) (add_coords sl cd ff).
Proof.
  unfold add_coords. apply kc_bind.
  - apply keeps_for_each; [apply cache_rel_refl | apply cache_rel_trans |].
    intros s _. apply kc_add_coords_at.
  - intros _. kc.
Qed.

Lemma kc_add_item c lb ub item sl ff : keeps (cache_rel c lb ub) (add_item item sl ff).
Proof. unfold add_item. apply kc_bind; [apply kc_add_item_loop | intros _; kc]. Qed.

#[local] Hint Resolve kc_add_coords kc_add_item : kc.

Lemma kc_populate c lb ub a st ff : keeps (cache_rel c lb ub) (populate a st ff).
Proof. unfold populate. kc. Qed.

(** ** Writing through a view *)

Lemma cell_inj b i j : cell b i = cell b j -> i = j.
Proof. unfold cell. lia. Qed.

Lemma fill_mem_lookup b n v m i :
  i < n -> fill_mem b n v m !! cell b i = Some v.
Proof.
  intros Hi. unfold fill_mem.
  assert (i ∈ seq 0 n) as Hin by (apply elem_of_seq; lia).
  induction (seq 0 n) as [|j l IH]; [inversion Hin|]. simpl.
  destruct (decide (j = i)) as [->|Hne].
  - apply lookup_insert_eq.
  - rewrite lookup_insert_ne by (intros E; apply cell_inj in E; contradiction).
    apply IH. apply elem_of_cons in Hin as [->|Hin]; [contradiction | exact Hin].
Qed.

(** A reader of a view that has just been filled sees the value in every
    cell. *)
Lemma contents_fill t sh b v m :
  contents (fill_mem b (nelems sh) v m) (Alias t sh b) = replicate (nelems sh) (Some v).
Proof.
  simpl. apply list_eq. intros i. rewrite list_lookup_fmap.
  destruct (decide (i < nelems sh)) as [Hi|Hi].
  - rewrite lookup_seq_lt by exact Hi. simpl. rewrite fill_mem_lookup by exact Hi.
    symmetry. apply lookup_replicate_2. exact Hi.
  - rewrite lookup_seq_ge by lia. simpl. symmetry.
    apply lookup_replicate_None. lia.
Qed.

(** ** Items *)



Lemma item_at_set item s x u g w g' w' :
  set_item_slot item s x g w = (Ok u, g', w') -> item_at item g' s = Some x /\ w' = w.
Proof.
  intros H. unfold set_item_slot in H. minv H; pyinv; simpl; (split; [|reflexivity]).
  - unfold mask_at. simpl. rewrite list_lookup_insert_eq by assumption. reflexivity.
  - unfold area_at. simpl. rewrite list_lookup_insert_eq by assumption. reflexivity.
Qed.

Lemma get_item_slot_ok item s c g w g' w' :
  get_item_slot item s g w = (Ok c, g', w') -> g' = g /\ w' = w /\ item_at item g s = c.
Proof.
  intros H. unfold get_item_slot in H. minv H; pyinv; repeat split; simpl.
  - unfold mask_at. match goal with E : _ !! _ = Some _ |- _ => rewrite E end. reflexivity.
  - unfold area_at. match goal with E : _ !! _ = Some _ |- _ => rewrite E end. reflexivity.
Qed.

(** ** What the repeated verification compares

    With bounds cached, the verification accepts every fresh answer of the
    native side whose arrays agree with the cached ones on being free of
    zeros, and it never writes the cache. *)
Lemma verify_cached_accepts s g w clb cub csz lb ub d st m :
  _lower_bounds g !! s = Some (Some clb) ->
  _upper_bounds g !! s = Some (Some cub) ->
  _size g !! s = Some (Some csz) ->
  ESMP_GridGetCoordBounds esmp (_struct g) s (nstate w) (mem w) = (Ok (lb, ub), st, m) ->
  np_sub ub lb = Ok d ->
  np_all clb = np_all lb -> np_all cub = np_all ub -> np_all csz = np_all d ->
  _verify_grid_bounds_ s g w =
    (Ok tt, g, mkWorld st m (calls w ++ [CGridGetCoordBounds (_struct g) s]) (warns w)).
Proof.
  intros Hl Hu Hs Hb Hd El Eu Es.
  unfold _verify_grid_bounds_, get_lower, get_upper, get_size, get_bounds,
    bind, self, lift, native, py_get.
  rewrite Hl, Hb. cbn. rewrite El, eqb_reflx. cbn.
  rewrite Hu. cbn. rewrite Eu, eqb_reflx. cbn.
  rewrite Hs, Hd. cbn. rewrite Es, eqb_reflx. reflexivity.
Qed.

Lemma verify_cached_unchanged s u g w g' w' :
  is_Some (lower_at g s) ->
  _verify_grid_bounds_ s g w = (Ok u, g', w') -> g' = g.
Proof.
  intros [clb Hl] H. unfold _verify_grid_bounds_ in H.
  apply bind_ok in H as (cached & g1 & w1 & Hget & H).
  unfold get_lower in Hget. minv Hget. pyinv.
  apply bind_ok in H as (g0 & g2 & w2 & Hs & H). apply self_ok in Hs as (-> & -> & ->).
  unfold lower_at in Hl. rewrite Hget in Hl. simpl in Hl. subst cached.
  minv H. unfold get_upper, get_size in *.
  repeat match goal with E : bind _ _ _ _ = (Ok _, _, _) |- _ => minv E end.
  reflexivity.
Qed.

Lemma ndarray_from_esmf_ok data t sh a :
  ndarray_from_esmf data t sh = Ok a -> a = Alias t sh data.
Proof. unfold ndarray_from_esmf. destruct (nonneg_shape sh); [congruence | discriminate]. Qed.

Lemma size_at_same_bounds g g' s : same_bounds g g' -> size_at g' s = size_at g s.
Proof. intros (_ & _ & E & _). unfold size_at. rewrite E. reflexivity. Qed.

(** An item allocated in memory against a native side with fixed bounds: the
    slot holds a view of the item's type whose shape is the cached size, and
    a reader of the view sees the fill value in every cell. *)
Lemma allocate_items_post item s lb ub u g w g' w' :
  item = MASK \/ item = AREA ->
  bounds_fixed (_struct g) s lb ub -> consistent lb ub g s ->
  _allocate_items_ item s false g w = (Ok u, g', w') ->
  exists sz base,
    np_sub ub lb = Ok sz
    /\ item_at item g' s = Some (Alias (item_type item) sz base)
    /\ size_at g' s = Some sz
    /\ contents (mem w') (Alias (item_type item) sz base)
       = replicate (nelems sz) (Some (cast (item_type item) (fill_value item))).
Proof.
  intros Hitem Hf Hc H. unfold _allocate_items_ in H.
  apply bind_ok in H as (u1 & g1 & w1 & Hv & H).
  destruct (verify_size _ _ _ _ _ _ _ _ Hf Hc Hv) as [(sz & Hsub & Hsz) Eh].
  apply bind_ok in H as (u2 & g2 & w2 & Hz & H).
  apply bind_ok in H as (u3 & g3 & w3 & Hl & Hfill).
  assert (same_bounds g1 g2) as S12.
  { assert (K : keeps same_bounds
        (match item with
         | OtherItem _ => raise GridItemNotSupported
         | _ => bind (get_size s) (fun sz0 =>
                bind (lift (np_zeros sz0 (item_type item))) (fun z => set_item_slot item s z))
         end)) by sb.
    eapply K, Hz. }
  assert (same_bounds g2 g3) as S23 by (eapply sb_link_item_buffer, Hl).
  unfold _link_item_buffer_ in Hl.
  apply bind_ok in Hl as (g0 & g4 & w4 & Hs & Hl). apply self_ok in Hs as (-> & -> & ->).
  apply bind_ok in Hl as (data & g4 & w4 & Hd & Hl). apply native_ok in Hd as (s1 & m1 & _ & -> & ->).
  apply bind_ok in Hl as ([x y] & g5 & w5 & Hb & Hl).
  assert (bounds_fixed (_struct g2) s lb ub) as Hf2.
  { destruct S12 as (_ & _ & _ & E). rewrite E, Eh. exact Hf. }
  pose proof (get_bounds_fixed _ _ _ _ _ _ _ _ _ _ Hf2 Hb) as [-> ->].
  unfold get_bounds in Hb. apply native_ok in Hb as (s2 & m2 & _ & -> & ->).
  assert (exists a, item_at item g3 s = Some a /\ a = Alias (item_type item) sz data
                    /\ w3 = mkWorld s2 m2 ((calls w2 ++ [CGridGetItem (_struct g2) item s])
                                            ++ [CGridGetCoordBounds (_struct g2) s]) (warns w2))
    as (a & Ha & -> & ->).
  { destruct Hitem as [-> | ->].
    - apply bind_ok in Hl as (d & g6 & w6 & Hd & Hl). apply lift_ok in Hd as (Hd & -> & ->).
      apply bind_ok in Hl as (a & g6 & w6 & Ha & Hl). apply lift_ok in Ha as (Ha & -> & ->).
      apply ndarray_from_esmf_ok in Ha. apply item_at_set in Hl as [Hl ->].
      exists a. rewrite Hsub in Hd. injection Hd as <-. auto.
    - apply bind_ok in Hl as (d & g6 & w6 & Hd & Hl). apply lift_ok in Hd as (Hd & -> & ->).
      apply bind_ok in Hl as (a & g6 & w6 & Ha & Hl). apply lift_ok in Ha as (Ha & -> & ->).
      apply ndarray_from_esmf_ok in Ha. apply item_at_set in Hl as [Hl ->].
      exists a. rewrite Hsub in Hd. injection Hd as <-. auto. }
  simpl in Hfill.
  assert (fill_item item s (fill_value item) g3
            (mkWorld s2 m2 ((calls w2 ++ [CGridGetItem (_struct g2) item s])
                            ++ [CGridGetCoordBounds (_struct g2) s]) (warns w2))
          = (Ok u, g', w')) as Hfill'.
  { destruct Hitem as [-> | ->]; exact Hfill. }
  clear Hfill. unfold fill_item in Hfill'.
  apply bind_ok in Hfill' as (c & g6 & w6 & Hg & Hfill).
  apply get_item_slot_ok in Hg as (-> & -> & Hg). rewrite Ha in Hg. subst c.
  simpl in Hfill. apply write_mem_ok in Hfill as (-> & ->).
  exists sz, data. repeat split; auto.
  - rewrite (size_at_same_bounds _ _ _ S23), (size_at_same_bounds _ _ _ S12). exact Hsz.
  - simpl mem. apply contents_fill.
Qed.

Lemma item_at_mono F P item g g' s :
  frame F P g g' -> is_Some (item_at item g s) -> is_Some (item_at item g' s).
Proof.
  intros Hfr H. destruct item; simpl in *.
  - eapply fr_mask_mono; eassumption.
  - eapply fr_area_mono; eassumption.
  - exact H.
Qed.

Lemma link_item_buffer_post item s u g w g' w' :
  _link_item_buffer_ item s g w = (Ok u, g', w') -> is_Some (item_at item g' s).
Proof.
  intros H. unfold _link_item_buffer_ in H.
  apply bind_ok in H as (g0 & g1 & w1 & Hs & H). apply self_ok in Hs as (-> & -> & ->).
  apply bind_ok in H as (data & g1 & w1 & _ & H).
  apply bind_ok in H as ([x y] & g2 & w2 & _ & H).
  destruct item; minv H;
    match goal with E : set_item_slot _ _ _ _ _ = _ |- _ => apply item_at_set in E as [E _] end;
    eauto.
Qed.

(** Whatever the creation mode, an allocation that returned normally leaves
    the item linked. *)
Lemma allocate_items_linked item s ff u g w g' w' :
  _allocate_items_ item s ff g w = (Ok u, g', w') -> is_Some (item_at item g' s).
Proof.
  intros H. unfold _allocate_items_ in H.
  apply bind_ok in H as (u1 & g1 & w1 & _ & H).
  apply bind_ok in H as (u2 & g2 & w2 & _ & H).
  apply bind_ok in H as (u3 & g3 & w3 & Hl & Hfill).
  apply link_item_buffer_post in Hl.
  frame_of Hfill as Ffill. eapply item_at_mono; eassumption.
Qed.

Lemma item_check_ok item s done g w g' w' :
  item_check item s g w = (Ok done, g', w') -> done = false /\ g' = g /\ w' = w.
Proof.
  intros H. unfold item_check in H. destruct item; [| |minv H].
  - apply bind_ok in H as (c & g1 & w1 & Hc & H).
    apply get_item_slot_ok in Hc as (-> & -> & _). destruct c; minv H. auto.
  - apply bind_ok in H as (c & g1 & w1 & Hc & H).
    apply get_item_slot_ok in Hc as (-> & -> & _). destruct c; minv H. auto.
Qed.

(** A call of [add_item] at one location that returned normally made the
    native allocation (unless the grid came from a file) and then ran
    [_allocate_items_]; it returns the slot. *)
Lemma add_item_ok item sl s ff r g w g' w' :
  normalize sl = [s] ->
  add_item item sl ff g w = (Ok r, g', w') ->
  exists w1,
    when (negb ff)
      (bind self (fun g0 => native (CGridAddItem (_struct g0) item s)
                                   (ESMP_GridAddItem esmp (_struct g0) item s))) g w
      = (Ok tt, g, w1)
    /\ _allocate_items_ item s ff g w1 = (Ok tt, g', w')
    /\ r = item_at item g' s.
Proof.
  intros Hn H. unfold add_item in H. rewrite Hn in H. simpl in H.
  apply bind_ok in H as (u & g1 & w1 & Hloop & Hret).
  apply get_item_slot_ok in Hret as (-> & -> & <-).
  apply bind_ok in Hloop as (done & g2 & w2 & Hchk & Hloop).
  apply item_check_ok in Hchk as (-> & -> & ->).
  apply bind_ok in Hloop as (u2 & g3 & w3 & Hbody & Hnil).
  apply ret_ok in Hnil as (_ & -> & ->). simpl in Hbody.
  apply bind_ok in Hbody as (u3 & g4 & w4 & Hnat & Hall).
  assert (g4 = g) as ->.
  { frame_of Hnat as K. clear K.
    apply when_ok in Hnat as [[_ Hnat] | (_ & -> & _)]; [|reflexivity].
    apply bind_ok in Hnat as (g0 & g5 & w5 & Hs & Hnat). apply self_ok in Hs as (-> & -> & ->).
    apply native_ok in Hnat as (? & ? & _ & -> & _). reflexivity. }
  exists w4. destruct u2, u3. auto.
Qed.

Lemma add_item_post item sl s lb ub r g w g' w' :
  item = MASK \/ item = AREA ->
  normalize sl = [s] ->
  bounds_fixed (_struct g) s lb ub -> consistent lb ub g s ->
  add_item item sl false g w = (Ok r, g', w') ->
  exists sz base,
    np_sub ub lb = Ok sz
    /\ r = Some (Alias (item_type item) sz base)
    /\ item_at item g' s = Some (Alias (item_type item) sz base)
    /\ size_at g' s = Some sz
    /\ contents (mem w') (Alias (item_type item) sz base)
       = replicate (nelems sz) (Some (cast (item_type item) (fill_value item))).
Proof.
  intros Hitem Hn Hf Hc H.
  destruct (add_item_ok _ _ _ _ _ _ _ _ _ Hn H) as (w1 & _ & Hall & ->).
  destruct (allocate_items_post _ _ _ _ _ _ _ _ _ Hitem Hf Hc Hall)
    as (sz & base & Hsub & Hat & Hsz & Hcont).
  exists sz, base. rewrite Hat. auto.
Qed.

(** The cache of a Grid that an in-memory construction has just returned is
    consistent with a native side whose bounds are fixed. *)
Lemma fresh_consistent a mi w0 g w c lb ub :
  a_max_index a = Some mi ->
  Grid_call a w0 = (Ok tt, g, w) ->
  bounds_fixed (_struct g) c lb ub ->
  consistent lb ub g c.
Proof.
  intros Hmi H Hf. unfold Grid_call, initialize in H.
  apply bind_ok in H as (u & g1 & w1 & _ & H).
  apply (init_in_memory _ _ _ _ _ _ _ Hmi) in H
    as (g0 & w2 & g2 & _ & _ & _ & _ & Hlo & _ & _ & _ & _ & Hpop & ->).
  pose proof (fk_populate _ _ _ _ _ _ _ _ Hpop) as Hfr.
  simpl in Hf. rewrite (fr_struct _ _ _ _ Hfr) in Hf.
  assert (consistent lb ub g0 c) as Hc0.
  { left. unfold lower_at. rewrite Hlo.
    destruct (replicate (2 ^ length mi) (@None (list Z)) !! c) as [o|] eqn:E; [|reflexivity].
    apply lookup_replicate in E as [-> _]. reflexivity. }
  destruct (kc_populate c lb ub _ _ _ _ _ _ _ _ Hpop Hf Hc0) as [Hc _].
  exact Hc.
Qed.

(** ** Runs on a steady native side return

    The statements above are about runs that returned normally.  On a
    steady native side the allocation methods do return on every Grid that
    is [ready], and leave it ready. *)

Section Steady.

Variables lbf ubf szf : nat -> list Z.
Hypothesis Hsteady : steady lbf ubf szf.
Variables n r : nat.

#[local] Abbreviation Ready := (ready lbf ubf szf n r).

(** What a step of the allocation carries over: the object stays ready and
    keeps its items, its cached bounds and its flags. *)
#[local] Abbreviation Carry g g' :=
  (Ready g' /\ same_items g g' /\ same_bounds g g' /\ _staggerloc g' = _staggerloc g).

Ltac step := erewrite bind_run by reflexivity; cbv beta iota.
Ltac step_with E := erewrite bind_run by exact E; cbv beta iota.

Lemma same_items_refl g : same_items g g.
Proof. split; reflexivity. Qed.

Lemma same_items_trans g1 g2 g3 : same_items g1 g2 -> same_items g2 g3 -> same_items g1 g3.
Proof. intros [] []. split; congruence. Qed.

Lemma native_returns {A} c (op : NativeOp St A) g w :
  (forall st m, exists a, (op st m).1.1 = Ok a) ->
  exists a w', native c op g w = (Ok a, g, w').
Proof.
  intros H. unfold native. destruct (H (nstate w) (mem w)) as [a Ha].
  destruct (op (nstate w) (mem w)) as [[res s1] m1]. simpl in Ha. subst res. eauto.
Qed.

Lemma get_bounds_returns g0 s g w :
  exists w', get_bounds g0 s g w = (Ok (lbf s, ubf s), g, w').
Proof using Hsteady.
  unfold get_bounds, native.
  pose proof (st_bounds _ _ _ Hsteady (_struct g0) s (nstate w) (mem w)) as H.
  destruct (ESMP_GridGetCoordBounds esmp (_struct g0) s (nstate w) (mem w)) as [[res s1] m1].
  simpl in H. subst res. eauto.
Qed.

Lemma get_coord_ptr_returns g0 d s g w :
  exists p w', get_coord_ptr g0 d s g w = (Ok p, g, w').
Proof using Hsteady. unfold get_coord_ptr. apply native_returns. intros. eapply st_coord_ptr, Hsteady. Qed.

Lemma set_coord_returns s d x g w :
  Ready g -> s < n -> d < r ->
  exists g', set_coord s d x g w = (Ok tt, g', w) /\ Ready g' /\ same_items g g'
             /\ same_bounds g g' /\ _staggerloc g' = _staggerloc g.
Proof.
  intros Hr Hs Hd. unfold set_coord, bind, self, lift.
  destruct (lookup_lt_is_Some_2 (_coords g) s) as [row Hrow];
    [rewrite (rd_coords _ _ _ _ _ _ Hr); exact Hs|].
  unfold py_get. rewrite Hrow. unfold py_set.
  pose proof (rd_rows _ _ _ _ _ _ Hr s row Hrow) as Hlen.
  destruct (decide (d < length row)) as [_|Hno]; [|lia].
  unfold modify. eexists. split; [reflexivity|].
  split; [|repeat split].
  destruct Hr. constructor; simpl; auto.
  - rewrite length_insert. assumption.
  - intros i row' Hi. destruct (decide (s = i)) as [->|Hne].
    + rewrite list_lookup_insert_eq in Hi by (eapply lookup_lt_Some; exact Hrow).
      injection Hi as <-. rewrite length_insert. exact Hlen.
    + rewrite list_lookup_insert_ne in Hi by exact Hne. eauto.
Qed.

Lemma get_coord_returns s d g w :
  Ready g -> s < n -> d < r -> exists c, get_coord s d g w = (Ok c, g, w).
Proof.
  intros Hr Hs Hd. rewrite get_coord_run. unfold rbind, py_get.
  destruct (lookup_lt_is_Some_2 (_coords g) s) as [row Hrow];
    [rewrite (rd_coords _ _ _ _ _ _ Hr); exact Hs|].
  rewrite Hrow.
  destruct (lookup_lt_is_Some_2 row d) as [c Hc];
    [rewrite (rd_rows _ _ _ _ _ _ Hr s row Hrow); exact Hd|].
  rewrite Hc. eauto.
Qed.

Lemma set_lower_run s v g w :
  s < length (_lower_bounds g) ->
  set_lower s v g w = (Ok tt, set_lower_bounds (<[s := Some v]> (_lower_bounds g)) g, w).
Proof.
  intros Hs. unfold set_lower, bind, self, lift, py_set, modify.
  destruct (decide (s < length (_lower_bounds g))); [reflexivity | contradiction].
Qed.

Lemma set_upper_run s v g w :
  s < length (_upper_bounds g) ->
  set_upper s v g w = (Ok tt, set_upper_bounds (<[s := Some v]> (_upper_bounds g)) g, w).
Proof.
  intros Hs. unfold set_upper, bind, self, lift, py_set, modify.
  destruct (decide (s < length (_upper_bounds g))); [reflexivity | contradiction].
Qed.

Lemma set_size_at_run s v g w :
  s < length (_size g) ->
  set_size_at s v g w = (Ok tt, set_size (<[s := Some v]> (_size g)) g, w).
Proof.
  intros Hs. unfold set_size_at, bind, self, lift, py_set, modify.
  destruct (decide (s < length (_size g))); [reflexivity | contradiction].
Qed.

Lemma set_flag_run s v g w :
  s < length (_staggerloc g) ->
  set_flag s v g w = (Ok tt, set_staggerloc (<[s := v]> (_staggerloc g)) g, w).
Proof.
  intros Hs. unfold set_flag, bind, self, lift, py_set, modify.
  destruct (decide (s < length (_staggerloc g))); [reflexivity | contradiction].
Qed.

Lemma get_lower_run s g w : get_lower s g w = (py_get (_lower_bounds g) s, g, w).
Proof. reflexivity. Qed.

Lemma get_size_run s g w : get_size s g w = (py_get (_size g) s, g, w).
Proof. reflexivity. Qed.

(** The verification returns, and afterwards the size of the location is
    cached. *)
Lemma verify_returns s g w :
  Ready g -> s < n ->
  exists g' w',
    _verify_grid_bounds_ s g w = (Ok tt, g', w') /\ Ready g'
    /\ _size g' !! s = Some (Some (szf s))
    /\ same_items g g' /\ _coords g' = _coords g /\ _staggerloc g' = _staggerloc g.
Proof using Hsteady.
  intros Hr Hs.
  destruct (lookup_lt_is_Some_2 (_lower_bounds g) s) as [cached Hc];
    [rewrite (rd_lower _ _ _ _ _ _ Hr); exact Hs|].
  destruct (st_size _ _ _ Hsteady s) as [Hsub Hnn].
  destruct cached as [clb|].
  - destruct (rd_cache _ _ _ _ _ _ Hr s clb Hc) as (-> & Hu & Hz).
    pose proof (st_bounds _ _ _ Hsteady (_struct g) s (nstate w) (mem w)) as Hb.
    destruct (ESMP_GridGetCoordBounds esmp (_struct g) s (nstate w) (mem w))
      as [[res s1] m1] eqn:E.
    simpl in Hb. subst res.
    exists g. eexists. split.
    + eapply verify_cached_accepts; eauto.
    + split; [exact Hr|]. split; [exact Hz|]. repeat split.
  - destruct (get_bounds_returns g s g w) as [w1 E].
    assert (s < length (_lower_bounds g)) as Hl by (rewrite (rd_lower _ _ _ _ _ _ Hr); exact Hs).
    assert (s < length (_upper_bounds g)) as Hu by (rewrite (rd_upper _ _ _ _ _ _ Hr); exact Hs).
    assert (s < length (_size g)) as Hz by (rewrite (rd_size _ _ _ _ _ _ Hr); exact Hs).
    eexists. exists w1. split.
    + unfold _verify_grid_bounds_.
      unfold bind at 1. rewrite get_lower_run. unfold py_get. rewrite Hc.
      unfold bind at 1. unfold self at 1. cbv beta iota.
      unfold bind at 1. unfold try_except. rewrite E. cbv beta iota.
      unfold bind at 1. rewrite set_lower_run by exact Hl. cbv beta iota.
      unfold bind at 1. rewrite set_upper_run by exact Hu. cbv beta iota.
      unfold bind at 1. unfold lift at 1. rewrite Hsub. cbv beta iota.
      rewrite set_size_at_run by exact Hz. reflexivity.
    + destruct Hr. split; [|repeat split].
      * constructor; simpl; auto; try (rewrite length_insert; assumption).
        intros s' clb' Hl'. destruct (decide (s = s')) as [->|Hne].
        -- rewrite list_lookup_insert_eq in Hl' by exact Hl. injection Hl' as <-.
           rewrite !list_lookup_insert_eq by assumption. auto.
        -- rewrite list_lookup_insert_ne in Hl' by exact Hne.
           rewrite !list_lookup_insert_ne by exact Hne. eauto.
      * simpl. apply list_lookup_insert_eq. exact Hz.
Qed.

Lemma carry_refl g : Ready g -> Carry g g.
Proof.
  intros Hr. split; [exact Hr|]. split; [apply same_items_refl|].
  split; [apply same_bounds_refl | reflexivity].
Qed.

Lemma carry_trans g1 g2 g3 : Carry g1 g2 -> Carry g2 g3 -> Carry g1 g3.
Proof.
  intros (_ & I1 & B1 & F1) (R2 & I2 & B2 & F2). split; [exact R2|].
  split; [eapply same_items_trans; eauto|].
  split; [eapply same_bounds_trans; eauto | congruence].
Qed.

Lemma carry_has_corners v g g1 : Carry g g1 -> Carry g (set_has_corners v g1).
Proof.
  intros (R & I & B & F). split; [|split; [exact I | split; [exact B | exact F]]].
  destruct R. constructor; simpl; auto.
Qed.

Lemma carry_size g g' s : same_bounds g g' -> _size g' !! s = _size g !! s.
Proof. intros (_ & _ & -> & _). reflexivity. Qed.

Lemma zero_coord_returns s d g w :
  Ready g -> s < n -> d < r -> _size g !! s = Some (Some (szf s)) ->
  exists g', zero_coord s d g w = (Ok tt, g', w) /\ Carry g g'.
Proof using Hsteady.
  intros Hr Hs Hd Hz.
  destruct (st_size _ _ _ Hsteady s) as [_ Hnn].
  unfold zero_coord.
  assert (get_size s g w = (Ok (Some (szf s)), g, w)) as E
    by (rewrite get_size_run; unfold py_get; rewrite Hz; reflexivity).
  step_with E. step. unfold np_zeros. rewrite Hnn. step.
  apply set_coord_returns; assumption.
Qed.

Lemma link_coord_buffer_returns d s g w :
  Ready g -> s < n -> d < r ->
  exists g' w', _link_coord_buffer_ d s g w = (Ok tt, g', w') /\ Carry g g'.
Proof using Hsteady.
  intros Hr Hs Hd.
  destruct (st_size _ _ _ Hsteady s) as [Hsub Hnn].
  unfold _link_coord_buffer_. step.
  destruct (get_coord_ptr_returns g d s g w) as (p & w1 & E1). step_with E1.
  destruct (get_bounds_returns g s g w1) as (w2 & E2). step_with E2.
  rewrite Hsub. step. unfold ndarray_from_esmf. rewrite Hnn. step.
  destruct (set_coord_returns s d (Alias (_type g) (szf s) p) g w2 Hr Hs Hd)
    as (g1 & E3 & C3).
  step_with E3. destruct (is_corner s); simpl.
  - exists (set_has_corners true g1), w2. split; [reflexivity|].
    apply carry_has_corners. exact C3.
  - exists g1, w2. split; [reflexivity | exact C3].
Qed.

Lemma link_all_returns s k : forall a g w,
  Ready g -> s < n -> a + k <= r ->
  exists g' w',
    for_each (seq a k) (fun xyz => _link_coord_buffer_ xyz s) g w = (Ok tt, g', w')
    /\ Carry g g'.
Proof using Hsteady.
  induction k as [|k IH]; intros a g w Hr Hs Hk.
  - exists g, w. split; [reflexivity | apply carry_refl; exact Hr].
  - simpl.
    destruct (link_coord_buffer_returns a s g w Hr Hs) as (g1 & w1 & E1 & C1); [lia|].
    step_with E1.
    destruct (IH (S a) g1 w1) as (g2 & w2 & E2 & C2); [apply C1 | exact Hs | lia |].
    exists g2, w2. split; [exact E2 | eapply carry_trans; eauto].
Qed.

Lemma link_coords_returns s g w :
  Ready g -> s < n ->
  exists g' w', link_coords s g w = (Ok tt, g', w') /\ Carry g g'.
Proof using Hsteady.
  intros Hr Hs. unfold link_coords. step.
  destruct (decide (_ndims g = _rank g \/ _ndims g = 0)) as [_|Hno].
  - rewrite (rd_rank _ _ _ _ _ _ Hr). apply link_all_returns; [exact Hr | exact Hs | lia].
  - exfalso. apply Hno. left.
    rewrite (rd_rank _ _ _ _ _ _ Hr). apply (rd_ndims _ _ _ _ _ _ Hr).
Qed.

Lemma fill_coord_returns s d z g w :
  Ready g -> s < n -> d < r -> is_Some (coord_at g s d) ->
  exists g' w', fill_coord s d z g w = (Ok tt, g', w') /\ Carry g g'.
Proof.
  intros Hr Hs Hd [c Hc].
  destruct (get_coord_returns s d g w Hr Hs Hd) as [c' E].
  pose proof (get_coord_ok _ _ _ _ _ _ _ E) as (_ & _ & Hc').
  rewrite Hc in Hc'. subst c'.
  unfold fill_coord. step_with E. destruct c as [t sh dat | t sh b]; simpl.
  - destruct (set_coord_returns s d
               (Owned t sh (replicate (length dat) (Some (cast t z)))) g w Hr Hs Hd)
      as (g1 & E1 & C1).
    exists g1, w. split; [exact E1 | exact C1].
  - eexists g, _. split; [reflexivity | apply carry_refl; exact Hr].
Qed.

Lemma when_zero_returns s g w :
  Ready g -> s < n -> 2 <= r -> _size g !! s = Some (Some (szf s)) ->
  exists g', when (bool_decide (_rank g = 3)) (zero_coord s 2) g w = (Ok tt, g', w)
             /\ Carry g g'.
Proof using Hsteady.
  intros Hr Hs Hk Hz. destruct (bool_decide (_rank g = 3)) eqn:Eb; simpl.
  - apply bool_decide_eq_true in Eb. rewrite (rd_rank _ _ _ _ _ _ Hr) in Eb.
    apply zero_coord_returns; [exact Hr | exact Hs | lia | exact Hz].
  - exists g. split; [reflexivity | apply carry_refl; exact Hr].
Qed.

Lemma when_fill_returns (b : bool) s z g w :
  Ready g -> s < n -> 2 <= r -> (b = true -> is_Some (coord_at g s 2) /\ 2 < r) ->
  exists g' w', when b (fill_coord s 2 z) g w = (Ok tt, g', w') /\ Carry g g'.
Proof.
  intros Hr Hs Hk Hb. destruct b; simpl.
  - destruct Hb as [Hc Hd]; [reflexivity|]. apply fill_coord_returns; assumption.
  - exists g, w. split; [reflexivity | apply carry_refl; exact Hr].
Qed.

(** The allocation of the coordinates of a location returns. *)
Lemma allocate_coords_returns s ff g w :
  Ready g -> s < n -> 2 <= r ->
  exists g' w',
    _allocate_coords_ s ff g w = (Ok tt, g', w')
    /\ Ready g' /\ same_items g g' /\ _staggerloc g' = _staggerloc g.
Proof using Hsteady.
  intros Hr Hs Hk. unfold _allocate_coords_.
  destruct (verify_returns s g w Hr Hs) as (g1 & w1 & E1 & R1 & Z1 & I1 & _ & F1).
  step_with E1.
  destruct (zero_coord_returns s 0 g1 w1 R1 Hs) as (g2 & E2 & C2); [lia | exact Z1 |].
  step_with E2.
  assert (Z2 : _size g2 !! s = Some (Some (szf s)))
    by (rewrite (carry_size g1 g2 s); [exact Z1 | apply C2]).
  destruct (zero_coord_returns s 1 g2 w1) as (g3 & E3 & C3);
    [apply C2 | exact Hs | lia | exact Z2 |].
  step_with E3. step.
  assert (Z3 : _size g3 !! s = Some (Some (szf s)))
    by (rewrite (carry_size g2 g3 s); [exact Z2 | apply C3]).
  destruct (when_zero_returns s g3 w1) as (g4 & E4 & C4);
    [apply C3 | exact Hs | exact Hk | exact Z3 |].
  step_with E4.
  destruct (link_coords_returns s g4 w1) as (g5 & w5 & E5 & C5); [apply C4 | exact Hs |].
  step_with E5.
  assert (R4 : Ready g4) by apply C4.
  assert (R5 : Ready g5) by apply C5.
  assert (Hall : forall d, d < r -> is_Some (coord_at g5 s d)).
  { intros d Hd. eapply link_coords_post; [|exact E5|].
    - left. rewrite (rd_rank _ _ _ _ _ _ R4). apply (rd_ndims _ _ _ _ _ _ R4).
    - rewrite (rd_rank _ _ _ _ _ _ R4). exact Hd. }
  assert (C15 : Carry g1 g5).
  { eapply carry_trans; [exact C2|]. eapply carry_trans; [exact C3|].
    eapply carry_trans; [exact C4 | exact C5]. }
  destruct ff; simpl.
  - exists g5, w5. split; [reflexivity|]. destruct C15 as (R & I & _ & F).
    split; [exact R|]. split; [eapply same_items_trans; eauto | congruence].
  - destruct (fill_coord_returns s 0 0%Z g5 w5 R5 Hs) as (g6 & w6 & E6 & C6);
      [lia | apply Hall; lia |].
    step_with E6. frame_of E6 as K6.
    destruct (fill_coord_returns s 1 0%Z g6 w6) as (g7 & w7 & E7 & C7);
      [apply C6 | exact Hs | lia
       | eapply fr_coords_mono; [exact K6 | apply Hall; lia] |].
    step_with E7. frame_of E7 as K7.
    destruct (when_fill_returns (bool_decide (_rank g3 = 3)) s 0%Z g7 w7)
      as (g8 & w8 & E8 & C8); [apply C7 | exact Hs | exact Hk | |].
    { intros Eb. apply bool_decide_eq_true in Eb.
      assert (R3 : Ready g3) by apply C3.
      rewrite (rd_rank _ _ _ _ _ _ R3) in Eb. split; [|lia].
      eapply fr_coords_mono; [exact K7|].
      eapply fr_coords_mono; [exact K6 | apply Hall; lia]. }
    exists g8, w8. split; [exact E8|].
    assert (C18 : Carry g1 g8).
    { eapply carry_trans; [exact C15|]. eapply carry_trans; [exact C6|].
      eapply carry_trans; [exact C7 | exact C8]. }
    destruct C18 as (R & I & _ & F).
    split; [exact R|]. split; [eapply same_items_trans; eauto | congruence].
Qed.

Lemma ready_set_flag s v g : Ready g -> Ready (set_staggerloc (<[s := v]> (_staggerloc g)) g).
Proof.
  intros Hr. destruct Hr. constructor; simpl; auto.
  rewrite length_insert. assumption.
Qed.

(** One iteration of [add_coords] returns. *)
Lemma add_coords_at_returns ff s g w :
  Ready g -> s < n -> 2 <= r ->
  exists g' w', add_coords_at ff s g w = (Ok tt, g', w') /\ Ready g' /\ same_items g g'.
Proof using Hsteady.
  intros Hr Hs Hk. unfold add_coords_at.
  destruct (get_coord_returns s 0 g w Hr Hs) as [c E]; [lia|].
  step_with E. destruct c as [c|].
  - eexists g, _. split; [reflexivity|]. split; [exact Hr | apply same_items_refl].
  - assert (exists w1,
      when (negb ff)
        (bind self (fun g0 => native (CGridAddCoord (_struct g0) s)
                                     (ESMP_GridAddCoord esmp (_struct g0) s))) g w
      = (Ok tt, g, w1)) as [w1 E1].
    { destruct ff; simpl; [eexists; reflexivity|]. step.
      destruct (native_returns (CGridAddCoord (_struct g) s)
                  (ESMP_GridAddCoord esmp (_struct g) s) g w) as ([] & w1 & E1).
      - intros st m. exists tt. eapply st_add_coord, Hsteady.
      - exists w1. exact E1. }
    step_with E1.
    destruct (allocate_coords_returns s ff g w1 Hr Hs Hk) as (g2 & w2 & E2 & R2 & I2 & F2).
    step_with E2. rewrite set_flag_run by (rewrite (rd_flags _ _ _ _ _ _ R2); exact Hs).
    eexists _, w2. split; [reflexivity|]. split; [apply ready_set_flag; exact R2|].
    destruct I2. split; simpl; assumption.
Qed.

Lemma add_coords_loop_returns ff (l : list nat) : forall g w,
  Ready g -> (forall s, s ∈ l -> s < n) -> 2 <= r ->
  exists g' w',
    for_each l (add_coords_at ff) g w = (Ok tt, g', w') /\ Ready g' /\ same_items g g'.
Proof using Hsteady.
  induction l as [|x l IH]; intros g w Hr Hl Hk.
  - exists g, w. split; [reflexivity|]. split; [exact Hr | apply same_items_refl].
  - simpl.
    destruct (add_coords_at_returns ff x g w Hr) as (g1 & w1 & E1 & R1 & I1);
      [apply Hl; left | exact Hk |].
    step_with E1.
    destruct (IH g1 w1 R1) as (g2 & w2 & E2 & R2 & I2);
      [intros s Hs; apply Hl; right; exact Hs | exact Hk |].
    exists g2, w2. split; [exact E2|]. split; [exact R2 | eapply same_items_trans; eauto].
Qed.

(** [add_coords] returns on every ready Grid of rank 2 or 3, for locations
    within the shadow lists. *)
Lemma add_coords_returns sl cd ff g w :
  Ready g -> (forall s, s ∈ normalize sl -> s < n) -> 2 <= r ->
  (forall d, cd = Some d -> d < r) ->
  exists o g' w',
    add_coords sl cd ff g w = (Ok o, g', w') /\ Ready g' /\ same_items g g'.
Proof using Hsteady.
  intros Hr Hl Hk Hd. unfold add_coords.
  destruct (add_coords_loop_returns ff (normalize sl) g w Hr Hl Hk) as (g1 & w1 & E1 & R1 & I1).
  step_with E1.
  destruct (normalize sl) as [|s [|s' l]] eqn:En; try (eexists None, g1, w1; split; [reflexivity | split; assumption]).
  destruct cd as [d|]; [|eexists None, g1, w1; split; [reflexivity | split; assumption]].
  destruct (get_coord_returns s d g1 w1 R1) as [c E]; [apply Hl; left | apply Hd; reflexivity |].
  exists c, g1, w1. split; [exact E | split; assumption].
Qed.

(** *** Items *)

#[local] Abbreviation Carry_item item g g' :=
  (Ready g' /\ _staggerloc g' = _staggerloc g /\ other_items item g g').

Lemma other_items_refl item g : other_items item g g.
Proof. destruct item; simpl; try reflexivity. apply same_items_refl. Qed.

Lemma other_items_trans item g1 g2 g3 :
  other_items item g1 g2 -> other_items item g2 g3 -> other_items item g1 g3.
Proof. destruct item; simpl; try congruence. apply same_items_trans. Qed.

Lemma same_items_other item g g' : same_items g g' -> other_items item g g'.
Proof. intros [Hm Ha]. destruct item; simpl; auto. split; assumption. Qed.

Lemma carry_item_refl item g : Ready g -> Carry_item item g g.
Proof. intros Hr. split; [exact Hr|]. split; [reflexivity | apply other_items_refl]. Qed.

Lemma carry_item_trans item g1 g2 g3 :
  Carry_item item g1 g2 -> Carry_item item g2 g3 -> Carry_item item g1 g3.
Proof.
  intros (_ & F1 & O1) (R2 & F2 & O2). split; [exact R2|].
  split; [congruence | eapply other_items_trans; eauto].
Qed.

Lemma get_item_slot_returns item s g w :
  item = MASK \/ item = AREA -> Ready g -> s < n ->
  get_item_slot item s g w = (Ok (item_at item g s), g, w).
Proof.
  intros Hitem Hr Hs. unfold get_item_slot. step.
  destruct Hitem as [-> | ->]; simpl; unfold lift, py_get.
  - destruct (lookup_lt_is_Some_2 (_mask g) s) as [x Hx];
      [rewrite (rd_mask _ _ _ _ _ _ Hr); exact Hs|].
    unfold mask_at. rewrite Hx. reflexivity.
  - destruct (lookup_lt_is_Some_2 (_area g) s) as [x Hx];
      [rewrite (rd_area _ _ _ _ _ _ Hr); exact Hs|].
    unfold area_at. rewrite Hx. reflexivity.
Qed.

Lemma set_item_slot_returns item s x g w :
  item = MASK \/ item = AREA -> Ready g -> s < n ->
  exists g', set_item_slot item s x g w = (Ok tt, g', w) /\ Carry_item item g g'.
Proof.
  intros Hitem Hr Hs. unfold set_item_slot. step.
  destruct Hitem as [-> | ->]; unfold py_set.
  - destruct (decide (s < length (_mask g))) as [_|Hno];
      [|rewrite (rd_mask _ _ _ _ _ _ Hr) in Hno; contradiction].
    step. eexists. split; [reflexivity|]. split; [|split; reflexivity].
    destruct Hr. constructor; simpl; auto. rewrite length_insert. assumption.
  - destruct (decide (s < length (_area g))) as [_|Hno];
      [|rewrite (rd_area _ _ _ _ _ _ Hr) in Hno; contradiction].
    step. eexists. split; [reflexivity|]. split; [|split; reflexivity].
    destruct Hr. constructor; simpl; auto. rewrite length_insert. assumption.
Qed.

Lemma link_item_buffer_returns item s g w :
  item = MASK \/ item = AREA -> Ready g -> s < n ->
  exists g' w',
    _link_item_buffer_ item s g w = (Ok tt, g', w') /\ Carry_item item g g'
    /\ is_Some (item_at item g' s).
Proof using Hsteady.
  intros Hitem Hr Hs.
  destruct (st_size _ _ _ Hsteady s) as [Hsub Hnn].
  unfold _link_item_buffer_. step.
  destruct (native_returns (CGridGetItem (_struct g) item s)
              (ESMP_GridGetItem esmp (_struct g) item s) g w) as (p & w1 & E1).
  { intros st m. eapply st_get_item, Hsteady. }
  step_with E1.
  destruct (get_bounds_returns g s g w1) as (w2 & E2). step_with E2.
  destruct (set_item_slot_returns item s (Alias (item_type item) (szf s) p) g w2 Hitem Hr Hs)
    as (g1 & E3 & C3).
  exists g1, w2.
  assert (bind (lift (np_sub (ubf s) (lbf s)))
            (fun d => bind (lift (ndarray_from_esmf p (item_type item) d))
                        (fun a => set_item_slot item s a)) g w2 = (Ok tt, g1, w2)) as E.
  { rewrite Hsub. step. unfold ndarray_from_esmf. rewrite Hnn. step. exact E3. }
  split; [destruct Hitem as [-> | ->]; exact E|].
  split; [exact C3|].
  apply item_at_set in E3 as [-> _]. eauto.
Qed.

Lemma fill_item_returns item s z g w :
  item = MASK \/ item = AREA -> Ready g -> s < n -> is_Some (item_at item g s) ->
  exists g' w', fill_item item s z g w = (Ok tt, g', w') /\ Carry_item item g g'.
Proof.
  intros Hitem Hr Hs [c Hc]. unfold fill_item.
  rewrite (bind_run _ _ _ _ _ _ _ (get_item_slot_returns item s g w Hitem Hr Hs)).
  rewrite Hc. destruct c as [t sh dat | t sh b]; simpl.
  - destruct (set_item_slot_returns item s
               (Owned t sh (replicate (length dat) (Some (cast t z)))) g w Hitem Hr Hs)
      as (g1 & E1 & C1).
    exists g1, w. split; [exact E1 | exact C1].
  - eexists g, _. split; [reflexivity | apply carry_item_refl; exact Hr].
Qed.

(** The allocation of an item returns. *)
Lemma allocate_items_returns item s ff g w :
  item = MASK \/ item = AREA -> Ready g -> s < n ->
  exists g' w', _allocate_items_ item s ff g w = (Ok tt, g', w') /\ Carry_item item g g'.
Proof using Hsteady.
  intros Hitem Hr Hs.
  destruct (st_size _ _ _ Hsteady s) as [_ Hnn].
  unfold _allocate_items_.
  destruct (verify_returns s g w Hr Hs) as (g1 & w1 & E1 & R1 & Z1 & I1 & _ & F1).
  step_with E1.
  destruct (set_item_slot_returns item s
              (Owned (item_type item) (szf s)
                 (replicate (nelems (szf s)) (Some (cast (item_type item) 0)))) g1 w1
              Hitem R1 Hs) as (g2 & E2 & C2).
  assert (bind (get_size s)
            (fun sz => bind (lift (np_zeros sz (item_type item)))
                         (fun z => set_item_slot item s z)) g1 w1 = (Ok tt, g2, w1)) as E.
  { assert (get_size s g1 w1 = (Ok (Some (szf s)), g1, w1)) as Eg
      by (rewrite get_size_run; unfold py_get; rewrite Z1; reflexivity).
    step_with Eg. unfold np_zeros. rewrite Hnn. step. exact E2. }
  assert (C02 : Carry_item item g g2).
  { eapply carry_item_trans; [|exact C2].
    split; [exact R1|]. split; [exact F1 | apply same_items_other; exact I1]. }
  destruct (link_item_buffer_returns item s g2 w1 Hitem) as (g3 & w3 & E3 & C3 & S3);
    [apply C2 | exact Hs |].
  assert (C03 : Carry_item item g g3) by (eapply carry_item_trans; eauto).
  destruct ff.
  - exists g3, w3. split; [|exact C03].
    destruct Hitem as [-> | ->]; step_with E; step_with E3; reflexivity.
  - destruct (fill_item_returns item s (fill_value item) g3 w3 Hitem) as (g4 & w4 & E4 & C4);
      [apply C3 | exact Hs | exact S3 |].
    exists g4, w4. split; [|eapply carry_item_trans; eauto].
    destruct Hitem as [-> | ->]; step_with E; step_with E3; exact E4.
Qed.

(** [add_item] returns on a ready Grid whose slot for the item is empty. *)
Lemma add_item_returns item s ff g w :
  item = MASK \/ item = AREA -> Ready g -> s < n -> item_at item g s = None ->
  exists o g' w',
    add_item item (Some (One s)) ff g w = (Ok o, g', w') /\ Carry_item item g g'.
Proof using Hsteady.
  intros Hitem Hr Hs Hnone. unfold add_item. simpl normalize.
  assert (item_check item s g w = (Ok false, g, w)) as Ec.
  { unfold item_check.
    assert (bind (get_item_slot item s)
              (fun a => match a with
                        | Some _ => raise GridItemAlreadyLinked
                        | None => ret false
                        end) g w = (Ok false, g, w)) as E.
    { rewrite (bind_run _ _ _ _ _ _ _ (get_item_slot_returns item s g w Hitem Hr Hs)).
      rewrite Hnone. reflexivity. }
    destruct Hitem as [-> | ->]; exact E. }
  assert (exists w1,
    when (negb ff)
      (bind self (fun g0 => native (CGridAddItem (_struct g0) item s)
                                   (ESMP_GridAddItem esmp (_struct g0) item s))) g w
    = (Ok tt, g, w1)) as [w1 E1].
  { destruct ff; simpl; [eexists; reflexivity|]. step.
    destruct (native_returns (CGridAddItem (_struct g) item s)
                (ESMP_GridAddItem esmp (_struct g) item s) g w) as ([] & w1 & E1).
    - intros st m. exists tt. eapply st_add_item, Hsteady.
    - exists w1. exact E1. }
  destruct (allocate_items_returns item s ff g w1 Hitem Hr Hs) as (g2 & w2 & E2 & C2).
  assert (R2 : Ready g2) by apply C2.
  exists (item_at item g2 s), g2, w2. split; [|exact C2].
  assert (add_item_loop item ff [s] true g w = (Ok tt, g2, w2)) as El.
  { simpl add_item_loop. step_with Ec. simpl negb. unfold when at 1. cbv beta iota.
    assert (bind (when (negb ff)
                    (bind self (fun g0 => native (CGridAddItem (_struct g0) item s)
                                            (ESMP_GridAddItem esmp (_struct g0) item s))))
              (fun _ => _allocate_items_ item s ff) g w = (Ok tt, g2, w2)) as Ea
      by (step_with E1; exact E2).
    step_with Ea. reflexivity. }
  step_with El. apply get_item_slot_returns; assumption.
Qed.

End Steady.

(** ** The in-memory constructor returns

    On a steady native side the constructor, called with a [max_index] of
    at least two entries, zero or one periodic dimension and locations
    within the [2 ** rank] entries of the shadow lists, returns a Grid. *)

Lemma when_warn_returns b msg g w : exists w', when b (warn msg) g w = (Ok tt, g, w').
Proof. destruct b; simpl; eexists; reflexivity. Qed.

Ltac skip_warning :=
  lazymatch goal with
  | |- context [bind (when ?b (warn ?msg)) ?k ?g ?w] =>
      let w' := fresh "w" in
      let E := fresh "E" in
      destruct (when_warn_returns b msg g w) as [w' E];
      rewrite (bind_run (when b (warn msg)) k g w tt g w' E); clear E; cbv beta
  end.

Lemma check_args_returns a mi g w :
  a_max_index a = Some mi ->
  exists w', check_args a g w = (Ok InMemory, set_max_index (wrap32 <$> mi) g, w').
Proof.
  intros Hmi. unfold check_args. rewrite Hmi.
  erewrite bind_run by reflexivity. cbv beta.
  do 10 skip_warning. eexists. reflexivity.
Qed.

Lemma reset_attributes_returns a g w :
  exists g', reset_attributes a g w = (Ok tt, g', w).
Proof. eexists. reflexivity. Qed.

Lemma create_in_memory_returns lbf ubf szf a g w :
  steady lbf ubf szf ->
  _num_peri_dims g = 0%Z \/ _num_peri_dims g = 1%Z ->
  exists g' w', create_in_memory a g w = (Ok (a_staggerloc a), g', w').
Proof.
  intros Hst Hn. unfold create_in_memory.
  erewrite bind_run by reflexivity. cbv beta.
  destruct (decide (_num_peri_dims g = 0%Z)) as [E0|N0].
  - destruct (native_returns CGridCreateNoPeriDim
                (ESMP_GridCreateNoPeriDim esmp (_max_index g) (a_coord_sys a)
                   (a_coord_typekind a)) g w) as (h & w1 & E1).
    { intros st m. eapply st_create0, Hst. }
    exists (set_ndims (length (_max_index g))
              (set_rank (length (_max_index g)) (set_struct (Some h) g))), w1.
    unfold bind at 1. unfold bind at 1. rewrite E1. reflexivity.
  - destruct (decide (_num_peri_dims g = 1%Z)) as [E1|N1]; [|exfalso; tauto].
    destruct (native_returns CGridCreate1PeriDim
                (ESMP_GridCreate1PeriDim esmp (_max_index g) (a_periodic_dim a)
                   (a_pole_dim a) (a_coord_sys a) (a_coord_typekind a)) g w)
      as (h & w1 & E2).
    { intros st m. eapply st_create1, Hst. }
    unfold bind at 1. unfold bind at 1. rewrite E2.
    destruct (a_periodic_dim a); eexists _, w1; reflexivity.
Qed.

Lemma shadow_lists_returns g w : exists g', shadow_lists g w = (Ok tt, g', w).
Proof. unfold shadow_lists, bind, self, modify. eexists. reflexivity. Qed.

Lemma shadow_lists_ready lbf ubf szf u g w g' w' :
  shadow_lists g w = (Ok u, g', w') -> _ndims g = _rank g ->
  ready lbf ubf szf (2 ^ _rank g) (_rank g) g'
  /\ (forall item s, item_at item g' s = None).
Proof.
  intros H Hn. apply shadow_lists_post in H
    as (_ & _ & Hr & Hd & _ & _ & _ & _ & Hf & Hc & Hl & Hu & Hz & Hm & Ha).
  split.
  - constructor; try congruence;
      try (match goal with |- length ?l = _ => first
             [rewrite Hf | rewrite Hl | rewrite Hu | rewrite Hz | rewrite Hm | rewrite Ha
             | rewrite Hc] end; apply length_replicate).
    + intros i row Hi. rewrite Hc in Hi. apply lookup_replicate in Hi as [-> _].
      apply length_replicate.
    + intros s clb Hs. rewrite Hl in Hs. apply lookup_replicate in Hs as [Hs _].
      discriminate.
  - intros item s. destruct item; simpl; [| |reflexivity].
    + unfold mask_at. rewrite Hm.
      destruct (replicate (2 ^ _rank g) (@None ndarray) !! s) as [x|] eqn:E; [|reflexivity].
      apply lookup_replicate in E as [-> _]. reflexivity.
    + unfold area_at. rewrite Ha.
      destruct (replicate (2 ^ _rank g) (@None ndarray) !! s) as [x|] eqn:E; [|reflexivity].
      apply lookup_replicate in E as [-> _]. reflexivity.
Qed.

Lemma item_at_same item g g' s : same_items g g' -> item_at item g' s = item_at item g s.
Proof.
  intros [Hm Ha]. destruct item; simpl; [| |reflexivity].
  - unfold mask_at. rewrite Hm. reflexivity.
  - unfold area_at. rewrite Ha. reflexivity.
Qed.

Lemma populate_returns lbf ubf szf n r a st ff g w :
  steady lbf ubf szf -> ready lbf ubf szf n r g -> 2 <= r ->
  (forall s, s ∈ requested st -> s < n) ->
  (truthy (a_add_user_area a) || truthy (a_add_mask a) = true -> CENTER loc < n) ->
  (forall item, item_at item g (CENTER loc) = None) ->
  exists g' w',
    populate a st ff g w = (Ok tt, g', w') /\ ready lbf ubf szf n r g'
    /\ (truthy (a_add_user_area a) = false -> _area g' = _area g)
    /\ (truthy (a_add_mask a) = false -> _mask g' = _mask g).
Proof.
  intros Hst Hr Hk Hreq Hcen Hnone. unfold populate.
  assert (exists g1 w1,
    when (given st) (bind (add_coords st None ff) (fun _ => ret tt)) g w = (Ok tt, g1, w1)
    /\ ready lbf ubf szf n r g1 /\ same_items g g1) as (g1 & w1 & E1 & R1 & I1).
  { destruct st as [x|]; simpl.
    - destruct (add_coords_returns lbf ubf szf Hst n r (Some x) None ff g w Hr)
        as (o & g1 & w1 & E & R & I); [exact Hreq | exact Hk | discriminate |].
      exists g1, w1. split; [|split; assumption].
      erewrite bind_run by exact E. reflexivity.
    - exists g, w. split; [reflexivity|]. split; [exact Hr | apply same_items_refl]. }
  erewrite bind_run by exact E1. cbv beta.
  assert (exists g2 w2,
    when (truthy (a_add_user_area a))
      (bind (add_item AREA (Some (One (CENTER loc))) ff) (fun _ => ret tt)) g1 w1
    = (Ok tt, g2, w2)
    /\ ready lbf ubf szf n r g2 /\ _mask g2 = _mask g1
    /\ (truthy (a_add_user_area a) = false -> _area g2 = _area g1))
    as (g2 & w2 & E2 & R2 & M2 & A2).
  { destruct (truthy (a_add_user_area a)) eqn:Ea; simpl.
    - destruct (add_item_returns lbf ubf szf Hst n r AREA (CENTER loc) ff g1 w1)
        as (o & g2 & w2 & E & R & _ & O); [right; reflexivity | exact R1 | | |].
      + apply Hcen. reflexivity.
      + rewrite (item_at_same AREA g g1) by exact I1. apply Hnone.
      + exists g2, w2. split; [|split; [exact R | split; [exact O | discriminate]]].
        erewrite bind_run by exact E. reflexivity.
    - exists g1, w1. split; [reflexivity|]. split; [exact R1|]. split; reflexivity. }
  erewrite bind_run by exact E2. cbv beta.
  destruct I1 as [Im Ia].
  destruct (truthy (a_add_mask a)) eqn:Em; simpl.
  - destruct (add_item_returns lbf ubf szf Hst n r MASK (CENTER loc) ff g2 w2)
      as (o & g3 & w3 & E & R & _ & O); [left; reflexivity | exact R2 | | |].
    + apply Hcen. apply orb_true_r.
    + simpl. unfold mask_at. rewrite M2, Im. apply (Hnone MASK).
    + exists g3, w3. split; [erewrite bind_run by exact E; reflexivity|].
      split; [exact R|]. split; [|discriminate].
      intros Hf. simpl in O. rewrite O, (A2 Hf). exact Ia.
  - exists g2, w2. split; [reflexivity|]. split; [exact R2|]. split.
    + intros Hf. rewrite (A2 Hf). exact Ia.
    + intros _. rewrite M2. exact Im.
Qed.

Lemma ready_set_finalized lbf ubf szf n r v g :
  ready lbf ubf szf n r g -> ready lbf ubf szf n r (set_finalized v g).
Proof. intros Hr. destruct Hr. constructor; simpl; auto. Qed.

(** The constructor body returns, and the Grid it leaves is ready; an
    item that was not asked for is absent everywhere. *)
Lemma init_in_memory_returns lbf ubf szf a mi g w :
  steady lbf ubf szf ->
  a_max_index a = Some mi -> 2 <= length mi ->
  default 0%Z (a_num_peri_dims a) = 0%Z \/ default 0%Z (a_num_peri_dims a) = 1%Z ->
  (forall s, s ∈ requested (a_staggerloc a) -> s < 2 ^ length mi) ->
  (truthy (a_add_user_area a) || truthy (a_add_mask a) = true ->
   CENTER loc < 2 ^ length mi) ->
  exists g' w',
    __init__ a g w = (Ok tt, g', w')
    /\ ready lbf ubf szf (2 ^ length mi) (length mi) g'
    /\ (truthy (a_add_user_area a) = false -> forall s, item_at AREA g' s = None)
    /\ (truthy (a_add_mask a) = false -> forall s, item_at MASK g' s = None).
Proof.
  intros Hst Hmi Hk Hnp Hreq Hcen. unfold __init__.
  destruct (check_args_returns a mi g w Hmi) as [w1 E1].
  erewrite bind_run by exact E1. cbv beta.
  destruct (reset_attributes_returns a (set_max_index (wrap32 <$> mi) g) w1) as [g2 E2].
  erewrite bind_run by exact E2. cbv beta iota.
  pose proof (reset_attributes_post _ _ _ _ _ _ E2) as (_ & Hmi2 & _ & _ & _ & Hn2).
  destruct (create_in_memory_returns lbf ubf szf a g2 w1 Hst) as (g3 & w3 & E3);
    [rewrite Hn2; exact Hnp|].
  erewrite bind_run by exact E3. cbv beta.
  pose proof (create_in_memory_post _ _ _ _ _ _ E3) as (_ & _ & Hr3 & Hd3 & _).
  erewrite bind_run by reflexivity. cbv beta.
  destruct (shadow_lists_returns (set_type (default R8 (a_coord_typekind a)) g3) w3)
    as [g4 E4].
  erewrite bind_run by exact E4. cbv beta.
  assert (Hlen : _rank (set_type (default R8 (a_coord_typekind a)) g3) = length mi).
  { simpl. rewrite Hr3, Hmi2. simpl. apply length_fmap. }
  destruct (shadow_lists_ready lbf ubf szf _ _ _ _ _ E4) as [R4 N4].
  { simpl. congruence. }
  rewrite Hlen in R4.
  destruct (populate_returns lbf ubf szf _ _ a (a_staggerloc a) false g4 w3 Hst R4 Hk Hreq Hcen)
    as (g5 & w5 & E5 & R5 & A5 & M5); [intros item; apply N4|].
  erewrite bind_run by exact E5. cbv beta.
  eexists _, w5. split; [reflexivity|].
  split; [apply ready_set_finalized; exact R5|]. split.
  - intros Hf s. simpl. unfold area_at. simpl. rewrite (A5 Hf). apply (N4 AREA).
  - intros Hf s. simpl. unfold mask_at. simpl. rewrite (M5 Hf). apply (N4 MASK).
Qed.

(** The expression [Grid(...)] returns. *)
Lemma Grid_call_returns lbf ubf szf a mi w :
  steady lbf ubf szf ->
  a_max_index a = Some mi -> 2 <= length mi ->
  default 0%Z (a_num_peri_dims a) = 0%Z \/ default 0%Z (a_num_peri_dims a) = 1%Z ->
  (forall s, s ∈ requested (a_staggerloc a) -> s < 2 ^ length mi) ->
  (truthy (a_add_user_area a) || truthy (a_add_mask a) = true ->
   CENTER loc < 2 ^ length mi) ->
  exists g w',
    Grid_call a w = (Ok tt, g, w')
    /\ ready lbf ubf szf (2 ^ length mi) (length mi) g
    /\ (truthy (a_add_user_area a) = false -> forall s, item_at AREA g s = None)
    /\ (truthy (a_add_mask a) = false -> forall s, item_at MASK g s = None).
Proof.
  intros Hst Hmi Hk Hnp Hreq Hcen. unfold Grid_call, initialize.
  destruct (native_returns CManager (esmp_manager esmp) blank w) as ([] & w1 & E1).
  { intros st m. exists tt. eapply st_manager, Hst. }
  erewrite bind_run by exact E1. cbv beta.
  apply (init_in_memory_returns lbf ubf szf a mi); assumption.
Qed.

(** ** What no outcome changes *)

Section Stays.

Variable R : Grid -> Grid -> Prop.
Hypothesis R_refl : forall g, R g g.
Hypothesis R_trans : forall g1 g2 g3, R g1 g2 -> R g2 g3 -> R g1 g3.

Lemma stays_bind {A B} (m : M A) (k : A -> M B) :
  stays R m -> (forall a, stays R (k a)) -> stays R (bind m k).
Proof using R_trans.
  intros Hm Hk g w. unfold bind. specialize (Hm g w).
  destruct (m g w) as [[[a|e] g1] w1]; simpl in *.
  - eapply R_trans; [exact Hm | apply Hk].
  - exact Hm.
Qed.

Lemma stays_ret {A} (x : A) : stays R (ret x).
Proof using R_refl. intros g w. apply R_refl. Qed.

Lemma stays_raise {A} e : stays R (@raise A e).
Proof using R_refl. intros g w. apply R_refl. Qed.

Lemma stays_lift {A} (r : result A) : stays R (lift r).
Proof using R_refl. intros g w. apply R_refl. Qed.

Lemma stays_self : stays R self.
Proof using R_refl. intros g w. apply R_refl. Qed.

Lemma stays_the_mem : stays R the_mem.
Proof using R_refl. intros g w. apply R_refl. Qed.

Lemma stays_warn msg : stays R (warn msg).
Proof using R_refl. intros g w. apply R_refl. Qed.

Lemma stays_write_mem b n v : stays R (write_mem b n v).
Proof using R_refl. intros g w. apply R_refl. Qed.

Lemma stays_native {A} c (op : NativeOp St A) : stays R (native c op).
Proof using R_refl.
  intros g w. unfold native. destruct (op (nstate w) (mem w)) as [[r s1] m1]. apply R_refl.
Qed.

Lemma stays_assert b : stays R (assert b).
Proof using R_refl. intros g w. destruct b; apply R_refl. Qed.

Lemma stays_try_except {A} (m : M A) e : stays R m -> stays R (try_except m e).
Proof.
  intros Hm g w. unfold try_except. specialize (Hm g w).
  destruct (m g w) as [[[a|e'] g1] w1]; exact Hm.
Qed.

Lemma stays_when b m : stays R m -> stays R (when b m).
Proof using R_refl. intros Hm. destruct b; [exact Hm | apply stays_ret]. Qed.

Lemma stays_for_each {A} (l : list A) (body : A -> M unit) :
  (forall x, x ∈ l -> stays R (body x)) -> stays R (for_each l body).
Proof using R_refl R_trans.
  induction l as [|x l IH]; intros Hb; simpl.
  - apply stays_ret.
  - apply stays_bind.
    + apply Hb. left.
    + intros _. apply IH. intros y Hy. apply Hb. right. exact Hy.
Qed.

Lemma stays_modify f : (forall g, R g (f g)) -> stays R (modify f).
Proof. intros Hf g w. apply Hf. Qed.

(** The writes of the methods: a slot of a shadow list is assigned in
    place, and [has_corners] and [finalized] are set. *)
Hypothesis W_coords : forall g s row d x,
  _coords g !! s = Some row -> d < length row ->
  R g (set_coords (<[s := <[d := x]> row]> (_coords g)) g).
Hypothesis W_mask : forall g s x,
  s < length (_mask g) -> R g (set_mask (<[s := x]> (_mask g)) g).
Hypothesis W_area : forall g s x,
  s < length (_area g) -> R g (set_area (<[s := x]> (_area g)) g).
Hypothesis W_lower : forall g s x,
  s < length (_lower_bounds g) -> R g (set_lower_bounds (<[s := x]> (_lower_bounds g)) g).
Hypothesis W_upper : forall g s x,
  s < length (_upper_bounds g) -> R g (set_upper_bounds (<[s := x]> (_upper_bounds g)) g).
Hypothesis W_size : forall g s x,
  s < length (_size g) -> R g (set_size (<[s := x]> (_size g)) g).
Hypothesis W_flag : forall g s x,
  s < length (_staggerloc g) -> R g (set_staggerloc (<[s := x]> (_staggerloc g)) g).
Hypothesis W_corners : forall g b, R g (set_has_corners b g).

Lemma stays_set_coord s d x : stays R (set_coord s d x).
Proof using R_refl W_coords.
  intros g w. unfold set_coord, bind, self, lift, modify, py_get, py_set.
  destruct (_coords g !! s) as [row|] eqn:Hrow; simpl; [|apply R_refl].
  destruct (decide (d < length row)); simpl; [|apply R_refl].
  apply W_coords; assumption.
Qed.

Lemma stays_set_item_slot item s x : stays R (set_item_slot item s x).
Proof using R_refl W_mask W_area.
  intros g w. unfold set_item_slot, bind, self, lift, modify, py_set, raise.
  destruct item; simpl; [| |apply R_refl].
  - destruct (decide (s < length (_mask g))); simpl; [apply W_mask; assumption | apply R_refl].
  - destruct (decide (s < length (_area g))); simpl; [apply W_area; assumption | apply R_refl].
Qed.

Lemma stays_set_lower s v : stays R (set_lower s v).
Proof using R_refl W_lower.
  intros g w. unfold set_lower, bind, self, lift, modify, py_set.
  destruct (decide (s < length (_lower_bounds g))); simpl;
    [apply W_lower; assumption | apply R_refl].
Qed.

Lemma stays_set_upper s v : stays R (set_upper s v).
Proof using R_refl W_upper.
  intros g w. unfold set_upper, bind, self, lift, modify, py_set.
  destruct (decide (s < length (_upper_bounds g))); simpl;
    [apply W_upper; assumption | apply R_refl].
Qed.

Lemma stays_set_size_at s v : stays R (set_size_at s v).
Proof using R_refl W_size.
  intros g w. unfold set_size_at, bind, self, lift, modify, py_set.
  destruct (decide (s < length (_size g))); simpl;
    [apply W_size; assumption | apply R_refl].
Qed.

Lemma stays_set_flag s v : stays R (set_flag s v).
Proof using R_refl W_flag.
  intros g w. unfold set_flag, bind, self, lift, modify, py_set.
  destruct (decide (s < length (_staggerloc g))); simpl;
    [apply W_flag; assumption | apply R_refl].
Qed.

Lemma stays_has_corners b : stays R (modify (set_has_corners b)).
Proof using W_corners. apply stays_modify. intros g. apply W_corners. Qed.

(** [sty] walks the body of a method, rule by rule. *)
Ltac sty :=
  repeat first
    [ assumption
    | match goal with H : forall _, stays _ _ |- _ => apply H end
    | match goal with H : forall _ _, stays _ _ |- _ => apply H end
    | apply stays_ret | apply stays_raise | apply stays_lift | apply stays_self
    | apply stays_the_mem | apply stays_warn | apply stays_write_mem
    | apply stays_native | apply stays_assert | apply stays_has_corners
    | apply stays_set_coord | apply stays_set_item_slot | apply stays_set_lower
    | apply stays_set_upper | apply stays_set_size_at | apply stays_set_flag
    | apply stays_bind; [ | intros ? ]
    | apply stays_when
    | apply stays_try_except
    | match goal with
      | |- stays _ (match ?x with _ => _ end) => destruct x
      | |- stays _ (if ?x then _ else _) => destruct x
      end ].

Lemma stays_get_coord s d : stays R (get_coord s d).
Proof using R_refl R_trans. unfold get_coord. sty. Qed.

Lemma stays_get_item_slot item s : stays R (get_item_slot item s).
Proof using R_refl R_trans. unfold get_item_slot. sty. Qed.

Lemma stays_fill_array store a n :
  (forall x, stays R (store x)) -> stays R (fill_array store a n).
Proof using R_refl.
  intros Hs. unfold fill_array. destruct a as [[t sh d | t sh b]|].
  - apply Hs.
  - apply stays_write_mem.
  - apply stays_raise.
Qed.

Lemma stays_fill_coord s d n : stays R (fill_coord s d n).
Proof using R_refl R_trans W_coords.
  unfold fill_coord. apply stays_bind; [apply stays_get_coord|].
  intros a. apply stays_fill_array. intros x. apply stays_set_coord.
Qed.

Lemma stays_fill_item item s n : stays R (fill_item item s n).
Proof using R_refl R_trans W_mask W_area.
  unfold fill_item. apply stays_bind; [apply stays_get_item_slot|].
  intros a. apply stays_fill_array. intros x. apply stays_set_item_slot.
Qed.

Lemma stays_verify s : stays R (_verify_grid_bounds_ s).
Proof using R_refl R_trans W_lower W_upper W_size.
  unfold _verify_grid_bounds_, get_lower, get_upper, get_size, get_bounds. sty.
Qed.

Lemma stays_zero_coord s d : stays R (zero_coord s d).
Proof using R_refl R_trans W_coords. unfold zero_coord, get_size. sty. Qed.

Lemma stays_link_coord_buffer d s : stays R (_link_coord_buffer_ d s).
Proof using R_refl R_trans W_coords W_corners.
  unfold _link_coord_buffer_, get_coord_ptr, get_bounds. sty.
Qed.

Lemma stays_axis_view g lb ub k s : stays R (axis_view g lb ub k s).
Proof using R_refl R_trans. unfold axis_view, get_coord_ptr. sty. Qed.

Lemma stays_link_coord_buffer_1D s : stays R (_link_coord_buffer_1Dcoords s).
Proof using R_refl R_trans W_coords W_corners.
  unfold _link_coord_buffer_1Dcoords, get_bounds.
  apply stays_bind; [apply stays_self | intros g].
  apply stays_bind; [apply stays_native | intros [lb ub]].
  apply stays_bind; [apply stays_axis_view | intros gc0].
  apply stays_bind; [apply stays_axis_view | intros gc1].
  apply stays_bind.
  - destruct (decide (_rank g = 3)).
    + apply stays_bind; [apply stays_axis_view | intros gc2].
      apply stays_bind; [apply stays_the_mem | intros m].
      destruct (meshgrid3 _ _ _) as [[c0 c1] c2]. apply stays_ret.
    + destruct (decide (_rank g = 2)); [|apply stays_raise].
      apply stays_bind; [apply stays_the_mem | intros m].
      destruct (meshgrid2 _ _) as [c0 c1]. apply stays_ret.
  - intros [[gc00 gc11] gc22]. sty.
Qed.

Lemma stays_link_coords s : stays R (link_coords s).
Proof using R_refl R_trans W_coords W_corners.
  unfold link_coords. apply stays_bind; [apply stays_self | intros g].
  destruct (decide (_ndims g = _rank g \/ _ndims g = 0)).
  - apply stays_for_each. intros x _. apply stays_link_coord_buffer.
  - destruct (decide (_ndims g < _rank g)); [|apply stays_ret].
    apply stays_bind; [|intros _; apply stays_link_coord_buffer_1D].
    apply stays_when, stays_raise.
Qed.

Lemma stays_allocate_coords s ff : stays R (_allocate_coords_ s ff).
Proof using R_refl R_trans W_coords W_corners W_lower W_upper W_size.
  unfold _allocate_coords_.
  pose proof (stays_verify s). pose proof (stays_link_coords s).
  pose proof (stays_zero_coord s 0). pose proof (stays_zero_coord s 1).
  pose proof (stays_zero_coord s 2).
  pose proof (fun z => stays_fill_coord s 0 z). pose proof (fun z => stays_fill_coord s 1 z).
  pose proof (fun z => stays_fill_coord s 2 z).
  sty; auto.
Qed.

Lemma stays_add_coords_at ff s : stays R (add_coords_at ff s).
Proof using R_refl R_trans W_coords W_corners W_lower W_upper W_size W_flag.
  unfold add_coords_at.
  pose proof (stays_get_coord s 0). pose proof (stays_allocate_coords s ff).
  sty.
Qed.

(** [add_coords] *)
Lemma stays_add_coords sl cd ff : stays R (add_coords sl cd ff).
Proof using R_refl R_trans W_coords W_corners W_lower W_upper W_size W_flag.
  unfold add_coords. apply stays_bind.
  - apply stays_for_each. intros s _. apply stays_add_coords_at.
  - intros _. destruct (normalize sl) as [|s [|s' l]]; try apply stays_ret.
    destruct cd; [apply stays_get_coord | apply stays_ret].
Qed.

Lemma stays_link_item_buffer item s : stays R (_link_item_buffer_ item s).
Proof using R_refl R_trans W_mask W_area.
  unfold _link_item_buffer_, get_bounds. sty.
Qed.

Lemma stays_allocate_items item s ff : stays R (_allocate_items_ item s ff).
Proof using R_refl R_trans W_mask W_area W_lower W_upper W_size.
  unfold _allocate_items_, get_size.
  pose proof (stays_verify s). pose proof (stays_link_item_buffer item s).
  pose proof (fun it z => stays_fill_item it s z).
  sty; auto.
Qed.

Lemma stays_item_check item s : stays R (item_check item s).
Proof using R_refl R_trans.
  unfold item_check. pose proof (stays_get_item_slot item s). sty.
Qed.

Lemma stays_add_item_loop item ff l : forall done, stays R (add_item_loop item ff l done).
Proof using R_refl R_trans W_mask W_area W_lower W_upper W_size.
  induction l as [|s l IH]; intros done; simpl.
  - apply stays_ret.
  - pose proof (stays_item_check item s). pose proof (stays_allocate_items item s ff).
    sty.
Qed.

(** [add_item] *)
Lemma stays_add_item item sl ff : stays R (add_item item sl ff).
Proof using R_refl R_trans W_mask W_area W_lower W_upper W_size.
  unfold add_item. apply stays_bind; [apply stays_add_item_loop|].
  intros _. destruct (normalize sl) as [|s [|s' l]]; try apply stays_ret.
  apply stays_get_item_slot.
Qed.

(** [get_coords] and [get_item] *)
Lemma stays_get_coords d sl : stays R (get_coords d sl).
Proof using R_refl R_trans.
  unfold get_coords. pose proof (fun s => stays_get_coord s d). sty.
Qed.

Lemma stays_get_item item sl : stays R (get_item item sl).
Proof using R_refl R_trans.
  unfold get_item. pose proof (fun s => stays_get_item_slot item s). sty.
Qed.

(** What the constructor runs after the shadow lists are laid out. *)
Lemma stays_populate a st ff : stays R (populate a st ff).
Proof using R_refl R_trans W_coords W_corners W_lower W_upper W_size W_flag W_mask W_area.
  unfold populate.
  pose proof (stays_add_coords st None ff).
  pose proof (fun it => stays_add_item it (Some (One (CENTER loc))) ff).
  sty.
Qed.

End Stays.

(** ** The relations that stay *)

Lemma same_attributes_refl g : same_attributes g g.
Proof. constructor; reflexivity. Qed.

Lemma same_attributes_trans g1 g2 g3 :
  same_attributes g1 g2 -> same_attributes g2 g3 -> same_attributes g1 g3.
Proof. intros [] []. constructor; congruence. Qed.

Lemma same_shape_refl g : same_shape g g.
Proof. constructor; reflexivity. Qed.

Lemma same_shape_trans g1 g2 g3 : same_shape g1 g2 -> same_shape g2 g3 -> same_shape g1 g3.
Proof. intros [] []. constructor; congruence. Qed.

Lemma same_coordinates_refl g : same_coordinates g g.
Proof. constructor; reflexivity. Qed.

Lemma same_coordinates_trans g1 g2 g3 :
  same_coordinates g1 g2 -> same_coordinates g2 g3 -> same_coordinates g1 g3.
Proof. intros [] []. constructor; congruence. Qed.

Lemma same_finalized_refl g : same_finalized g g.
Proof. reflexivity. Qed.

Lemma same_finalized_trans g1 g2 g3 :
  same_finalized g1 g2 -> same_finalized g2 g3 -> same_finalized g1 g3.
Proof. unfold same_finalized. congruence. Qed.

Lemma stays_weaken {A} (R R' : Grid -> Grid -> Prop) (m : M A) :
  (forall g g', R g g' -> R' g g') -> stays R m -> stays R' m.
Proof. intros HR Hm g w. apply HR, Hm. Qed.

(** An assignment to a slot of a row leaves the lengths of the rows. *)
Lemma fmap_length_insert_row {A} (l : list (list A)) s row d x :
  l !! s = Some row -> length <$> <[s := <[d := x]> row]> l = length <$> l.
Proof.
  intros H. rewrite list_fmap_insert, length_insert.
  apply list_insert_id. rewrite list_lookup_fmap, H. reflexivity.
Qed.

Lemma shaped_same_shape g g' : shaped g -> same_shape g g' -> shaped g'.
Proof. intros [] []. constructor; congruence. Qed.

(** *** [add_coords] *)

Lemma add_coords_attributes sl cd ff : stays same_attributes (add_coords sl cd ff).
Proof.
  apply stays_add_coords;
    first [exact same_attributes_refl | exact same_attributes_trans
          | intros; constructor; reflexivity].
Qed.

Lemma add_coords_items sl cd ff : stays same_items (add_coords sl cd ff).
Proof.
  apply stays_add_coords;
    first [exact same_items_refl | exact same_items_trans | intros; split; reflexivity].
Qed.

Lemma add_coords_shape sl cd ff : stays same_shape (add_coords sl cd ff).
Proof.
  apply stays_add_coords;
    first [exact same_shape_refl | exact same_shape_trans
          | intros; constructor; simpl; try reflexivity;
            first [apply length_insert | apply fmap_length_insert_row; assumption]].
Qed.

Lemma allocate_coords_shape s ff : stays same_shape (_allocate_coords_ s ff).
Proof.
  apply stays_allocate_coords;
    first [exact same_shape_refl | exact same_shape_trans
          | intros; constructor; simpl; try reflexivity;
            first [apply length_insert | apply fmap_length_insert_row; assumption]].
Qed.

(** *** [add_item] *)

Lemma add_item_attributes item sl ff : stays same_attributes (add_item item sl ff).
Proof.
  apply stays_add_item;
    first [exact same_attributes_refl | exact same_attributes_trans
          | intros; constructor; reflexivity].
Qed.

Lemma add_item_coordinates item sl ff : stays same_coordinates (add_item item sl ff).
Proof.
  apply stays_add_item;
    first [exact same_coordinates_refl | exact same_coordinates_trans
          | intros; constructor; reflexivity].
Qed.

Lemma add_item_shape item sl ff : stays same_shape (add_item item sl ff).
Proof.
  apply stays_add_item;
    first [exact same_shape_refl | exact same_shape_trans
          | intros; constructor; simpl; try reflexivity; apply length_insert].
Qed.

(** *** The constructor *)

Lemma populate_attributes a st ff : stays same_attributes (populate a st ff).
Proof.
  apply stays_populate;
    first [exact same_attributes_refl | exact same_attributes_trans
          | intros; constructor; reflexivity].
Qed.

Lemma populate_shape a st ff : stays same_shape (populate a st ff).
Proof.
  apply stays_populate;
    first [exact same_shape_refl | exact same_shape_trans
          | intros; constructor; simpl; try reflexivity;
            first [apply length_insert | apply fmap_length_insert_row; assumption]].
Qed.

Lemma populate_finalized a st ff : stays same_finalized (populate a st ff).
Proof.
  eapply stays_weaken; [|apply populate_attributes]. intros g g' []. assumption.
Qed.

(** [fin] walks a phase of the constructor that sets plain attributes. *)
Ltac fin :=
  repeat first
    [ apply (stays_bind same_finalized same_finalized_trans); [ | intros ? ]
    | apply (stays_ret same_finalized same_finalized_refl)
    | apply (stays_raise same_finalized same_finalized_refl)
    | apply (stays_self same_finalized same_finalized_refl)
    | apply (stays_warn same_finalized same_finalized_refl)
    | apply (stays_native same_finalized same_finalized_refl)
    | apply (stays_when same_finalized same_finalized_refl)
    | apply stays_modify; intros; reflexivity
    | match goal with
      | |- stays _ (match ?x with _ => _ end) => destruct x
      | |- stays _ (if ?x then _ else _) => destruct x
      end ].

Lemma check_args_finalized a : stays same_finalized (check_args a).
Proof. unfold check_args. fin. Qed.

Lemma reset_attributes_finalized a : stays same_finalized (reset_attributes a).
Proof. unfold reset_attributes. fin. Qed.

Lemma create_in_memory_finalized a : stays same_finalized (create_in_memory a).
Proof. unfold create_in_memory. fin. Qed.

Lemma create_from_file_finalized a fn ft : stays same_finalized (create_from_file a fn ft).
Proof. unfold create_from_file. fin. Qed.

Lemma shadow_lists_finalized : stays same_finalized shadow_lists.
Proof. unfold shadow_lists. fin. Qed.

(** A bind raises where its first part raises, or where the rest does. *)
Lemma bind_raised {A B} (m : M A) (k : A -> M B) g w e g' w' :
  bind m k g w = (Raise e, g', w') ->
  m g w = (Raise e, g', w')
  \/ exists a g1 w1, m g w = (Ok a, g1, w1) /\ k a g1 w1 = (Raise e, g', w').
Proof.
  unfold bind. destruct (m g w) as [[[a|e0] g1] w1]; intros H.
  - right. exists a, g1, w1. split; [reflexivity | exact H].
  - left. injection H as <- <- <-. reflexivity.
Qed.

(** The outcome of a run, read off a [stays] fact. *)
Lemma stays_run {A} (R : Grid -> Grid -> Prop) (m : M A) g w r g' w' :
  stays R m -> m g w = (r, g', w') -> R g g'.
Proof. intros Hm E. specialize (Hm g w). rewrite E in Hm. exact Hm. Qed.

(** The constructor sets the finalization flag with its last statement:
    a run of it that raised has not set it. *)
Lemma init_raised_unfinalized a g w e g' w' :
  __init__ a g w = (Raise e, g', w') -> _finalized g' = _finalized g.
Proof.
  intros H. unfold __init__ in H.
  apply bind_raised in H as [H | (md & g1 & w1 & E1 & H)];
    [exact (stays_run _ _ _ _ _ _ _ (check_args_finalized a) H)|].
  pose proof (stays_run _ _ _ _ _ _ _ (check_args_finalized a) E1) as K1.
  apply bind_raised in H as [H | (u2 & g2 & w2 & E2 & H)];
    [pose proof (stays_run _ _ _ _ _ _ _ (reset_attributes_finalized a) H) as K;
     unfold same_finalized in *; congruence|].
  pose proof (stays_run _ _ _ _ _ _ _ (reset_attributes_finalized a) E2) as K2.
  assert (stays same_finalized
            match md with
            | FromFile filename filetype => create_from_file a filename filetype
            | InMemory => create_in_memory a
            end) as Hcreate
    by (destruct md; [apply create_in_memory_finalized | apply create_from_file_finalized]).
  apply bind_raised in H as [H | (st & g3 & w3 & E3 & H)];
    [pose proof (stays_run _ _ _ _ _ _ _ Hcreate H) as K;
     unfold same_finalized in *; congruence|].
  pose proof (stays_run _ _ _ _ _ _ _ Hcreate E3) as K3.
  apply bind_raised in H as [H | (u4 & g4 & w4 & E4 & H)]; [discriminate H|].
  apply modify_ok in E4 as (-> & ->).
  apply bind_raised in H as [H | (u5 & g5 & w5 & E5 & H)];
    [pose proof (stays_run _ _ _ _ _ _ _ shadow_lists_finalized H) as K;
     unfold same_finalized in *; simpl in *; congruence|].
  pose proof (stays_run _ _ _ _ _ _ _ shadow_lists_finalized E5) as K5.
  apply bind_raised in H as [H | (u6 & g6 & w6 & E6 & H)]; [|discriminate H].
  pose proof (stays_run _ _ _ _ _ _ _ (populate_finalized _ _ _) H) as K.
  unfold same_finalized in *; simpl in *; congruence.
Qed.

(** The phases of a constructor run that returned: the shadow lists were
    laid out, then [populate] ran, then the finalization flag was set. *)
Lemma init_phases a u g w g' w' :
  __init__ a g w = (Ok u, g', w') ->
  exists md st g3 w3 g4 g5,
    shadow_lists g3 w3 = (Ok tt, g4, w3)
    /\ populate a st (from_file_of md) g4 w3 = (Ok tt, g5, w')
    /\ g' = set_finalized (Some false) g5.
Proof.
  intros H. unfold __init__ in H.
  apply bind_ok in H as (md & g1 & w1 & _ & H).
  apply bind_ok in H as (u2 & g2 & w2 & _ & H).
  apply bind_ok in H as (st & g3 & w3 & _ & H).
  apply bind_ok in H as (u4 & g4 & w4 & E4 & H). apply modify_ok in E4 as (-> & ->).
  apply bind_ok in H as ([] & g5 & w5 & E5 & H).
  pose proof (shadow_lists_post _ _ _ _ _ E5) as (-> & _).
  apply bind_ok in H as ([] & g6 & w6 & E6 & H). apply modify_ok in H as (-> & ->).
  exists md, st, (set_type (default R8 (a_coord_typekind a)) g3), w3, g5, g6.
  split; [exact E5|]. split; [exact E6 | reflexivity].
Qed.

Lemma shadow_lists_shaped u g w g' w' : shadow_lists g w = (Ok u, g', w') -> shaped g'.
Proof.
  intros H. apply shadow_lists_post in H
    as (_ & _ & Hr & _ & _ & _ & _ & _ & Hf & Hc & Hl & Hu & Hz & Hm & Ha).
  constructor; rewrite Hr;
    first [rewrite Hf | rewrite Hl | rewrite Hu | rewrite Hz | rewrite Hm | rewrite Ha
          | rewrite Hc];
    try apply length_replicate.
  rewrite fmap_replicate, length_replicate. reflexivity.
Qed.

(** * Properties of the methods *)

(** ** Construction without a creation mode *)

(** C1. A call of the constructor with [max_index] left out and at least one
    of [filename] and [filetype] left out raises [GridArgumentError] before
    any native call: the body of [__init__] returns the object and the world
    as it received them.  Seen through the decorator, the call [Grid(...)]
    returns no Grid, leaves the new object blank and adds no grid creation
    to the log; its error is the argument error whenever the manager start
    of the decorator returned normally. *)
Theorem constructor_requires_mode (a : InitArgs) :
  a_max_index a = None ->
  a_filename a = None \/ a_filetype a = None ->
  (forall g w, __init__ a g w = (Raise GridArgumentError, g, w))
  /\ (forall w : World St,
        (exists e, (Grid_call a w).1.1 = Raise e)
        /\ (Grid_call a w).1.2 = blank
        /\ filter (fun c => creates_grid c = true) (calls (Grid_call a w).2)
           = filter (fun c => creates_grid c = true) (calls w)
        /\ ((esmp_manager esmp (nstate w) (mem w)).1.1 = Ok tt ->
            (Grid_call a w).1.1 = Raise GridArgumentError)).
Proof.
  intros Hmi Hfile.
  assert (forall g w, __init__ a g w = (Raise GridArgumentError, g, w)) as Hinit.
  { intros g w. unfold __init__, bind, check_args. rewrite Hmi.
    destruct Hfile as [-> | ->]; [reflexivity|].
    destruct (a_filename a); reflexivity. }
  split; [exact Hinit|].
  intros w. unfold Grid_call, initialize, bind, native.
  destruct (esmp_manager esmp (nstate w) (mem w)) as [[[u|e] st] m]; simpl.
  - rewrite Hinit. simpl. rewrite filter_app. simpl.
    rewrite filter_cons_False by (simpl; discriminate).
    rewrite filter_nil, app_nil_r. eauto.
  - rewrite filter_app. simpl.
    rewrite filter_cons_False by (simpl; discriminate).
    rewrite filter_nil, app_nil_r.
    repeat split; eauto. discriminate.
Qed.

(** ** Slicing under more than one worker *)

(** C6. When the worker count reported by the native side exceeds one,
    [__getitem__] raises [SerialMethod] at once: the count query is the only
    native call, and the parent Grid (coords, mask, area, bounds and every
    other attribute) is the object it was. *)
Theorem getitem_parallel_fails (slc : Slc) (g : Grid) (w : World St) n st m :
  pet_count esmp (nstate w) (mem w) = (Ok n, st, m) ->
  1 < n ->
  __getitem__ slc g w =
    (Raise SerialMethod, g, mkWorld st m (calls w ++ [CPetCount]) (warns w)).
Proof.
  intros Hpet Hn. unfold __getitem__, bind, native. rewrite Hpet.
  destruct (decide (1 < n)) as [_|Hno]; [reflexivity | contradiction].
Qed.

(** ** Destruction *)

Lemma destroy_run g w :
  destroy g w =
    match _finalized g with
    | Some false =>
        match ESMP_GridDestroy esmp (_struct g) (nstate w) (mem w) with
        | (Ok _, s1, m1) =>
            (Ok tt, set_finalized (Some true) g,
             mkWorld s1 m1 (calls w ++ [CGridDestroy (_struct g)]) (warns w))
        | (Raise e, s1, m1) =>
            (Raise e, g, mkWorld s1 m1 (calls w ++ [CGridDestroy (_struct g)]) (warns w))
        end
    | _ => (Ok tt, g, w)
    end.
Proof.
  unfold destroy, bind, self. destruct (_finalized g) as [[|]|]; try reflexivity.
  unfold native. destruct (ESMP_GridDestroy esmp (_struct g) (nstate w) (mem w)) as [[[u|e] s1] m1];
    reflexivity.
Qed.




(** ** Items already linked *)

Lemma add_item_linked_raises item sl ff s g w :
  normalize sl = [s] -> is_Some (item_at item g s) ->
  add_item item sl ff g w = (Raise GridItemAlreadyLinked, g, w).
Proof.
  intros Hn [x Hx]. unfold add_item. rewrite Hn. simpl.
  unfold bind, item_check, bind, get_item_slot, bind, self, lift, py_get.
  destruct item as [| |k]; simpl in Hx; [| |discriminate].
  - unfold mask_at in Hx. destruct (_mask g !! s) as [[y|]|]; try discriminate. reflexivity.
  - unfold area_at in Hx. destruct (_area g !! s) as [[y|]|]; try discriminate. reflexivity.
Qed.

(** ** Coordinates are added whole *)

(** C9. After [add_coords] has returned normally for a request that includes
    location [s], in the normal case (coordinate arrays of the rank of the
    grid), the location is populated: the slot of every dimension below the
    rank holds an array, lower bounds, upper bounds and size are cached, and
    the flag is set.  The Grid is one on which [s] was still empty, or
    populated already. *)
Theorem add_coords_populates (sl : option StaggerArg) (cd : option nat) (ff : bool)
    (s : nat) (g : Grid) (w : World St) r g' w' :
  s ∈ normalize sl ->
  _ndims g = _rank g \/ _ndims g = 0 ->
  coord_at g s 0 = None \/ populated g s ->
  add_coords sl cd ff g w = (Ok r, g', w') ->
  populated g' s.
Proof.
  intros Hs Hn HQ H. unfold add_coords in H.
  apply bind_ok in H as (u & g1 & w1 & Hloop & Hret).
  assert (g' = g1) as ->.
  { destruct (normalize sl) as [|s0 [|]]; destruct cd; try (minv Hret; reflexivity).
    apply get_coord_ok in Hret as (-> & _). reflexivity. }
  eapply add_coords_loop_post; eassumption.
Qed.

(** ** Adding coordinates twice *)


(** ** In-memory construction *)

(** C2. An in-memory construction from a [max_index] of length 2 or 3 that
    returns a Grid gives it the rank [len(max_index)] and a list of
    [2 ** rank] flags.  With [staggerloc=None] every flag is [False]; with
    one location [s] the flag of [s] is [True] and every other is [False];
    with a list [l] of locations exactly the flags of the members of [l]
    are [True].  On a steady native side the construction does return a
    Grid, for all accepted arguments. *)
Theorem in_memory_shape (a : InitArgs) (mi : list Z) (w : World St) :
  a_max_index a = Some mi ->
  length mi = 2 \/ length mi = 3 ->
  (forall g w',
      Grid_call a w = (Ok tt, g, w') ->
      _rank g = length mi
      /\ length (_staggerloc g) = 2 ^ _rank g
      /\ forall i, i < 2 ^ _rank g ->
           _staggerloc g !! i
           = Some match a_staggerloc a with
                  | None => false
                  | Some (One s) => bool_decide (i = s)
                  | Some (Many l) => bool_decide (i ∈ l)
                  end)
  /\ (forall lbf ubf szf,
      steady lbf ubf szf -> accepted a mi ->
      exists g w', Grid_call a w = (Ok tt, g, w')).
Proof.
  intros Hmi _. split.
  - intros g w' H. unfold Grid_call, initialize in H.
    apply bind_ok in H as (u & g1 & w1 & _ & H).
    apply (init_in_memory _ _ _ _ _ _ _ Hmi) in H
      as (g0 & w0 & g2 & Hr & _ & Hfl & Hco & _ & _ & _ & _ & _ & Hpop & ->).
    pose proof (fk_populate _ _ _ _ _ _ _ _ Hpop) as Hfr.
    simpl. rewrite (fr_rank _ _ _ _ Hfr), Hr.
    split; [reflexivity|]. split.
    + rewrite (fr_flags_len _ _ _ _ Hfr), Hfl. apply length_replicate.
    + intros i Hi.
      assert (_staggerloc g2 !! i = Some (bool_decide (i ∈ requested (a_staggerloc a))))
        as Hflag.
      { destruct (decide (i ∈ requested (a_staggerloc a))) as [Hin|Hout].
        - rewrite bool_decide_eq_true_2 by exact Hin.
          eapply populate_flags; [exact Hpop | | exact Hin].
          intros j. eapply coord_at_fresh, Hco.
        - rewrite bool_decide_eq_false_2 by exact Hout.
          rewrite (fr_flags _ _ _ _ Hfr) by exact Hout.
          rewrite Hfl. apply lookup_replicate. auto. }
      rewrite Hflag. f_equal.
      destruct (a_staggerloc a) as [[s|l]|]; simpl.
      * apply bool_decide_ext. apply list_elem_of_singleton.
      * reflexivity.
      * reflexivity.
  - intros lbf ubf szf Hst (Hk & Hnp & Hreq & Hcen).
    destruct (Grid_call_returns lbf ubf szf a mi w Hst Hmi Hk Hnp Hreq Hcen)
      as (g & w' & E & _).
    exists g, w'. exact E.
Qed.

(** C10. An in-memory construction with [num_peri_dims = 1] and
    [periodic_dim] left at [None] that returns a Grid gives it
    [periodic_dim = 0] and [pole_dim = 1], which are not the 1 and 2 the
    docstring announces as defaults.  On a steady native side the
    construction does return a Grid, for all accepted arguments. *)
Theorem in_memory_periodic_defaults (a : InitArgs) (mi : list Z) (w : World St) :
  a_max_index a = Some mi ->
  a_num_peri_dims a = Some 1%Z ->
  a_periodic_dim a = None ->
  (forall g w',
      Grid_call a w = (Ok tt, g, w') ->
      (_periodic_dim g = Some 0%Z /\ _pole_dim g = Some 1%Z)
      /\ _periodic_dim g <> Some 1%Z /\ _pole_dim g <> Some 2%Z)
  /\ (forall lbf ubf szf,
      steady lbf ubf szf -> accepted a mi ->
      exists g w', Grid_call a w = (Ok tt, g, w')).
Proof.
  intros Hmi Hnp Hpd. split.
  - intros g w' H. unfold Grid_call, initialize in H.
    apply bind_ok in H as (u & g1 & w1 & _ & H).
    apply (init_in_memory _ _ _ _ _ _ _ Hmi) in H
      as (g0 & w0 & g2 & _ & _ & _ & _ & _ & _ & _ & _ & Hper & Hpop & ->).
    pose proof (fk_populate _ _ _ _ _ _ _ _ Hpop) as Hfr.
    rewrite Hnp in Hper. destruct (Hper eq_refl Hpd) as [Hp0 Hp1].
    simpl. rewrite (fr_periodic_dim _ _ _ _ Hfr), (fr_pole_dim _ _ _ _ Hfr), Hp0, Hp1.
    repeat split; discriminate.
  - intros lbf ubf szf Hst (Hk & Hdef & Hreq & Hcen).
    destruct (Grid_call_returns lbf ubf szf a mi w Hst Hmi Hk Hdef Hreq Hcen)
      as (g & w' & E & _).
    exists g, w'. exact E.
Qed.

(** ** Items *)

(** C4. With the mask already allocated at location [s], [add_item(MASK, s)]
    raises [GridItemAlreadyLinked] before any native call or allocation: the
    Grid and the world are returned as they were.  In particular a second
    call after a first that returned normally fails so.  The same holds for
    the area. *)
Theorem add_item_twice_fails (item : GridItem) (sl : option StaggerArg) (s : nat) :
  item = MASK \/ item = AREA ->
  normalize sl = [s] ->
  (forall ff g w,
      is_Some (item_at item g s) ->
      add_item item sl ff g w = (Raise GridItemAlreadyLinked, g, w))
  /\ (forall ff0 ff g0 w0 r g w,
      add_item item sl ff0 g0 w0 = (Ok r, g, w) ->
      add_item item sl ff g w = (Raise GridItemAlreadyLinked, g, w)).
Proof.
  intros Hitem Hn. split.
  - intros ff g w Hs. apply (add_item_linked_raises item sl ff s); assumption.
  - intros ff0 ff g0 w0 r g w H.
    destruct (add_item_ok _ _ _ _ _ _ _ _ _ Hn H) as (w1 & _ & Hall & _).
    apply (add_item_linked_raises item sl ff s); [exact Hn|].
    eapply allocate_items_linked, Hall.
Qed.

(** C5. On a Grid that an in-memory construction has just returned, against
    a native side that reports the bounds [(lb, ub)] at the centre, a call
    [add_item(AREA, CENTER)] that returns has stored in [area[CENTER]] a
    view of reals whose shape is [size[CENTER]] and whose cells all read
    zero, and a call [add_item(MASK, CENTER)] that returns has stored in
    [mask[CENTER]] a view of integers whose shape is [size[CENTER]] and
    whose cells all read one.  On a steady native side, and when the
    construction was not asked for the items itself, both calls do
    return. *)
Theorem fresh_grid_items (a : InitArgs) (mi : list Z) (w0 : World St) g w lb ub :
  a_max_index a = Some mi ->
  Grid_call a w0 = (Ok tt, g, w) ->
  bounds_fixed (_struct g) (CENTER loc) lb ub ->
  (forall r g' w',
      add_item AREA (Some (One (CENTER loc))) false g w = (Ok r, g', w') ->
      exists x, r = Some x /\ area_at g' (CENTER loc) = Some x
                /\ dtype_of x = R8
                /\ size_at g' (CENTER loc) = Some (shape_of x)
                /\ contents (mem w') x
                   = replicate (nelems (shape_of x)) (Some (SReal (inject_Z 0))))
  /\ (forall r g' w',
      add_item MASK (Some (One (CENTER loc))) false g w = (Ok r, g', w') ->
      exists x, r = Some x /\ mask_at g' (CENTER loc) = Some x
                /\ dtype_of x = I4
                /\ size_at g' (CENTER loc) = Some (shape_of x)
                /\ contents (mem w') x
                   = replicate (nelems (shape_of x)) (Some (SInt 1)))
  /\ (forall lbf ubf szf,
      steady lbf ubf szf -> accepted a mi -> CENTER loc < 2 ^ length mi ->
      truthy (a_add_user_area a) = false -> truthy (a_add_mask a) = false ->
      (exists r g' w',
          add_item AREA (Some (One (CENTER loc))) false g w = (Ok r, g', w'))
      /\ (exists r g' w',
          add_item MASK (Some (One (CENTER loc))) false g w = (Ok r, g', w'))).
Proof.
  intros Hmi Hcall Hf.
  pose proof (fresh_consistent _ _ _ _ _ _ _ _ Hmi Hcall Hf) as Hc.
  split; [|split]; [intros r g' w' H | intros r g' w' H |].
  - destruct (add_item_post AREA (Some (One (CENTER loc))) (CENTER loc) _ _ _ _ _ _ _
                (or_intror eq_refl) eq_refl Hf Hc H)
      as (sz & base & _ & -> & Hat & Hsz & Hcont).
    eexists. repeat split; [exact Hat | exact Hsz | exact Hcont].
  - destruct (add_item_post MASK (Some (One (CENTER loc))) (CENTER loc) _ _ _ _ _ _ _
                (or_introl eq_refl) eq_refl Hf Hc H)
      as (sz & base & _ & -> & Hat & Hsz & Hcont).
    eexists. repeat split; [exact Hat | exact Hsz | exact Hcont].
  - intros lbf ubf szf Hst (Hk & Hnp & Hreq & Hcen) Hlt Harea Hmask.
    destruct (Grid_call_returns lbf ubf szf a mi w0 Hst Hmi Hk Hnp Hreq Hcen)
      as (g1 & w1 & E & R & NA & NM).
    rewrite Hcall in E. injection E as <- <-.
    split.
    + destruct (add_item_returns lbf ubf szf Hst (2 ^ length mi) (length mi) AREA
                  (CENTER loc) false g w)
        as (o & g' & w' & Ea & _);
        [right; reflexivity | exact R | exact Hlt | apply NA, Harea |].
      exists o, g', w'. exact Ea.
    + destruct (add_item_returns lbf ubf szf Hst (2 ^ length mi) (length mi) MASK
                  (CENTER loc) false g w)
        as (o & g' & w' & Ea & _);
        [left; reflexivity | exact R | exact Hlt | apply NM, Hmask |].
      exists o, g', w'. exact Ea.
Qed.

(** ** The phases of a construction from a file *)

Lemma check_args_from_file a md g w g' w' :
  a_max_index a = None ->
  check_args a g w = (Ok md, g', w') ->
  exists fn ft,
    a_filename a = Some fn /\ a_filetype a = Some ft /\ md = FromFile fn ft
    /\ (ft = SCRIP \/ ft = GRIDSPEC)
    /\ g' = g /\ nstate w' = nstate w /\ mem w' = mem w /\ calls w' = calls w.
Proof.
  intros Hmi H. unfold check_args in H. rewrite Hmi in H.
  destruct (a_filename a) as [fn|]; [|minv H].
  destruct (a_filetype a) as [ft|]; [|minv H].
  destruct (bool_decide (ft <> SCRIP /\ ft <> GRIDSPEC)) eqn:Eb; [minv H|].
  apply bool_decide_eq_false in Eb.
  minv H.
  repeat match goal with
    | E : when _ (warn _) _ _ = (Ok _, _, _) |- _ =>
        apply when_warn_ok in E as (-> & ? & ? & ?)
    end.
  exists fn, ft. repeat split; try congruence.
  destruct (decide (ft = SCRIP)) as [|Hs]; [left; assumption|].
  destruct (decide (ft = GRIDSPEC)) as [|Hg]; [right; assumption|].
  exfalso. apply Eb. split; assumption.
Qed.

Lemma create_from_file_post a fn ft st g w g' w' :
  create_from_file a fn ft g w = (Ok st, g', w') ->
  st = Some (Many (if truthy (a_add_corner_stagger a)
                      && negb (bool_decide (CORNER loc = CENTER loc))
                   then [CENTER loc; CORNER loc] else [CENTER loc]))
  /\ is_Some (_struct g')
  /\ (ft = SCRIP -> _ndims g' = _rank g')
  /\ _pole_dim g' = _pole_dim g
  /\ (a_is_sphere a = Some false ->
      _num_peri_dims g' = 0%Z /\ _periodic_dim g' = _periodic_dim g)
  /\ (a_is_sphere a <> Some false ->
      _num_peri_dims g' = 1%Z /\ _periodic_dim g' = Some 0%Z).
Proof.
  intros H. unfold create_from_file in H.
  apply bind_ok in H as (rd & g1 & w1 & Hrd & H).
  assert (g1 = g) as ->.
  { destruct (a_reg_decomp a); minv Hrd; reflexivity. }
  apply bind_ok in H as (h & g1 & w2 & Hh & H). apply native_ok in Hh as (? & ? & _ & -> & ->).
  apply bind_ok in H as (u1 & g1 & w3 & Hm & H). apply modify_ok in Hm as (-> & ->).
  apply bind_ok in H as (u2 & g2 & w4 & Hinq & H).
  assert (_struct g2 = Some h /\ _pole_dim g2 = _pole_dim g
          /\ _periodic_dim g2 = _periodic_dim g
          /\ (ft = SCRIP -> _ndims g2 = _rank g2)) as (Hs2 & Hpo2 & Hpe2 & Hnd2).
  { destruct (decide (ft = SCRIP)) as [E|E].
    - apply bind_ok in Hinq as ([rk mx] & g3 & w5 & Hn & Hinq).
      apply native_ok in Hn as (? & ? & _ & -> & ->). minv Hinq. simpl. auto.
    - apply bind_ok in Hinq as ([[rk nd] mx] & g3 & w5 & Hn & Hinq).
      apply native_ok in Hn as (? & ? & _ & -> & ->). minv Hinq. simpl.
      repeat split. intros; contradiction. }
  apply bind_ok in H as (u3 & g3 & w5 & Hsp & H). apply ret_ok in H as (<- & -> & ->).
  split; [reflexivity|].
  destruct (bool_decide (a_is_sphere a = Some false)) eqn:Eb.
  - apply bool_decide_eq_true in Eb. apply modify_ok in Hsp as (-> & _). simpl.
    rewrite Hs2. split; [eauto|]. split; [exact Hnd2|]. split; [exact Hpo2|].
    split; [intros _; split; [reflexivity | exact Hpe2] | intros Hne; contradiction].
  - apply bool_decide_eq_false in Eb. minv Hsp. simpl.
    rewrite Hs2. split; [eauto|]. split; [exact Hnd2|]. split; [exact Hpo2|].
    split; [intros E; contradiction | intros _; split; reflexivity].
Qed.

Lemma shadow_lists_num_peri_dims u g w g' w' :
  shadow_lists g w = (Ok u, g', w') -> _num_peri_dims g' = _num_peri_dims g.
Proof. intros H. unfold shadow_lists in H. minv H. reflexivity. Qed.

(** What a from-file construction that returned normally went through. *)
Lemma init_from_file a u g w g' w' :
  a_max_index a = None ->
  __init__ a g w = (Ok u, g', w') ->
  exists fn ft g0 w0 g1,
    a_filename a = Some fn /\ a_filetype a = Some ft /\ (ft = SCRIP \/ ft = GRIDSPEC)
    /\ (ft = SCRIP -> _ndims g0 = _rank g0)
    /\ _pole_dim g0 = a_pole_dim a
    /\ (a_is_sphere a = Some false ->
        _num_peri_dims g0 = 0%Z /\ _periodic_dim g0 = a_periodic_dim a)
    /\ (a_is_sphere a <> Some false ->
        _num_peri_dims g0 = 1%Z /\ _periodic_dim g0 = Some 0%Z)
    /\ _staggerloc g0 = replicate (2 ^ _rank g0) false
    /\ _coords g0 = replicate (2 ^ _rank g0) (replicate (_rank g0) None)
    /\ populate a
         (Some (Many (if truthy (a_add_corner_stagger a)
                         && negb (bool_decide (CORNER loc = CENTER loc))
                      then [CENTER loc; CORNER loc] else [CENTER loc])))
         true g0 w0 = (Ok tt, g1, w')
    /\ g' = set_finalized (Some false) g1.
Proof.
  intros Hmi H. unfold __init__ in H.
  apply bind_ok in H as (md & g1 & w1 & Hca & H).
  apply (check_args_from_file _ _ _ _ _ _ Hmi) in Hca
    as (fn & ft & Hfn & Hft & -> & Hfmt & -> & _).
  apply bind_ok in H as (u1 & g2 & w2 & Hra & H).
  apply reset_attributes_post in Hra as (-> & _ & _ & Hpd & Hpo & _).
  apply bind_ok in H as (st & g3 & w3 & Hcr & H).
  apply create_from_file_post in Hcr as (-> & _ & Hnd & Hpo3 & Hs0 & Hs1).
  apply bind_ok in H as (u3 & g4 & w4 & Hty & H). apply modify_ok in Hty as (-> & ->).
  apply bind_ok in H as (u4 & g5 & w5 & Hsh & H).
  pose proof (shadow_lists_num_peri_dims _ _ _ _ _ Hsh) as Hnp5.
  apply shadow_lists_post in Hsh
    as (-> & _ & Hr5 & Hn5 & Hpd5 & Hpo5 & _ & _ & Hfl & Hco & _).
  apply bind_ok in H as ([] & g6 & w6 & Hpop & H). apply modify_ok in H as (-> & ->).
  simpl in *.
  exists fn, ft, g5, w3, g6.
  split; [exact Hfn|]. split; [exact Hft|]. split; [exact Hfmt|].
  split; [intros E; rewrite Hn5, Hr5; apply Hnd, E|].
  split; [congruence|].
  split; [intros E; destruct (Hs0 E) as [E1 E2]; split; congruence|].
  split; [intros E; destruct (Hs1 E) as [E1 E2]; split; congruence|].
  rewrite Hr5.
  split; [exact Hfl|]. split; [exact Hco|]. split; [exact Hpop | reflexivity].
Qed.


(** ** The native calls of the methods *)

Section Logs.

Variable P : call -> Prop.

Lemma logs_same {A} (m : M A) : (forall g w, calls (m g w).2 = calls w) -> logs P m.
Proof. intros H g w. exists []. rewrite app_nil_r. split; [apply H | constructor]. Qed.

Lemma logs_bind {A B} (m : M A) (k : A -> M B) :
  logs P m -> (forall a, logs P (k a)) -> logs P (bind m k).
Proof.
  intros Hm Hk g w. unfold bind. destruct (Hm g w) as (l1 & E1 & F1).
  destruct (m g w) as [[[a|e] g1] w1]; simpl in *.
  - destruct (Hk a g1 w1) as (l2 & E2 & F2). exists (l1 ++ l2).
    rewrite E2, E1, app_assoc. split; [reflexivity | apply Forall_app; auto].
  - exists l1. auto.
Qed.

Lemma logs_ret {A} (x : A) : logs P (ret x).
Proof. apply logs_same. reflexivity. Qed.

Lemma logs_raise {A} e : logs P (@raise A e).
Proof. apply logs_same. reflexivity. Qed.

Lemma logs_lift {A} (r : result A) : logs P (lift r).
Proof. apply logs_same. reflexivity. Qed.

Lemma logs_self : logs P self.
Proof. apply logs_same. reflexivity. Qed.

Lemma logs_modify f : logs P (modify f).
Proof. apply logs_same. reflexivity. Qed.

Lemma logs_the_mem : logs P the_mem.
Proof. apply logs_same. reflexivity. Qed.

Lemma logs_warn msg : logs P (warn msg).
Proof. apply logs_same. reflexivity. Qed.

Lemma logs_write_mem b n v : logs P (write_mem b n v).
Proof. apply logs_same. reflexivity. Qed.

Lemma logs_assert b : logs P (assert b).
Proof. apply logs_same. destruct b; reflexivity. Qed.

Lemma logs_native {A} c (op : NativeOp St A) : P c -> logs P (native c op).
Proof.
  intros Hc g w. unfold native. destruct (op (nstate w) (mem w)) as [[r s1] m1].
  exists [c]. split; [reflexivity | repeat constructor; exact Hc].
Qed.

Lemma logs_try_except {A} (m : M A) e : logs P m -> logs P (try_except m e).
Proof.
  intros Hm g w. unfold try_except. specialize (Hm g w).
  destruct (m g w) as [[[a|e'] g1] w1]; exact Hm.
Qed.

Lemma logs_when b m : logs P m -> logs P (when b m).
Proof. intros Hm. destruct b; [exact Hm | apply logs_ret]. Qed.

Lemma logs_for_each {A} (l : list A) (body : A -> M unit) :
  (forall x, x ∈ l -> logs P (body x)) -> logs P (for_each l body).
Proof.
  induction l as [|x l IH]; intros Hb; simpl.
  - apply logs_ret.
  - apply logs_bind.
    + apply Hb. left.
    + intros _. apply IH. intros y Hy. apply Hb. right. exact Hy.
Qed.

(** [lg] walks the body of a method, rule by rule. *)
Ltac lg :=
  repeat first
    [ assumption
    | match goal with H : forall _, logs _ _ |- _ => apply H end
    | match goal with H : forall _ _, logs _ _ |- _ => apply H end
    | apply logs_ret | apply logs_raise | apply logs_lift | apply logs_self
    | apply logs_modify | apply logs_the_mem | apply logs_warn | apply logs_write_mem
    | apply logs_assert
    | apply logs_native; solve [auto]
    | apply logs_bind; [ | intros ? ]
    | apply logs_when
    | apply logs_try_except
    | match goal with
      | |- logs _ (match ?x with _ => _ end) => destruct x
      | |- logs _ (if ?x then _ else _) => destruct x
      end ].

Lemma logs_set_coord s d x : logs P (set_coord s d x).
Proof. unfold set_coord. lg. Qed.

Lemma logs_get_coord s d : logs P (get_coord s d).
Proof. unfold get_coord. lg. Qed.

Lemma logs_set_item_slot item s x : logs P (set_item_slot item s x).
Proof. unfold set_item_slot. lg. Qed.

Lemma logs_get_item_slot item s : logs P (get_item_slot item s).
Proof. unfold get_item_slot. lg. Qed.

Lemma logs_set_flag s v : logs P (set_flag s v).
Proof. unfold set_flag. lg. Qed.

Lemma logs_fill_coord s d n : logs P (fill_coord s d n).
Proof.
  unfold fill_coord. apply logs_bind; [apply logs_get_coord | intros a].
  unfold fill_array. destruct a as [[t sh dat | t sh b]|];
    [apply logs_set_coord | apply logs_write_mem | apply logs_raise].
Qed.

Lemma logs_fill_item item s n : logs P (fill_item item s n).
Proof.
  unfold fill_item. apply logs_bind; [apply logs_get_item_slot | intros a].
  unfold fill_array. destruct a as [[t sh dat | t sh b]|];
    [apply logs_set_item_slot | apply logs_write_mem | apply logs_raise].
Qed.

Lemma logs_get_coords d sl : logs P (get_coords d sl).
Proof. unfold get_coords. pose proof (fun s => logs_get_coord s d). lg. Qed.

Lemma logs_get_item item sl : logs P (get_item item sl).
Proof. unfold get_item. pose proof (fun s => logs_get_item_slot item s). lg. Qed.

(** The queries. *)
Hypothesis P_bounds : forall h s, P (CGridGetCoordBounds h s).
Hypothesis P_ptr : forall h d s, P (CGridGetCoordPtr h d s).
Hypothesis P_item : forall h i s, P (CGridGetItem h i s).

Lemma logs_verify s : logs P (_verify_grid_bounds_ s).
Proof using P_bounds.
  unfold _verify_grid_bounds_, get_lower, get_upper, get_size, get_bounds,
    set_lower, set_upper, set_size_at.
  lg.
Qed.

Lemma logs_zero_coord s d : logs P (zero_coord s d).
Proof. unfold zero_coord, get_size. pose proof (logs_set_coord s d). lg. Qed.

Lemma logs_link_coord_buffer d s : logs P (_link_coord_buffer_ d s).
Proof using P_bounds P_ptr.
  unfold _link_coord_buffer_, get_coord_ptr, get_bounds.
  pose proof (logs_set_coord s d). lg.
Qed.

Lemma logs_axis_view g lb ub k s : logs P (axis_view g lb ub k s).
Proof using P_ptr. unfold axis_view, get_coord_ptr. lg. Qed.

Lemma logs_link_coord_buffer_1D s : logs P (_link_coord_buffer_1Dcoords s).
Proof using P_bounds P_ptr.
  unfold _link_coord_buffer_1Dcoords, get_bounds.
  apply logs_bind; [apply logs_self | intros g].
  apply logs_bind; [apply logs_native; auto | intros [lb ub]].
  apply logs_bind; [apply logs_axis_view | intros gc0].
  apply logs_bind; [apply logs_axis_view | intros gc1].
  apply logs_bind.
  - destruct (decide (_rank g = 3)).
    + apply logs_bind; [apply logs_axis_view | intros gc2].
      apply logs_bind; [apply logs_the_mem | intros m].
      destruct (meshgrid3 _ _ _) as [[c0 c1] c2]. apply logs_ret.
    + destruct (decide (_rank g = 2)); [|apply logs_raise].
      apply logs_bind; [apply logs_the_mem | intros m].
      destruct (meshgrid2 _ _) as [c0 c1]. apply logs_ret.
  - intros [[gc00 gc11] gc22].
    pose proof (fun d x => logs_set_coord s d x). lg.
Qed.

Lemma logs_link_coords s : logs P (link_coords s).
Proof using P_bounds P_ptr.
  unfold link_coords. apply logs_bind; [apply logs_self | intros g].
  destruct (decide (_ndims g = _rank g \/ _ndims g = 0)).
  - apply logs_for_each. intros x _. apply logs_link_coord_buffer.
  - destruct (decide (_ndims g < _rank g)); [|apply logs_ret].
    apply logs_bind; [|intros _; apply logs_link_coord_buffer_1D].
    apply logs_when, logs_raise.
Qed.

Lemma logs_allocate_coords s ff : logs P (_allocate_coords_ s ff).
Proof using P_bounds P_ptr.
  unfold _allocate_coords_.
  pose proof (logs_verify s). pose proof (logs_link_coords s).
  pose proof (fun d => logs_zero_coord s d).
  pose proof (fun d z => logs_fill_coord s d z).
  lg.
Qed.

Lemma logs_link_item_buffer item s : logs P (_link_item_buffer_ item s).
Proof using P_bounds P_item.
  unfold _link_item_buffer_, get_bounds.
  pose proof (fun x => logs_set_item_slot item s x). lg.
Qed.

Lemma logs_allocate_items item s ff : logs P (_allocate_items_ item s ff).
Proof using P_bounds P_item.
  unfold _allocate_items_, get_size.
  pose proof (logs_verify s). pose proof (logs_link_item_buffer item s).
  pose proof (fun it z => logs_fill_item it s z).
  pose proof (fun x => logs_set_item_slot item s x).
  lg.
Qed.

(** The requests for allocation, which a Grid read from a file does not
    make. *)
Lemma logs_add_coords_at ff s :
  (ff = false -> forall h s, P (CGridAddCoord h s)) -> logs P (add_coords_at ff s).
Proof using P_bounds P_ptr.
  intros Hadd. unfold add_coords_at.
  pose proof (logs_get_coord s 0). pose proof (logs_allocate_coords s ff).
  pose proof (logs_set_flag s true).
  apply logs_bind; [assumption | intros c]. destruct c; [apply logs_warn|].
  apply logs_bind; [|intros _; apply logs_bind; [assumption | intros _; assumption]].
  destruct ff; simpl; [apply logs_ret|].
  apply logs_bind; [apply logs_self | intros g0]. apply logs_native. apply Hadd.
  reflexivity.
Qed.

Lemma logs_add_coords sl cd ff :
  (ff = false -> forall h s, P (CGridAddCoord h s)) -> logs P (add_coords sl cd ff).
Proof using P_bounds P_ptr.
  intros Hadd. unfold add_coords. apply logs_bind.
  - apply logs_for_each. intros s _. apply logs_add_coords_at. exact Hadd.
  - intros _. destruct (normalize sl) as [|s [|s' l]]; try apply logs_ret.
    destruct cd; [apply logs_get_coord | apply logs_ret].
Qed.

Lemma logs_item_check item s : logs P (item_check item s).
Proof. unfold item_check. pose proof (logs_get_item_slot item s). lg. Qed.

Lemma logs_add_item_loop item ff l :
  (ff = false -> forall h i s, P (CGridAddItem h i s)) ->
  forall done, logs P (add_item_loop item ff l done).
Proof using P_bounds P_item.
  intros Hadd. induction l as [|s l IH]; intros done; simpl.
  - apply logs_ret.
  - apply logs_bind; [apply logs_item_check | intros d].
    apply logs_bind; [|intros _; apply IH].
    apply logs_when. apply logs_bind; [|intros _; apply logs_allocate_items].
    destruct ff; simpl; [apply logs_ret|].
    apply logs_bind; [apply logs_self | intros g0]. apply logs_native. apply Hadd.
    reflexivity.
Qed.

Lemma logs_add_item item sl ff :
  (ff = false -> forall h i s, P (CGridAddItem h i s)) -> logs P (add_item item sl ff).
Proof using P_bounds P_item.
  intros Hadd. unfold add_item. apply logs_bind; [apply logs_add_item_loop; exact Hadd|].
  intros _. destruct (normalize sl) as [|s [|s' l]]; try apply logs_ret.
  apply logs_get_item_slot.
Qed.

Lemma logs_populate a st ff :
  (ff = false -> forall h s, P (CGridAddCoord h s)) ->
  (ff = false -> forall h i s, P (CGridAddItem h i s)) ->
  logs P (populate a st ff).
Proof using P_bounds P_ptr P_item.
  intros Hc Hi. unfold populate.
  pose proof (logs_add_coords st None ff Hc).
  pose proof (fun it => logs_add_item it (Some (One (CENTER loc))) ff Hi).
  lg.
Qed.

End Logs.

(** *** The constructor *)

Lemma init_unfold a : __init__ a = bind (check_args a) (construct a).
Proof. reflexivity. Qed.

(** The check of the arguments makes no native call. *)
Lemma check_args_silent P a : logs P (check_args a).
Proof.
  unfold check_args.
  repeat first
    [ apply logs_ret | apply logs_raise | apply logs_modify | apply logs_warn
    | apply logs_bind; [ | intros ? ]
    | apply logs_when
    | match goal with
      | |- logs _ (match ?x with _ => _ end) => destruct x
      | |- logs _ (if ?x then _ else _) => destruct x
      end ].
Qed.

Lemma logs_nothing {A} (m : M A) g w :
  logs (fun _ => False) m -> calls (m g w).2 = calls w.
Proof.
  intros H. destruct (H g w) as (l & E & F). rewrite E.
  destruct l as [|c l]; [apply app_nil_r|]. inversion F. contradiction.
Qed.

Lemma logs_construct (P : call -> Prop) a md :
  (forall c, is_query c = true -> P c) ->
  (md = InMemory -> forall c, creates_grid c = true \/ is_allocation c = true ->
                    is_file_call c = false -> P c) ->
  (md <> InMemory -> forall c, is_file_call c = true \/ c = CPetCount -> P c) ->
  logs P (construct a md).
Proof.
  intros Hq Hmem Hfile. unfold construct.
  assert (logs P (reset_attributes a)) as Hreset.
  { unfold reset_attributes.
    repeat first [apply logs_modify | apply logs_bind; [ | intros ? ]]. }
  assert (logs P shadow_lists) as Hshadow.
  { unfold shadow_lists.
    repeat first [apply logs_modify | apply logs_self | apply logs_bind; [ | intros ? ]]. }
  assert (forall st, logs P (populate a st (from_file_of md))) as Hpop.
  { intros st. apply logs_populate.
    - intros h s. apply Hq. reflexivity.
    - intros h d s. apply Hq. reflexivity.
    - intros h i s. apply Hq. reflexivity.
    - intros E h s. destruct md; [|discriminate E].
      apply Hmem; [reflexivity | right; reflexivity | reflexivity].
    - intros E h i s. destruct md; [|discriminate E].
      apply Hmem; [reflexivity | right; reflexivity | reflexivity]. }
  apply logs_bind; [exact Hreset | intros _].
  apply logs_bind.
  - destruct md as [|fn ft].
    + unfold create_in_memory.
      assert (P CGridCreateNoPeriDim)
        by (apply Hmem; [reflexivity | left; reflexivity | reflexivity]).
      assert (P CGridCreate1PeriDim)
        by (apply Hmem; [reflexivity | left; reflexivity | reflexivity]).
      repeat first
        [ apply logs_ret | apply logs_raise | apply logs_modify | apply logs_self
        | apply logs_native; assumption
        | apply logs_bind; [ | intros ? ]
        | apply logs_when
        | match goal with
          | |- logs _ (if ?x then _ else _) => destruct x
          end ].
    + unfold create_from_file.
      assert (P CPetCount) by (apply Hfile; [discriminate | right; reflexivity]).
      assert (P CGridCreateFromFile) by (apply Hfile; [discriminate | left; reflexivity]).
      assert (P CScripInq) by (apply Hfile; [discriminate | left; reflexivity]).
      assert (P CGridspecInq) by (apply Hfile; [discriminate | left; reflexivity]).
      repeat first
        [ apply logs_ret | apply logs_raise | apply logs_modify | apply logs_self
        | apply logs_native; assumption
        | apply logs_bind; [ | intros ? ]
        | apply logs_when
        | match goal with
          | |- logs _ (match ?x with _ => _ end) => destruct x
          | |- logs _ (if ?x then _ else _) => destruct x
          end ].
  - intros st. apply logs_bind; [apply logs_modify | intros _].
    apply logs_bind; [exact Hshadow | intros _].
    apply logs_bind; [apply Hpop | intros _]. apply logs_modify.
Qed.

Lemma logs_init (P : call -> Prop) a :
  (forall c, is_query c = true -> P c) ->
  (is_Some (a_max_index a) ->
   forall c, creates_grid c = true \/ is_allocation c = true ->
             is_file_call c = false -> P c) ->
  (a_max_index a = None -> forall c, is_file_call c = true \/ c = CPetCount -> P c) ->
  logs P (__init__ a).
Proof.
  intros Hq Hmem Hfile. rewrite init_unfold. intros g w. unfold bind.
  pose proof (logs_nothing (check_args a) g w (check_args_silent _ a)) as Hc.
  destruct (check_args a g w) as [[[md|e] g1] w1] eqn:E; simpl in Hc.
  - assert (logs P (construct a md)) as Hl.
    { destruct (a_max_index a) as [mi|] eqn:Hmi.
      - apply (check_args_in_memory _ _ _ _ _ _ _ Hmi) in E as (-> & _).
        apply logs_construct; [exact Hq | intros _; apply Hmem; eauto | intros Hne; contradiction].
      - apply (check_args_from_file _ _ _ _ _ _ Hmi) in E as (fn & ft & _ & _ & -> & _).
        apply logs_construct; [exact Hq | discriminate | intros _; apply Hfile; reflexivity]. }
    destruct (Hl g1 w1) as (l & El & Fl). exists l. rewrite El, Hc. auto.
  - exists []. rewrite app_nil_r. split; [exact Hc | constructor].
Qed.

Lemma logs_Grid_call (P : call -> Prop) a w :
  P CManager ->
  (forall c, is_query c = true -> P c) ->
  (is_Some (a_max_index a) ->
   forall c, creates_grid c = true \/ is_allocation c = true ->
             is_file_call c = false -> P c) ->
  (a_max_index a = None -> forall c, is_file_call c = true \/ c = CPetCount -> P c) ->
  exists l, calls (Grid_call a w).2 = calls w ++ l /\ Forall P l.
Proof.
  intros Hm Hq Hmem Hfile. unfold Grid_call, initialize.
  apply logs_bind; [apply logs_native; exact Hm | intros _].
  apply logs_init; assumption.
Qed.

(** * Further properties of the methods *)

(** ** What the two adders leave alone *)

(** X1. Whatever its outcome, normal or raising, [add_coords] changes
    neither the mask and area slots nor the attributes fixed at
    construction (maximum index, native handle, types, rank, periodicity,
    coordinate system, number of coordinate dimensions, finalization
    flag). *)
Theorem add_coords_spares_items (sl : option StaggerArg) (cd : option nat) (ff : bool)
    (g : Grid) (w : World St) :
  same_items g (add_coords sl cd ff g w).1.2
  /\ same_attributes g (add_coords sl cd ff g w).1.2.
Proof. split; [apply add_coords_items | apply add_coords_attributes]. Qed.

(** X2. Whatever its outcome, [add_item] changes neither the coordinate
    slots, the stagger flags and [has_corners], nor the attributes fixed at
    construction. *)
Theorem add_item_spares_coordinates (item : GridItem) (sl : option StaggerArg) (ff : bool)
    (g : Grid) (w : World St) :
  same_coordinates g (add_item item sl ff g w).1.2
  /\ same_attributes g (add_item item sl ff g w).1.2.
Proof. split; [apply add_item_coordinates | apply add_item_attributes]. Qed.

(** ** The layout of the shadow lists *)

(** X3. A construction that returns a Grid, in memory or from a file, has
    given every shadow list (flags, lower and upper bounds, sizes,
    coordinates, mask, area) [2 ** rank] entries and every row of
    coordinate slots [rank] entries. *)
Theorem constructor_lays_out (a : InitArgs) (w : World St) g w' :
  Grid_call a w = (Ok tt, g, w') -> shaped g.
Proof.
  intros H. unfold Grid_call, initialize in H.
  apply bind_ok in H as (u & g1 & w1 & _ & H).
  apply init_phases in H as (md & st & g3 & w3 & g4 & g5 & Hsh & Hpop & ->).
  apply shadow_lists_shaped in Hsh.
  pose proof (stays_run _ _ _ _ _ _ _ (populate_shape _ _ _) Hpop) as Hss.
  pose proof (shaped_same_shape _ _ Hsh Hss) as [].
  constructor; simpl; assumption.
Qed.

(** X4. The layout is an invariant of the adders: on an object whose
    shadow lists have [2 ** rank] entries and rows of [rank] slots,
    [add_coords] and [add_item] leave them so, whether they return or
    raise. *)
Theorem layout_kept (g : Grid) (w : World St) (sl : option StaggerArg) (cd : option nat)
    (item : GridItem) (ff : bool) :
  shaped g ->
  shaped (add_coords sl cd ff g w).1.2 /\ shaped (add_item item sl ff g w).1.2.
Proof.
  intros Hs. split; eapply shaped_same_shape; try exact Hs.
  - apply add_coords_shape.
  - apply add_item_shape.
Qed.

(** ** A construction that fails *)

(** X5. The finalization flag is the last thing the constructor sets.  When
    the expression [Grid(...)] raises, at whatever point, the object is left
    without the flag, and [destroy] (so [__del__] too) on it returns without
    a native call: a native grid created before the failure is not
    released. *)
Theorem failed_construction_unfinalized (a : InitArgs) (w : World St) e g w' :
  Grid_call a w = (Raise e, g, w') ->
  _finalized g = None /\ destroy g w' = (Ok tt, g, w') /\ __del__ g w' = (Ok tt, g, w').
Proof.
  intros H. unfold Grid_call, initialize in H.
  assert (_finalized g = None) as Hf.
  { apply bind_raised in H as [H | (u & g1 & w1 & E & H)].
    - unfold native in H.
      destruct (esmp_manager esmp (nstate w) (mem w)) as [[r s1] m1].
      injection H as _ <- _. reflexivity.
    - unfold native in E.
      destruct (esmp_manager esmp (nstate w) (mem w)) as [[r s1] m1].
      injection E as _ <- _.
      apply init_raised_unfinalized in H. exact H. }
  split; [exact Hf|].
  unfold __del__. rewrite destroy_run, Hf. split; reflexivity.
Qed.

(** ** Reading back what was added *)

Lemma get_item_slot_at item s x g w :
  item_at item g s = Some x -> get_item_slot item s g w = (Ok (Some x), g, w).
Proof.
  intros H. unfold get_item_slot. erewrite bind_run by reflexivity. cbv beta.
  destruct item; simpl in H; [| |discriminate]; unfold lift, py_get.
  - unfold mask_at in H. destruct (_mask g !! s) as [o|]; [|discriminate].
    simpl in H. subst o. reflexivity.
  - unfold area_at in H. destruct (_area g !! s) as [o|]; [|discriminate].
    simpl in H. subst o. reflexivity.
Qed.

(** X6. [add_coords] at one location with a [coord_dim] returns the slot
    of that dimension, and [get_coords] then returns the very same array
    without changing anything; when the slot is empty [get_coords] raises
    [AssertionError].  In the normal case, on a location that was empty or
    whole, the slot of every dimension below the rank is filled. *)
Theorem get_coords_returns_added (sl : option StaggerArg) (s d : nat) (ff : bool)
    (g : Grid) (w : World St) r g1 w1 :
  normalize sl = [s] ->
  add_coords sl (Some d) ff g w = (Ok r, g1, w1) ->
  get_coords d (Some (One s)) g1 w1
    = (match r with Some x => Ok x | None => Raise AssertionError end, g1, w1)
  /\ (_ndims g = _rank g \/ _ndims g = 0 ->
      coord_at g s 0 = None \/ populated g s ->
      d < _rank g -> is_Some r).
Proof.
  intros Hn H. unfold add_coords in H. rewrite Hn in H.
  apply bind_ok in H as (u & g2 & w2 & Hloop & Hret).
  pose proof (get_coord_ok _ _ _ _ _ _ _ Hret) as (-> & -> & Hat).
  split.
  - unfold get_coords. erewrite bind_run by reflexivity. cbv beta.
    erewrite bind_run by exact Hret. destruct r; reflexivity.
  - intros Hnd HQ Hd.
    assert (populated g2 s) as (Hall & _).
    { eapply add_coords_loop_post; [exact Hloop | left | exact Hnd | exact HQ]. }
    assert (frame any any g g2) as Hfr.
    { eapply (fk_add_coords_loop any any); [|exact Hloop]. intros; split; exact I. }
    rewrite <- Hat. apply Hall. rewrite (fr_rank _ _ _ _ Hfr). exact Hd.
Qed.

(** X7. [add_item] at one location that returns hands out the array it has
    linked, and [get_item] at that location then returns the very same
    array without changing anything. *)
Theorem get_item_returns_added (item : GridItem) (sl : option StaggerArg) (s : nat)
    (ff : bool) (g : Grid) (w : World St) r g1 w1 :
  normalize sl = [s] ->
  add_item item sl ff g w = (Ok r, g1, w1) ->
  exists x, r = Some x /\ get_item item (Some (One s)) g1 w1 = (Ok x, g1, w1).
Proof.
  intros Hn H.
  destruct (add_item_ok _ _ _ _ _ _ _ _ _ Hn H) as (w0 & _ & Hall & ->).
  destruct (allocate_items_linked _ _ _ _ _ _ _ _ Hall) as [x Hx].
  exists x. split; [exact Hx|].
  unfold get_item. erewrite bind_run by reflexivity. cbv beta.
  erewrite bind_run by (apply get_item_slot_at; exact Hx). reflexivity.
Qed.

(** The coordinate rows of a location that was not requested are what
    they were before [populate]. *)
Lemma populate_coords_elsewhere a st ff u g w g' w' s :
  populate a st ff g w = (Ok u, g', w') -> s ∉ requested st ->
  _coords g' !! s = _coords g !! s.
Proof.
  intros H Hs. unfold populate in H.
  apply bind_ok in H as (u1 & g1 & w1 & Hc & Hrest).
  assert (stays same_coordinates
            (bind (when (truthy (a_add_user_area a))
                     (bind (add_item AREA (Some (One (CENTER loc))) ff) (fun _ => ret tt)))
                  (fun _ => when (truthy (a_add_mask a))
                     (bind (add_item MASK (Some (One (CENTER loc))) ff) (fun _ => ret tt)))))
    as Hitems.
  { assert (forall it, stays same_coordinates
              (bind (add_item it (Some (One (CENTER loc))) ff) (fun _ => ret tt))) as Hit.
    { intros it. apply (stays_bind _ same_coordinates_trans).
      - apply add_item_coordinates.
      - intros _. apply (stays_ret _ same_coordinates_refl). }
    apply (stays_bind _ same_coordinates_trans);
      [|intros _]; apply (stays_when _ same_coordinates_refl), Hit. }
  destruct (stays_run _ _ _ _ _ _ _ Hitems Hrest) as [-> _ _].
  destruct st as [x|]; simpl in Hc.
  - apply bind_ok in Hc as (r & g2 & w2 & Hadd & Hret).
    apply ret_ok in Hret as (_ & -> & ->).
    apply fk_add_coords in Hadd. apply (fr_coords _ _ _ _ Hadd). exact Hs.
  - apply ret_ok in Hc as (_ & -> & ->). reflexivity.
Qed.

(** X8. On a Grid an in-memory construction has just returned,
    [get_coords] at a location that was not passed as [staggerloc] raises
    [AssertionError] and changes nothing; so it does at the centre when no
    [staggerloc] was given. *)
Theorem get_coords_before_add (a : InitArgs) (mi : list Z) (w : World St) g w' (s d : nat) :
  a_max_index a = Some mi ->
  Grid_call a w = (Ok tt, g, w') ->
  s ∉ requested (a_staggerloc a) ->
  s < 2 ^ length mi -> d < length mi ->
  get_coords d (Some (One s)) g w' = (Raise AssertionError, g, w').
Proof.
  intros Hmi H Hs Hlt Hd. unfold Grid_call, initialize in H.
  apply bind_ok in H as (u & g1 & w1 & _ & H).
  apply (init_in_memory _ _ _ _ _ _ _ Hmi) in H
    as (g0 & w0 & g2 & _ & _ & _ & Hco & _ & _ & _ & _ & _ & Hpop & ->).
  pose proof (populate_coords_elsewhere _ _ _ _ _ _ _ _ s Hpop Hs) as Hrow.
  rewrite Hco in Hrow.
  rewrite (lookup_replicate_2 _ _ _ Hlt) in Hrow.
  unfold get_coords. erewrite bind_run by reflexivity. cbv beta.
  unfold bind at 1. rewrite get_coord_run. simpl. unfold py_get. rewrite Hrow. simpl.
  rewrite (lookup_replicate_2 _ _ _ Hd). reflexivity.
Qed.

(** ** Grids of rank below two *)

Lemma allocate_coords_second s ff u g w g' w' :
  _allocate_coords_ s ff g w = (Ok u, g', w') -> is_Some (coord_at g' s 1).
Proof.
  intros H. unfold _allocate_coords_ in H.
  apply bind_ok in H as (u1 & g1 & w1 & _ & H).
  apply bind_ok in H as (u2 & g2 & w2 & _ & H).
  apply bind_ok in H as (u3 & g3 & w3 & Hz1 & H).
  apply bind_ok in H as (g0 & g4 & w4 & Hs & H). minv Hs.
  apply bind_ok in H as (u5 & g5 & w5 & Hz2 & H).
  apply bind_ok in H as (u6 & g6 & w6 & Hl & Hfill).
  frame_of Hz2 as Fz2. frame_of Hl as Fl. frame_of Hfill as Ffill.
  apply zero_coord_post in Hz1.
  eapply fr_coords_mono; [exact Ffill|].
  eapply fr_coords_mono; [exact Fl|].
  eapply fr_coords_mono; [exact Fz2 | exact Hz1].
Qed.

Lemma coord_at_row g s d x :
  coord_at g s d = Some x -> exists n, (length <$> _coords g) !! s = Some n /\ d < n.
Proof.
  unfold coord_at. intros H. rewrite list_lookup_fmap.
  destruct (_coords g !! s) as [row|]; [|discriminate]. simpl.
  exists (length row). split; [reflexivity|].
  destruct (row !! d) as [o|] eqn:E; [|discriminate].
  eapply lookup_lt_Some, E.
Qed.

(** X9. The allocation writes the coordinate slots of dimensions 0 and 1
    unconditionally, so a Grid of rank below two cannot hold coordinates:
    an in-memory construction from a [max_index] of fewer than two entries
    with a [staggerloc] never returns a Grid. *)
Theorem low_rank_never_constructs (a : InitArgs) (mi : list Z) (x : StaggerArg)
    (w : World St) :
  a_max_index a = Some mi ->
  length mi < 2 ->
  a_staggerloc a = Some x ->
  normalize (Some x) <> [] ->
  (Grid_call a w).1.1 <> Ok tt.
Proof.
  intros Hmi Hlen Hst Hne Hok.
  destruct (Grid_call a w) as [[r g] w'] eqn:H. simpl in Hok. subst r.
  unfold Grid_call, initialize in H.
  apply bind_ok in H as (u & g1 & w1 & _ & H).
  apply (init_in_memory _ _ _ _ _ _ _ Hmi) in H
    as (g0 & w0 & g2 & _ & _ & _ & Hco & _ & _ & _ & _ & _ & Hpop & _).
  rewrite Hst in Hpop. unfold populate in Hpop.
  apply bind_ok in Hpop as (u1 & g3 & w3 & Hc & _). simpl in Hc.
  apply bind_ok in Hc as (r & g4 & w4 & Hadd & _).
  unfold add_coords in Hadd.
  apply bind_ok in Hadd as (u2 & g5 & w5 & Hloop & _).
  destruct (normalize (Some x)) as [|s l]; [contradiction|]. simpl in Hloop.
  apply bind_ok in Hloop as (u3 & g6 & w6 & Hat & _).
  unfold add_coords_at in Hat.
  apply bind_ok in Hat as (c & g7 & w7 & Hget & Hat).
  apply get_coord_ok in Hget as (-> & -> & Hget).
  rewrite (coord_at_fresh _ _ _ _ _ Hco) in Hget. subst c.
  apply bind_ok in Hat as (u4 & g8 & w8 & Hnat & Hat).
  assert (g8 = g0) as ->.
  { simpl in Hnat. minv Hnat. reflexivity. }
  apply bind_ok in Hat as (u5 & g9 & w9 & Hall & _).
  pose proof (stays_run _ _ _ _ _ _ _ (allocate_coords_shape s false) Hall) as Hss.
  destruct (allocate_coords_second _ _ _ _ _ _ _ Hall) as [y Hy].
  apply coord_at_row in Hy as (n & Hn & Hlt).
  rewrite (ss_coords _ _ Hss), Hco, fmap_replicate, length_replicate in Hn.
  apply lookup_replicate in Hn as [-> _]. lia.
Qed.

(** ** The in-memory constructor *)

(** X10. In memory, a number of periodic dimensions other than 0 or 1
    ([None] counts as 0) makes the constructor raise [TypeError] before any
    native call: no native grid is created. *)
Theorem periodic_dims_checked (a : InitArgs) (mi : list Z) (g : Grid) (w : World St) :
  a_max_index a = Some mi ->
  default 0%Z (a_num_peri_dims a) <> 0%Z ->
  default 0%Z (a_num_peri_dims a) <> 1%Z ->
  exists g' w',
    __init__ a g w = (Raise TypeError, g', w')
    /\ calls w' = calls w /\ nstate w' = nstate w /\ mem w' = mem w.
Proof.
  intros Hmi H0 H1. unfold __init__.
  destruct (check_args_returns a mi g w Hmi) as [w1 E1].
  pose proof (check_args_in_memory _ _ _ _ _ _ _ Hmi E1) as (_ & _ & Hst & Hme & Hca).
  erewrite bind_run by exact E1. cbv beta.
  destruct (reset_attributes_returns a (set_max_index (wrap32 <$> mi) g) w1) as [g2 E2].
  pose proof (reset_attributes_post _ _ _ _ _ _ E2) as (_ & _ & _ & _ & _ & Hn2).
  erewrite bind_run by exact E2. cbv beta iota.
  exists g2, w1. split; [|auto].
  apply bind_raise. unfold create_in_memory.
  erewrite bind_run by reflexivity. cbv beta.
  apply bind_raise.
  destruct (decide (_num_peri_dims g2 = 0%Z)) as [E|_]; [congruence|].
  destruct (decide (_num_peri_dims g2 = 1%Z)) as [E|_]; [congruence|].
  reflexivity.
Qed.

Lemma wrap32_small z : (- 2 ^ 31 <= z < 2 ^ 31)%Z -> wrap32 z = z.
Proof. intros H. unfold wrap32. rewrite Z.mod_small by lia. lia. Qed.

(** X11. An in-memory construction that returns a Grid has stored
    [max_index] cast to 32-bit integers: entry by entry wrapped into the
    [int32] range, so a [max_index] whose entries all fit is stored
    unchanged. *)
Theorem max_index_stored (a : InitArgs) (mi : list Z) (w : World St) g w' :
  a_max_index a = Some mi ->
  Grid_call a w = (Ok tt, g, w') ->
  _max_index g = wrap32 <$> mi
  /\ (Forall (fun z => - 2 ^ 31 <= z < 2 ^ 31)%Z mi -> _max_index g = mi).
Proof.
  intros Hmi H. unfold Grid_call, initialize in H.
  apply bind_ok in H as (u & g1 & w1 & Hman & H).
  assert (_max_index g = wrap32 <$> mi) as Hg.
  { unfold __init__ in H.
    apply bind_ok in H as (md & g2 & w2 & Hca & H).
    apply (check_args_in_memory _ _ _ _ _ _ _ Hmi) in Hca as (-> & -> & _).
    apply bind_ok in H as (u1 & g3 & w3 & Hra & H).
    apply reset_attributes_post in Hra as (_ & Hm3 & _).
    apply bind_ok in H as (st & g4 & w4 & Hcr & H).
    apply create_in_memory_post in Hcr as (_ & Hm4 & _).
    apply bind_ok in H as (u3 & g5 & w5 & Hty & H). apply modify_ok in Hty as (-> & ->).
    apply bind_ok in H as (u4 & g6 & w6 & Hsh & H).
    apply shadow_lists_post in Hsh as (_ & Hm6 & _).
    apply bind_ok in H as (u5 & g7 & w7 & Hpop & H). apply modify_ok in H as (-> & ->).
    destruct (stays_run _ _ _ _ _ _ _ (populate_attributes _ _ _) Hpop) as [Hm7].
    simpl. rewrite Hm7, Hm6. simpl. rewrite Hm4, Hm3. reflexivity. }
  split; [exact Hg|].
  intros Hall. rewrite Hg. clear -Hall.
  induction Hall as [|z l Hz _ IH]; [reflexivity|].
  simpl. rewrite wrap32_small by exact Hz. f_equal. exact IH.
Qed.

(** X12. In memory, [add_mask] and [add_user_area] are not ignored: a
    construction with a true [add_mask] that returns a Grid has linked the
    mask at the centre, and one with a true [add_user_area] the area. *)
Theorem in_memory_items_added (a : InitArgs) (mi : list Z) (w : World St) g w' :
  a_max_index a = Some mi ->
  Grid_call a w = (Ok tt, g, w') ->
  (truthy (a_add_mask a) = true -> is_Some (mask_at g (CENTER loc)))
  /\ (truthy (a_add_user_area a) = true -> is_Some (area_at g (CENTER loc))).
Proof.
  intros Hmi H. unfold Grid_call, initialize in H.
  apply bind_ok in H as (u & g1 & w1 & _ & H).
  apply (init_in_memory _ _ _ _ _ _ _ Hmi) in H
    as (g0 & w0 & g2 & _ & _ & _ & _ & _ & _ & _ & _ & _ & Hpop & ->).
  unfold populate in Hpop.
  apply bind_ok in Hpop as (u1 & g3 & w3 & _ & Hpop).
  apply bind_ok in Hpop as (u2 & g4 & w4 & Harea & Hmask).
  split; intros Ht; rewrite Ht in *; simpl in *.
  - apply bind_ok in Hmask as (r & g5 & w5 & Hadd & Hret).
    apply ret_ok in Hret as (_ & -> & ->).
    destruct (add_item_ok MASK (Some (One (CENTER loc))) (CENTER loc) _ _ _ _ _ _ eq_refl Hadd)
      as (w6 & _ & Hall & _).
    apply (allocate_items_linked MASK) in Hall. exact Hall.
  - apply bind_ok in Harea as (r & g5 & w5 & Hadd & Hret).
    apply ret_ok in Hret as (_ & -> & ->).
    destruct (add_item_ok AREA (Some (One (CENTER loc))) (CENTER loc) _ _ _ _ _ _ eq_refl Hadd)
      as (w6 & _ & Hall & _).
    apply (allocate_items_linked AREA) in Hall.
    assert (keeps (frame any any)
              (when (truthy (a_add_mask a))
                 (bind (add_item MASK (Some (One (CENTER loc))) false) (fun _ => ret tt))))
      as K.
    { apply fk_when, fk_bind; [|intros; apply fk_ret].
      intros g6 w7 r' g7 w8 E. eapply frame_weaken; [| |eapply fk_add_item, E]; simpl.
      - intros i [].
      - intros; exact I. }
    apply (fr_area_mono _ _ _ _ (K _ _ _ _ _ Hmask)). exact Hall.
Qed.

(** ** The first verification of the bounds *)

(** X13. When the native side cannot give the bounds of a location, the
    first verification (nothing cached yet) raises [GridBoundsNotCreated]
    whatever the native error was; a later verification (bounds cached)
    lets the native error through.  Neither changes the object. *)
Theorem bounds_unavailable (s : nat) (g : Grid) (w : World St) e st m :
  ESMP_GridGetCoordBounds esmp (_struct g) s (nstate w) (mem w) = (Raise e, st, m) ->
  let w' := mkWorld st m (calls w ++ [CGridGetCoordBounds (_struct g) s]) (warns w) in
  (_lower_bounds g !! s = Some None ->
   _verify_grid_bounds_ s g w = (Raise GridBoundsNotCreated, g, w'))
  /\ (forall clb, _lower_bounds g !! s = Some (Some clb) ->
      _verify_grid_bounds_ s g w = (Raise e, g, w')).
Proof.
  intros Hb w'. split.
  - intros Hl. unfold _verify_grid_bounds_, get_lower, get_bounds, bind, self, lift,
      try_except, native, py_get.
    rewrite Hl, Hb. reflexivity.
  - intros clb Hl. unfold _verify_grid_bounds_, get_lower, get_bounds, bind, self, lift,
      native, py_get.
    rewrite Hl, Hb. reflexivity.
Qed.

(** X14. The first verification of a location caches what the native side
    answers: the lower bounds, the upper bounds and their difference as
    the size. *)
Theorem bounds_cached (s : nat) (g : Grid) (w : World St) lb ub d st m :
  _lower_bounds g !! s = Some None ->
  s < length (_upper_bounds g) -> s < length (_size g) ->
  ESMP_GridGetCoordBounds esmp (_struct g) s (nstate w) (mem w) = (Ok (lb, ub), st, m) ->
  np_sub ub lb = Ok d ->
  exists g',
    _verify_grid_bounds_ s g w
      = (Ok tt, g', mkWorld st m (calls w ++ [CGridGetCoordBounds (_struct g) s]) (warns w))
    /\ lower_at g' s = Some lb /\ upper_at g' s = Some ub /\ size_at g' s = Some d
    /\ same_coordinates g g' /\ same_items g g' /\ same_attributes g g'.
Proof.
  intros Hl Hu Hz Hb Hd.
  assert (s < length (_lower_bounds g)) as Hl' by (eapply lookup_lt_Some, Hl).
  eexists. split.
  - unfold _verify_grid_bounds_, get_lower, get_bounds, bind, self, lift, try_except,
      native, py_get, set_lower, set_upper, set_size_at, bind, self, lift, modify, py_set.
    rewrite Hl, Hb. simpl.
    destruct (decide (s < length (_lower_bounds g))); [|contradiction]. simpl.
    destruct (decide (s < length (_upper_bounds g))); [|contradiction]. simpl.
    rewrite Hd.
    destruct (decide (s < length (_size g))); [|contradiction]. reflexivity.
  - unfold lower_at, upper_at, size_at. simpl.
    rewrite !list_lookup_insert_eq by assumption. simpl.
    repeat split.
Qed.

(** ** Edge cases of the adders *)

(** X15. With an empty list of locations both adders return [None] and do
    nothing, even for an item that is not supported; with a non-empty list
    an unsupported item is refused with [GridItemNotSupported] before
    anything is done. *)
Theorem adders_on_no_location (item : GridItem) (k : Z) (sl : option StaggerArg)
    (cd : option nat) (ff : bool) (g : Grid) (w : World St) :
  add_coords (Some (Many [])) cd ff g w = (Ok None, g, w)
  /\ add_item item (Some (Many [])) ff g w = (Ok None, g, w)
  /\ (normalize sl <> [] ->
      add_item (OtherItem k) sl ff g w = (Raise GridItemNotSupported, g, w)).
Proof.
  split; [|split].
  - unfold add_coords. simpl. destruct cd; reflexivity.
  - reflexivity.
  - intros Hne. unfold add_item. destruct (normalize sl) as [|s l]; [contradiction|].
    reflexivity.
Qed.

(** ** Slicing *)

Lemma rmap_length {A B} (f : A -> result B) (l : list A) l' :
  rmap f l = Ok l' -> length l' = length l.
Proof.
  revert l'. induction l as [|x l IH]; intros l' H; simpl in H.
  - injection H as <-. reflexivity.
  - destruct (f x) as [y|e]; [|discriminate]. simpl in H.
    destruct (rmap f l) as [ys|e]; [|discriminate]. simpl in H.
    injection H as <-. simpl. f_equal. apply IH. reflexivity.
Qed.

(** X16. A slice that [__getitem__] returns is detached from the native
    grid: it is marked finalized, so destroying it makes no native call.
    It shares the native handle, the flags, the lower bounds and the sizes
    of the parent, which are not recomputed; its coordinates, mask, area
    and upper bounds have [2 ** rank] entries.  The parent is not changed
    and the only native call is the worker count. *)
Theorem slice_is_detached (slc : Slc) (g : Grid) (w : World St) ret_ g' w' :
  __getitem__ slc g w = (Ok ret_, g', w') ->
  g' = g
  /\ calls w' = calls w ++ [CPetCount]
  /\ _finalized ret_ = Some true
  /\ destroy ret_ w' = (Ok tt, ret_, w')
  /\ _struct ret_ = _struct g /\ _rank ret_ = _rank g
  /\ _staggerloc ret_ = _staggerloc g
  /\ _lower_bounds ret_ = _lower_bounds g /\ _size ret_ = _size g
  /\ length (_coords ret_) = 2 ^ _rank g /\ length (_mask ret_) = 2 ^ _rank g
  /\ length (_area ret_) = 2 ^ _rank g /\ length (_upper_bounds ret_) = 2 ^ _rank g.
Proof.
  intros H. unfold __getitem__ in H.
  apply bind_ok in H as (n & g1 & w1 & Hn & H).
  apply native_ok in Hn as (s1 & m1 & Hn & -> & ->).
  destruct (decide (1 < n)); [minv H|].
  apply bind_ok in H as (g0 & g2 & w2 & Hs & H). apply self_ok in Hs as (-> & -> & ->).
  apply bind_ok in H as (slc' & g2 & w2 & Hf & H). apply lift_ok in Hf as (Hf & -> & ->).
  apply bind_ok in H as (c & g2 & w2 & Hc & H).
  unfold copy in Hc. apply bind_ok in Hc as (g0 & g3 & w3 & Hs & Hc).
  apply self_ok in Hs as (-> & -> & ->). apply ret_ok in Hc as (-> & -> & ->).
  apply bind_ok in H as (coords' & g2 & w2 & Hco & H). apply lift_ok in Hco as (Hco & -> & ->).
  apply bind_ok in H as (mask' & g2 & w2 & Hma & H). apply lift_ok in Hma as (Hma & -> & ->).
  apply bind_ok in H as (area' & g2 & w2 & Har & H). apply lift_ok in Har as (Har & -> & ->).
  apply bind_ok in H as (upper' & g2 & w2 & Hup & H). apply lift_ok in Hup as (Hup & -> & ->).
  apply ret_ok in H as (-> & -> & ->).
  apply rmap_length in Hco, Hma, Har, Hup. rewrite length_seq in Hco, Hma, Har, Hup.
  split; [reflexivity|]. split; [reflexivity|]. split; [reflexivity|].
  split; [rewrite destroy_run; reflexivity|].
  simpl. repeat split; assumption.
Qed.

(** ** Coordinates added in memory read zero *)

Lemma fill_mem_lookup_or b n v m k :
  fill_mem b n v m !! k = Some v \/ fill_mem b n v m !! k = m !! k.
Proof.
  unfold fill_mem. induction (seq 0 n) as [|j l IH]; simpl; [right; reflexivity|].
  destruct (decide (cell b j = k)) as [->|Hne].
  - left. apply lookup_insert_eq.
  - rewrite lookup_insert_ne by exact Hne. exact IH.
Qed.

Lemma all_cells_fill b n v m : all_cells (fill_mem b n v m) b n v.
Proof. unfold all_cells. intros i Hi. apply fill_mem_lookup. exact Hi. Qed.

Lemma all_cells_fill_other b n b' n' v m :
  all_cells m b n v -> all_cells (fill_mem b' n' v m) b n v.
Proof.
  unfold all_cells. intros H i Hi.
  destruct (fill_mem_lookup_or b' n' v m (cell b i)) as [E|E]; [exact E|].
  etrans; [exact E | apply H; exact Hi].
Qed.

Lemma all_cells_contents m t sh b v :
  all_cells m b (nelems sh) v ->
  contents m (Alias t sh b) = replicate (nelems sh) (Some v).
Proof.
  unfold all_cells. intros H. simpl. apply list_eq. intros i. rewrite list_lookup_fmap.
  destruct (decide (i < nelems sh)) as [Hi|Hi].
  - rewrite lookup_seq_lt by exact Hi. simpl. rewrite (H i Hi).
    symmetry. apply lookup_replicate_2. exact Hi.
  - rewrite lookup_seq_ge by lia. simpl. symmetry.
    apply lookup_replicate_None. lia.
Qed.

Lemma set_coord_slots s d x u g w g' w' :
  set_coord s d x g w = (Ok u, g', w') ->
  coord_at g' s d = Some x
  /\ (forall d', d' <> d -> coord_at g' s d' = coord_at g s d')
  /\ _type g' = _type g /\ w' = w.
Proof.
  intros H. pose proof (set_coord_post _ _ _ _ _ _ _ _ H) as [Hat ->].
  split; [exact Hat|]. split; [|split; [|reflexivity]].
  - intros d' Hne. unfold set_coord in H. minv H. pyinv.
    match goal with E : _coords _ !! s = Some _ |- _ => rename E into Hrow end.
    unfold coord_at. simpl.
    rewrite list_lookup_insert_eq by (eapply lookup_lt_Some; exact Hrow).
    rewrite Hrow. rewrite list_lookup_insert_ne by (intros E; apply Hne; symmetry; exact E).
    reflexivity.
  - unfold set_coord in H. minv H. reflexivity.
Qed.

Lemma link_coord_buffer_alias d s u g w g' w' :
  _link_coord_buffer_ d s g w = (Ok u, g', w') ->
  (exists sh b, coord_at g' s d = Some (Alias (_type g) sh b))
  /\ (forall d', d' <> d -> coord_at g' s d' = coord_at g s d')
  /\ _type g' = _type g.
Proof.
  intros H. unfold _link_coord_buffer_ in H.
  apply bind_ok in H as (g0 & g1 & w1 & Hs & H). apply self_ok in Hs as (-> & -> & ->).
  apply bind_ok in H as (p & g1 & w1 & Hp & H).
  unfold get_coord_ptr in Hp. apply native_ok in Hp as (? & ? & _ & -> & ->).
  apply bind_ok in H as ([lb ub] & g1 & w1 & Hb & H).
  unfold get_bounds in Hb. apply native_ok in Hb as (? & ? & _ & -> & ->).
  apply bind_ok in H as (sz & g1 & w1 & Hsz & H). apply lift_ok in Hsz as (_ & -> & ->).
  apply bind_ok in H as (a & g1 & w1 & Ha & H). apply lift_ok in Ha as (Ha & -> & ->).
  apply ndarray_from_esmf_ok in Ha. subst a.
  apply bind_ok in H as (u1 & g1 & w1 & Hset & H).
  apply set_coord_slots in Hset as (Hat & Hother & Hty & ->).
  assert (_coords g' = _coords g1 /\ _type g' = _type g1) as [Hc Ht].
  { apply when_ok in H as [[_ H] | (_ & -> & _)]; [|auto].
    apply modify_ok in H as (-> & _). auto. }
  unfold coord_at in *. rewrite Hc. split; [eauto|]. split; [exact Hother | congruence].
Qed.

Lemma link_all_alias s t (l : list nat) : forall g w u g' w',
  NoDup l ->
  for_each l (fun xyz => _link_coord_buffer_ xyz s) g w = (Ok u, g', w') ->
  _type g = t ->
  (forall d, d ∈ l -> exists sh b, coord_at g' s d = Some (Alias t sh b))
  /\ _type g' = t.
Proof.
  induction l as [|x l IH]; intros g w u g' w' Hnd H Ht.
  - simpl in H. apply ret_ok in H as (_ & -> & _). split; [|exact Ht].
    intros d Hd. inversion Hd.
  - simpl in H. apply bind_ok in H as (u1 & g1 & w1 & H1 & H2).
    apply NoDup_cons in Hnd as [Hx Hnd].
    apply link_coord_buffer_alias in H1 as ((sh & b & Hat) & _ & Ht1).
    rewrite Ht in Hat, Ht1.
    assert (forall d, d ∉ l ->
              coord_at g' s d = coord_at g1 s d) as Hkeep.
    { clear -H2. revert g1 w1 u g' w' H2.
      induction l as [|y l IHl]; intros g1 w1 u g' w' H2 d Hd.
      - simpl in H2. apply ret_ok in H2 as (_ & -> & _). reflexivity.
      - simpl in H2. apply bind_ok in H2 as (u2 & g2 & w2 & Hy & H2).
        apply link_coord_buffer_alias in Hy as (_ & Hother & _).
        rewrite (IHl _ _ _ _ _ H2 d) by (intros Hin; apply Hd; right; exact Hin).
        apply Hother. intros ->. apply Hd. left. }
    destruct (IH _ _ _ _ _ Hnd H2 Ht1) as [Hall Ht'].
    split; [|exact Ht'].
    intros d Hd. apply elem_of_cons in Hd as [->|Hd].
    + rewrite (Hkeep x Hx). eauto.
    + apply Hall. exact Hd.
Qed.

Lemma fill_coord_alias s d z g w t sh b :
  coord_at g s d = Some (Alias t sh b) ->
  fill_coord s d z g w
    = (Ok tt, g, mkWorld (nstate w) (fill_mem b (nelems sh) (cast t z) (mem w))
                         (calls w) (warns w)).
Proof.
  intros H. unfold fill_coord, bind. rewrite get_coord_run. unfold rbind, py_get.
  unfold coord_at in H.
  destruct (_coords g !! s) as [row|]; [|discriminate].
  destruct (row !! d) as [o|]; [|discriminate]. simpl in H. subst o. reflexivity.
Qed.

(** After an in-memory allocation in the normal case on a Grid of rank 2
    or 3, every dimension holds a view of the Grid's type all of whose
    cells hold zero. *)
Lemma allocate_coords_zero s u g w g' w' :
  _allocate_coords_ s false g w = (Ok u, g', w') ->
  _ndims g = _rank g \/ _ndims g = 0 ->
  _rank g = 2 \/ _rank g = 3 ->
  forall d, d < _rank g ->
    exists sh b, coord_at g' s d = Some (Alias (_type g) sh b)
                 /\ all_cells (mem w') b (nelems sh) (cast (_type g) 0).
Proof.
  intros H Hn Hr. unfold _allocate_coords_ in H.
  apply bind_ok in H as (u1 & g1 & w1 & Hv & H).
  apply bind_ok in H as (u2 & g2 & w2 & Hz0 & H).
  apply bind_ok in H as (u3 & g3 & w3 & Hz1 & H).
  apply bind_ok in H as (g0 & g4 & w4 & Hs & H). apply self_ok in Hs as (-> & -> & ->).
  apply bind_ok in H as (u5 & g5 & w5 & Hz2 & H).
  apply bind_ok in H as (u6 & g6 & w6 & Hl & Hfill).
  frame_of Hv as Fv. frame_of Hz0 as Fz0. frame_of Hz1 as Fz1. frame_of Hz2 as Fz2.
  assert (frame any any g g3) as F3.
  { eapply frame_trans; [exact Fv|]. eapply frame_trans; [exact Fz0 | exact Fz1]. }
  assert (frame any any g g5) as F5 by (eapply frame_trans; [exact F3 | exact Fz2]).
  unfold link_coords in Hl.
  apply bind_ok in Hl as (g0 & g7 & w7 & Hs & Hl). apply self_ok in Hs as (-> & -> & ->).
  destruct (decide (_ndims g5 = _rank g5 \/ _ndims g5 = 0)) as [_|Hno];
    [|exfalso; apply Hno; rewrite (fr_ndims _ _ _ _ F5), (fr_rank _ _ _ _ F5); exact Hn].
  destruct (link_all_alias s (_type g) _ _ _ _ _ _ (NoDup_seq 0 (_rank g5)) Hl)
    as [Hall Ht6]; [apply (fr_type _ _ _ _ F5)|].
  rewrite (fr_rank _ _ _ _ F5) in Hall.
  assert (forall d, d < _rank g -> exists sh b, coord_at g6 s d = Some (Alias (_type g) sh b))
    as Hview.
  { intros d Hd. apply Hall. apply elem_of_seq. lia. }
  clear Hall.
  destruct (Hview 0) as (sh0 & b0 & H0); [lia|].
  destruct (Hview 1) as (sh1 & b1 & H1); [lia|].
  simpl in Hfill.
  rewrite (bind_run _ _ _ _ _ _ _ (fill_coord_alias s 0 0%Z g6 w6 _ _ _ H0)) in Hfill.
  rewrite (bind_run _ _ _ _ _ _ _ (fill_coord_alias s 1 0%Z g6 _ _ _ _ H1)) in Hfill.
  rewrite (fr_rank _ _ _ _ F3) in Hfill.
  destruct Hr as [Hr|Hr].
  - rewrite bool_decide_eq_false_2 in Hfill by lia. simpl in Hfill.
    apply ret_ok in Hfill as (_ & -> & ->). simpl.
    intros d Hd. assert (d = 0 \/ d = 1) as [-> | ->] by lia.
    + exists sh0, b0. split; [exact H0|]. apply all_cells_fill_other, all_cells_fill.
    + exists sh1, b1. split; [exact H1|]. apply all_cells_fill.
  - rewrite bool_decide_eq_true_2 in Hfill by exact Hr. simpl in Hfill.
    destruct (Hview 2) as (sh2 & b2 & H2); [lia|].
    rewrite (fill_coord_alias s 2 0%Z g6 _ _ _ _ H2) in Hfill.
    injection Hfill as _ <- <-. simpl.
    intros d Hd. assert (d = 0 \/ d = 1 \/ d = 2) as [-> | [-> | ->]] by lia.
    + exists sh0, b0. split; [exact H0|].
      apply all_cells_fill_other, all_cells_fill_other, all_cells_fill.
    + exists sh1, b1. split; [exact H1|]. apply all_cells_fill_other, all_cells_fill.
    + exists sh2, b2. split; [exact H2|]. apply all_cells_fill.
Qed.

(** X17. In memory, [add_coords] at one location that was empty, in the
    normal case on a Grid of rank 2 or 3, leaves in every dimension a view
    of native memory of the Grid's type, and a reader of any of these views
    sees zero in every cell. *)
Theorem added_coordinates_read_zero (sl : option StaggerArg) (s : nat) (cd : option nat)
    (g : Grid) (w : World St) r g' w' :
  normalize sl = [s] ->
  _ndims g = _rank g \/ _ndims g = 0 ->
  _rank g = 2 \/ _rank g = 3 ->
  coord_at g s 0 = None ->
  add_coords sl cd false g w = (Ok r, g', w') ->
  forall d, d < _rank g ->
    exists sh b,
      coord_at g' s d = Some (Alias (_type g) sh b)
      /\ contents (mem w') (Alias (_type g) sh b)
         = replicate (nelems sh) (Some (cast (_type g) 0)).
Proof.
  intros Hn Hnd Hr Hempty H d Hd. unfold add_coords in H. rewrite Hn in H.
  apply bind_ok in H as (u & g1 & w1 & Hloop & Hret).
  assert (g' = g1 /\ w' = w1) as [-> ->].
  { destruct cd.
    - apply get_coord_ok in Hret as (-> & -> & _). auto.
    - apply ret_ok in Hret as (_ & -> & ->). auto. }
  simpl in Hloop. apply bind_ok in Hloop as (u1 & g2 & w2 & Hat & Hnil).
  apply ret_ok in Hnil as (_ & -> & ->).
  unfold add_coords_at in Hat.
  apply bind_ok in Hat as (c & g3 & w3 & Hget & Hat).
  apply get_coord_ok in Hget as (-> & -> & Hget). rewrite Hempty in Hget. subst c.
  apply bind_ok in Hat as (u2 & g3 & w3 & Hnat & Hat).
  assert (g3 = g) as ->.
  { simpl in Hnat. minv Hnat. reflexivity. }
  apply bind_ok in Hat as (u3 & g4 & w4 & Hall & Hflag).
  destruct (allocate_coords_zero _ _ _ _ _ _ Hall Hnd Hr d Hd) as (sh & b & Hview & Hz).
  unfold set_flag in Hflag. minv Hflag.
  exists sh, b. split.
  - unfold coord_at in *. simpl. exact Hview.
  - apply all_cells_contents. exact Hz.
Qed.

(** ** Construction from a file *)

(** X18. A construction from a file that returns a Grid has flagged the
    centre, and the corner exactly when [add_corner_stagger] is true, and
    no other location.  The Grid is periodic in dimension 0 with one
    periodic dimension unless [is_sphere] is [False], in which case it has
    none; [pole_dim] is the argument; for a SCRIP file the number of
    coordinate dimensions is the rank. *)
Theorem from_file_shape (a : InitArgs) (w : World St) g w' :
  a_max_index a = None ->
  Grid_call a w = (Ok tt, g, w') ->
  (forall i, i < 2 ^ _rank g ->
     _staggerloc g !! i
     = Some (bool_decide (i = CENTER loc
                          \/ (truthy (a_add_corner_stagger a) = true /\ i = CORNER loc))))
  /\ (a_is_sphere a = Some false ->
      _num_peri_dims g = 0%Z /\ _periodic_dim g = a_periodic_dim a)
  /\ (a_is_sphere a <> Some false ->
      _num_peri_dims g = 1%Z /\ _periodic_dim g = Some 0%Z)
  /\ _pole_dim g = a_pole_dim a
  /\ (a_filetype a = Some SCRIP -> _ndims g = _rank g).
Proof.
  intros Hmi H. unfold Grid_call, initialize in H.
  apply bind_ok in H as (u & g1 & w1 & _ & H).
  apply (init_from_file _ _ _ _ _ _ Hmi) in H
    as (fn & ft & g0 & w0 & g2 & Hfn & Hft & Hfmt & Hnd & Hpo & Hs0 & Hs1 & Hfl & Hco
        & Hpop & ->).
  destruct (stays_run _ _ _ _ _ _ _ (populate_attributes _ _ _) Hpop)
    as [_ _ _ _ Hrk Hpe Hpl _ Hndm Hnpd _].
  pose proof (fk_populate _ _ _ _ _ _ _ _ Hpop) as Hfr.
  simpl.
  split; [|split; [|split; [|split]]]; try congruence.
  - intros i Hi.
    set (l := if truthy (a_add_corner_stagger a)
                 && negb (bool_decide (CORNER loc = CENTER loc))
              then [CENTER loc; CORNER loc] else [CENTER loc]) in *.
    assert (i ∈ l <-> i = CENTER loc
                      \/ (truthy (a_add_corner_stagger a) = true /\ i = CORNER loc)) as Hl.
    { subst l. destruct (truthy (a_add_corner_stagger a)); simpl.
      - destruct (bool_decide (CORNER loc = CENTER loc)) eqn:Eb; simpl.
        + apply bool_decide_eq_true in Eb. rewrite list_elem_of_singleton.
          split; [auto | intros [E | [_ E]]; congruence].
        + rewrite elem_of_cons, list_elem_of_singleton.
          split; [intros [E|E]; auto | intros [E | [_ E]]; auto].
      - rewrite list_elem_of_singleton.
        split; [auto | intros [E | [E _]]; [exact E | discriminate]]. }
    destruct (decide (i ∈ l)) as [Hin|Hout].
    + rewrite bool_decide_eq_true_2 by (apply Hl; exact Hin).
      eapply populate_flags; [exact Hpop | | exact Hin].
      intros j. eapply coord_at_fresh, Hco.
    + rewrite bool_decide_eq_false_2 by (intros E; apply Hout, Hl; exact E).
      rewrite (fr_flags _ _ _ _ Hfr) by exact Hout.
      rewrite Hfl. apply lookup_replicate. split; [reflexivity|]. congruence.
  - intros E. destruct (Hs0 E). split; congruence.
  - intros E. destruct (Hs1 E). split; congruence.
  - intros E. rewrite Hft in E. injection E as ->. rewrite Hndm, Hrk. apply Hnd.
    reflexivity.
Qed.

(** ** The native calls *)

(** X19. Whatever their outcome, the adders only append to the log of
    native calls, and what they append are queries (bounds, coordinate
    pointers, item pointers) and, unless [from_file] is set, requests to
    allocate coordinates ([add_coords]) or the item ([add_item]): no grid
    is created or destroyed, and for a Grid read from a file nothing is
    allocated. *)
Theorem adders_native_calls (sl : option StaggerArg) (cd : option nat) (item : GridItem)
    (ff : bool) (g : Grid) (w : World St) :
  (exists l, calls (add_coords sl cd ff g w).2 = calls w ++ l
     /\ Forall (fun c => is_query c = true
                         \/ (ff = false /\ exists h s, c = CGridAddCoord h s)) l)
  /\ (exists l, calls (add_item item sl ff g w).2 = calls w ++ l
     /\ Forall (fun c => is_query c = true
                         \/ (ff = false /\ exists h i s, c = CGridAddItem h i s)) l).
Proof.
  split.
  - apply logs_add_coords; try (intros; left; reflexivity).
    intros E h s. right. eauto.
  - apply logs_add_item; try (intros; left; reflexivity).
    intros E h i s. right. eauto.
Qed.

(** X20. Whatever its outcome, the expression [Grid(...)] only appends to
    the log of native calls and never releases a native grid.  With a
    [max_index] it makes no call that reads a grid file and does not ask
    for the number of workers; without one it creates no in-memory grid
    and requests no allocation. *)
Theorem construction_native_calls (a : InitArgs) (w : World St) :
  exists l,
    calls (Grid_call a w).2 = calls w ++ l
    /\ Forall (fun c => releases c = false) l
    /\ (is_Some (a_max_index a) ->
        Forall (fun c => is_file_call c = false /\ c <> CPetCount) l)
    /\ (a_max_index a = None ->
        Forall (fun c => is_allocation c = false
                         /\ c <> CGridCreateNoPeriDim /\ c <> CGridCreate1PeriDim) l).
Proof.
  destruct (logs_Grid_call (fun c => releases c = false) a w) as (l & El & Fl);
    try (intros; reflexivity).
  { intros c Hc. destruct c; try discriminate Hc; reflexivity. }
  { intros _ c [Hc|Hc] _; destruct c; try discriminate Hc; reflexivity. }
  { intros _ c [Hc|Hc]; [destruct c; try discriminate Hc; reflexivity | subst c; reflexivity]. }
  exists l. split; [exact El|]. split; [exact Fl|]. split.
  - intros Hmi.
    destruct (logs_Grid_call (fun c => is_file_call c = false /\ c <> CPetCount) a w)
      as (l' & El' & Fl').
    + split; [reflexivity | discriminate].
    + intros c Hc. destruct c; try discriminate Hc; split; try reflexivity; discriminate.
    + intros _ c Hc Hf. split; [exact Hf|]. intros ->. destruct Hc; discriminate.
    + intros Hn. rewrite Hn in Hmi. destruct Hmi as [x Hx]. discriminate Hx.
    + rewrite El in El'. apply app_inv_head in El'. subst l'. exact Fl'.
  - intros Hmi.
    destruct (logs_Grid_call
                (fun c => is_allocation c = false
                          /\ c <> CGridCreateNoPeriDim /\ c <> CGridCreate1PeriDim) a w)
      as (l' & El' & Fl').
    + split; [reflexivity | split; discriminate].
    + intros c Hc. destruct c; try discriminate Hc;
        (split; [reflexivity | split; discriminate]).
    + intros Hs. rewrite Hmi in Hs. destruct Hs as [x Hx]. discriminate Hx.
    + intros _ c [Hc|Hc]; [|subst c; split; [reflexivity | split; discriminate]].
      destruct c; try discriminate Hc; (split; [reflexivity | split; discriminate]).
    + rewrite El in El'. apply app_inv_head in El'. subst l'. exact Fl'.
Qed.

(** ** Reading and releasing *)

(** X21. [get_coords] and [get_item] never change the Grid or the world,
    whatever they return; they refuse a list or tuple of locations with
    [GridSingleStaggerloc] before looking at the Grid, and read the centre
    when no location is given. *)
Theorem getters_are_pure (d : nat) (item : GridItem) (sl : option StaggerArg)
    (l : list nat) (g : Grid) (w : World St) :
  ((get_coords d sl g w).1.2 = g /\ (get_coords d sl g w).2 = w)
  /\ ((get_item item sl g w).1.2 = g /\ (get_item item sl g w).2 = w)
  /\ get_coords d (Some (Many l)) g w = (Raise GridSingleStaggerloc, g, w)
  /\ get_item item (Some (Many l)) g w = (Raise GridSingleStaggerloc, g, w)
  /\ get_coords d None g w = get_coords d (Some (One (CENTER loc))) g w
  /\ get_item item None g w = get_item item (Some (One (CENTER loc))) g w.
Proof.
  assert (forall s, (get_coord s d g w).1.2 = g /\ (get_coord s d g w).2 = w) as Hc.
  { intros s. rewrite get_coord_run. split; reflexivity. }
  assert (forall s, (get_item_slot item s g w).1.2 = g /\ (get_item_slot item s g w).2 = w)
    as Hi.
  { intros s. unfold get_item_slot, bind, self, lift, raise.
    destruct item; simpl; split; reflexivity. }
  split; [|split; [|repeat split]].
  - unfold get_coords. destruct sl as [[s|l']|]; simpl;
      try (split; reflexivity); unfold bind, ret;
      [specialize (Hc s) | specialize (Hc (CENTER loc))];
      destruct (get_coord _ d g w) as [[[[c|]|e] g1] w1]; simpl in *; exact Hc.
  - unfold get_item. destruct sl as [[s|l']|]; simpl;
      try (split; reflexivity); unfold bind, ret;
      [specialize (Hi s) | specialize (Hi (CENTER loc))];
      destruct (get_item_slot item _ g w) as [[[[c|]|e] g1] w1]; simpl in *; exact Hi.
Qed.

(** X22. When the native destroy raises, [destroy] raises the same error
    and leaves [finalized] at [False]: the Grid is not marked as released,
    and a later [destroy] calls the native side again. *)
Theorem destroy_failure_retries (g : Grid) (w : World St) e st m :
  _finalized g = Some false ->
  ESMP_GridDestroy esmp (_struct g) (nstate w) (mem w) = (Raise e, st, m) ->
  let w' := mkWorld st m (calls w ++ [CGridDestroy (_struct g)]) (warns w) in
  destroy g w = (Raise e, g, w')
  /\ calls (destroy g w').2 = calls w ++ [CGridDestroy (_struct g); CGridDestroy (_struct g)].
Proof.
  intros Hf Hd w'. split.
  - rewrite destroy_run, Hf, Hd. reflexivity.
  - rewrite destroy_run, Hf.
    destruct (ESMP_GridDestroy esmp (_struct g) (nstate w') (mem w')) as [[[u|e'] s1] m1];
      simpl; rewrite <- app_assoc; reflexivity.
Qed.

(** ** [has_corners] *)

Lemma same_corners_refl g : same_corners g g.
Proof. reflexivity. Qed.

Lemma same_corners_trans g1 g2 g3 :
  same_corners g1 g2 -> same_corners g2 g3 -> same_corners g1 g3.
Proof. unfold same_corners. congruence. Qed.

Lemma link_coord_buffer_corners d s u g w g' w' :
  _link_coord_buffer_ d s g w = (Ok u, g', w') ->
  _has_corners g' = _has_corners g || is_corner s.
Proof.
  intros H. unfold _link_coord_buffer_ in H.
  apply bind_ok in H as (g0 & g1 & w1 & Hs & H). apply self_ok in Hs as (-> & -> & ->).
  apply bind_ok in H as (p & g1 & w1 & Hp & H).
  unfold get_coord_ptr in Hp. apply native_ok in Hp as (? & ? & _ & -> & ->).
  apply bind_ok in H as ([lb ub] & g1 & w1 & Hb & H).
  unfold get_bounds in Hb. apply native_ok in Hb as (? & ? & _ & -> & ->).
  apply bind_ok in H as (sz & g1 & w1 & Hsz & H). apply lift_ok in Hsz as (_ & -> & ->).
  apply bind_ok in H as (a & g1 & w1 & Ha & H). apply lift_ok in Ha as (_ & -> & ->).
  apply bind_ok in H as (u1 & g1 & w1 & Hset & H).
  assert (_has_corners g1 = _has_corners g) as Hc.
  { unfold set_coord in Hset. minv Hset. reflexivity. }
  destruct (is_corner s); simpl in H.
  - apply modify_ok in H as (-> & _). simpl. rewrite orb_true_r. reflexivity.
  - apply ret_ok in H as (_ & -> & _). rewrite orb_false_r. exact Hc.
Qed.

Lemma link_all_corners s (l : list nat) : forall u g w g' w',
  for_each l (fun xyz => _link_coord_buffer_ xyz s) g w = (Ok u, g', w') ->
  l <> [] ->
  _has_corners g' = _has_corners g || is_corner s.
Proof.
  induction l as [|x l IH]; intros u g w g' w' H Hne; [contradiction|].
  simpl in H. apply bind_ok in H as (u1 & g1 & w1 & H1 & H2).
  apply link_coord_buffer_corners in H1.
  destruct l as [|y l].
  - simpl in H2. apply ret_ok in H2 as (_ & -> & _). exact H1.
  - rewrite (IH _ _ _ _ _ H2) by discriminate. rewrite H1.
    destruct (_has_corners g), (is_corner s); reflexivity.
Qed.

Lemma link_1D_corners s u g w g' w' :
  _link_coord_buffer_1Dcoords s g w = (Ok u, g', w') ->
  _has_corners g' = _has_corners g || is_corner s.
Proof.
  intros H. unfold _link_coord_buffer_1Dcoords in H.
  apply bind_ok in H as (g0 & g1 & w1 & Hs & H). apply self_ok in Hs as (-> & -> & ->).
  apply bind_ok in H as ([lb ub] & g1 & w1 & Hb & H).
  unfold get_bounds in Hb. apply native_ok in Hb as (? & ? & _ & -> & ->).
  apply bind_ok in H as (gc0 & g1 & w1 & H0 & H).
  pose proof (stays_run _ _ _ _ _ _ _
                (stays_axis_view same_corners same_corners_refl same_corners_trans _ _ _ _ _)
                H0) as K0.
  apply bind_ok in H as (gc1 & g2 & w2 & H1 & H).
  pose proof (stays_run _ _ _ _ _ _ _
                (stays_axis_view same_corners same_corners_refl same_corners_trans _ _ _ _ _)
                H1) as K1.
  apply bind_ok in H as ([[gc00 gc11] gc22] & g3 & w3 & Hm & H).
  assert (same_corners g2 g3) as K2.
  { destruct (decide (_rank g = 3)).
    - apply bind_ok in Hm as (gc2 & g4 & w4 & H2 & Hm).
      pose proof (stays_run _ _ _ _ _ _ _
                    (stays_axis_view same_corners same_corners_refl same_corners_trans
                       _ _ _ _ _) H2) as K.
      apply bind_ok in Hm as (m & g5 & w5 & Hmem & Hm).
      apply the_mem_ok in Hmem as (_ & -> & _).
      destruct (meshgrid3 _ _ _) as [[c0 c1] c2]. apply ret_ok in Hm as (_ & -> & _).
      exact K.
    - destruct (decide (_rank g = 2)); [|minv Hm].
      apply bind_ok in Hm as (m & g5 & w5 & Hmem & Hm).
      apply the_mem_ok in Hmem as (_ & -> & _).
      destruct (meshgrid2 _ _) as [c0 c1]. apply ret_ok in Hm as (_ & -> & _).
      reflexivity. }
  assert (forall d y, stays same_corners (set_coord s d y)) as Hset.
  { intros d y. apply stays_set_coord; [exact same_corners_refl | reflexivity]. }
  apply bind_ok in H as (u1 & g4 & w4 & Hs0 & H).
  pose proof (stays_run _ _ _ _ _ _ _ (Hset _ _) Hs0) as K3.
  apply bind_ok in H as (u2 & g5 & w5 & Hs1 & H).
  pose proof (stays_run _ _ _ _ _ _ _ (Hset _ _) Hs1) as K4.
  apply bind_ok in H as (u3 & g6 & w6 & Hs2 & H).
  assert (same_corners g5 g6) as K5.
  { destruct gc22 as [gc2|].
    - exact (stays_run _ _ _ _ _ _ _ (Hset _ _) Hs2).
    - apply ret_ok in Hs2 as (_ & -> & _). reflexivity. }
  unfold same_corners in *.
  destruct (is_corner s); simpl in H.
  - apply modify_ok in H as (-> & _). simpl. rewrite orb_true_r. reflexivity.
  - apply ret_ok in H as (_ & -> & _). rewrite orb_false_r. congruence.
Qed.

(** X23. [has_corners] is set by the linking of coordinates at the corner
    locations and by nothing else: [add_coords] at one location that was
    empty, on a Grid whose coordinate dimensions do not exceed its rank,
    leaves [has_corners] true if it was or if the location is [CORNER] or
    [CORNER_VFACE], and as it was otherwise. *)
Theorem corners_follow_linking (sl : option StaggerArg) (s : nat) (cd : option nat)
    (ff : bool) (g : Grid) (w : World St) r g' w' :
  normalize sl = [s] ->
  coord_at g s 0 = None ->
  0 < _rank g ->
  _ndims g <= _rank g ->
  add_coords sl cd ff g w = (Ok r, g', w') ->
  _has_corners g' = _has_corners g || is_corner s.
Proof.
  intros Hn Hempty Hrank Hnd H. unfold add_coords in H. rewrite Hn in H.
  apply bind_ok in H as (u & g1 & w1 & Hloop & Hret).
  assert (g' = g1) as ->.
  { destruct cd.
    - apply get_coord_ok in Hret as (-> & _). reflexivity.
    - apply ret_ok in Hret as (_ & -> & _). reflexivity. }
  simpl in Hloop. apply bind_ok in Hloop as (u1 & g2 & w2 & Hat & Hnil).
  apply ret_ok in Hnil as (_ & -> & ->).
  unfold add_coords_at in Hat.
  apply bind_ok in Hat as (c & g3 & w3 & Hget & Hat).
  apply get_coord_ok in Hget as (-> & -> & Hget). rewrite Hempty in Hget. subst c.
  apply bind_ok in Hat as (u2 & g3 & w3 & Hnat & Hat).
  assert (g3 = g) as ->.
  { destruct ff; simpl in Hnat; minv Hnat; reflexivity. }
  apply bind_ok in Hat as (u3 & g4 & w4 & Hall & Hflag).
  assert (_has_corners g2 = _has_corners g4) as ->.
  { unfold set_flag in Hflag. minv Hflag. reflexivity. }
  unfold _allocate_coords_ in Hall.
  assert (stays same_corners (_verify_grid_bounds_ s)) as Sv
    by (apply stays_verify;
        first [exact same_corners_refl | exact same_corners_trans | reflexivity]).
  assert (forall d, stays same_corners (zero_coord s d)) as Sz
    by (intros d; apply stays_zero_coord;
        first [exact same_corners_refl | exact same_corners_trans | reflexivity]).
  assert (forall d z, stays same_corners (fill_coord s d z)) as Sf
    by (intros d z; apply stays_fill_coord;
        first [exact same_corners_refl | exact same_corners_trans | reflexivity]).
  apply bind_ok in Hall as (v1 & h1 & x1 & Hv & Hall).
  pose proof (stays_run _ _ _ _ _ _ _ Sv Hv) as K1. frame_of Hv as F1.
  apply bind_ok in Hall as (v2 & h2 & x2 & Hz0 & Hall).
  pose proof (stays_run _ _ _ _ _ _ _ (Sz 0) Hz0) as K2. frame_of Hz0 as F2.
  apply bind_ok in Hall as (v3 & h3 & x3 & Hz1 & Hall).
  pose proof (stays_run _ _ _ _ _ _ _ (Sz 1) Hz1) as K3. frame_of Hz1 as F3.
  apply bind_ok in Hall as (g0 & h4 & x4 & Hs & Hall). apply self_ok in Hs as (-> & -> & ->).
  apply bind_ok in Hall as (v5 & h5 & x5 & Hz2 & Hall).
  assert (same_corners h3 h5) as K5.
  { apply (stays_run _ _ _ _ _ _ _ (stays_when _ same_corners_refl _ _ (Sz 2)) Hz2). }
  frame_of Hz2 as F5.
  apply bind_ok in Hall as (v6 & h6 & x6 & Hl & Hfill).
  assert (same_corners h6 g4) as K6.
  { assert (stays same_corners
              (when (negb ff)
                 (bind (fill_coord s 0 0) (fun _ =>
                  bind (fill_coord s 1 0) (fun _ =>
                  when (bool_decide (_rank h3 = 3)) (fill_coord s 2 0)))))) as S.
    { apply (stays_when _ same_corners_refl).
      apply (stays_bind _ same_corners_trans); [apply Sf | intros _].
      apply (stays_bind _ same_corners_trans); [apply Sf | intros _].
      apply (stays_when _ same_corners_refl), Sf. }
    exact (stays_run _ _ _ _ _ _ _ S Hfill). }
  assert (frame any any g h5) as F.
  { eapply frame_trans; [exact F1|]. eapply frame_trans; [exact F2|].
    eapply frame_trans; [exact F3 | exact F5]. }
  assert (_has_corners h6 = _has_corners h5 || is_corner s) as Hlink.
  { unfold link_coords in Hl.
    apply bind_ok in Hl as (g0 & h7 & x7 & Hs & Hl). apply self_ok in Hs as (-> & -> & ->).
    rewrite (fr_ndims _ _ _ _ F), (fr_rank _ _ _ _ F) in Hl.
    destruct (decide (_ndims g = _rank g \/ _ndims g = 0)).
    - eapply link_all_corners; [exact Hl|].
      destruct (_rank g); [lia | discriminate].
    - destruct (decide (_ndims g < _rank g)) as [_|Hno]; [|lia].
      apply bind_ok in Hl as (v8 & h8 & x8 & Hw & Hl).
      assert (h8 = h5) as ->.
      { apply when_ok in Hw as [[_ Hw] | (_ & -> & _)]; [minv Hw | reflexivity]. }
      eapply link_1D_corners, Hl. }
  unfold same_corners in *. rewrite K6, Hlink. congruence.
Qed.

(** ** [add_item] over several locations *)

(** X24. With a list of locations, [add_item] checks and allocates one
    location after the other: when the second location already holds the
    item and the first does not, the call raises [GridItemAlreadyLinked]
    only after it has allocated and linked the item at the first location
    (on a steady native side, where the allocation goes through). *)
Theorem add_item_stops_midway (lbf ubf szf : nat -> list Z) (n r : nat) (item : GridItem)
    (s1 s2 : nat) (ff : bool) (g : Grid) (w : World St) :
  steady lbf ubf szf -> ready lbf ubf szf n r g ->
  item = MASK \/ item = AREA ->
  s1 < n -> s2 < n ->
  item_at item g s1 = None -> is_Some (item_at item g s2) ->
  exists g' w',
    add_item item (Some (Many [s1; s2])) ff g w = (Raise GridItemAlreadyLinked, g', w')
    /\ is_Some (item_at item g' s1)
    /\ (ff = false -> CGridAddItem (_struct g) item s1 ∈ calls w').
Proof.
  intros Hst Hr Hitem Hs1 Hs2 Hnone Hsome.
  assert (item_check item s1 g w = (Ok false, g, w)) as Ec.
  { unfold item_check.
    assert (bind (get_item_slot item s1)
              (fun a => match a with
                        | Some _ => raise GridItemAlreadyLinked
                        | None => ret false
                        end) g w = (Ok false, g, w)) as E.
    { rewrite (bind_run _ _ _ _ _ _ _
                 (get_item_slot_returns lbf ubf szf n r item s1 g w Hitem Hr Hs1)).
      rewrite Hnone. reflexivity. }
    destruct Hitem as [-> | ->]; exact E. }
  assert (exists w1,
    when (negb ff)
      (bind self (fun g0 => native (CGridAddItem (_struct g0) item s1)
                                   (ESMP_GridAddItem esmp (_struct g0) item s1))) g w
    = (Ok tt, g, w1)
    /\ (ff = false -> CGridAddItem (_struct g) item s1 ∈ calls w1)) as (w1 & E1 & Hlog).
  { destruct ff; simpl; [exists w; split; [reflexivity | discriminate]|].
    erewrite bind_run by reflexivity. cbv beta.
    destruct (native_returns (CGridAddItem (_struct g) item s1)
                (ESMP_GridAddItem esmp (_struct g) item s1) g w) as ([] & w1 & E1).
    - intros st m. exists tt. eapply st_add_item, Hst.
    - exists w1. split; [exact E1|]. intros _.
      apply native_ok in E1 as (? & ? & _ & _ & ->). simpl.
      apply elem_of_app. right. left. }
  destruct (allocate_items_returns lbf ubf szf Hst n r item s1 ff g w1 Hitem Hr Hs1)
    as (g2 & w2 & E2 & _).
  pose proof (allocate_items_linked _ _ _ _ _ _ _ _ E2) as Hlinked.
  frame_of E2 as F2.
  destruct (item_at_mono _ _ _ _ _ _ F2 Hsome) as [x Hx].
  assert (exists l, calls w2 = calls w1 ++ l) as [l Hl].
  { destruct (logs_allocate_items (fun _ => True) (fun _ _ => I) (fun _ _ _ => I)
                item s1 ff g w1) as (l & El & _).
    rewrite E2 in El. exists l. exact El. }
  exists g2, w2. split; [|split; [exact Hlinked|]].
  - unfold add_item. simpl normalize. apply bind_raise. simpl add_item_loop.
    erewrite bind_run by exact Ec. cbv beta. simpl negb. unfold when at 1. cbv beta iota.
    assert (bind (when (negb ff)
                    (bind self (fun g0 => native (CGridAddItem (_struct g0) item s1)
                                            (ESMP_GridAddItem esmp (_struct g0) item s1))))
              (fun _ => _allocate_items_ item s1 ff) g w = (Ok tt, g2, w2)) as Ea
      by (erewrite bind_run by exact E1; exact E2).
    erewrite bind_run by exact Ea. cbv beta.
    apply bind_raise. unfold item_check.
    assert (bind (get_item_slot item s2)
              (fun a => match a with
                        | Some _ => raise GridItemAlreadyLinked
                        | None => ret false
                        end) g2 w2 = (Raise GridItemAlreadyLinked, g2, w2)) as E
      by (erewrite bind_run by (apply get_item_slot_at; exact Hx); reflexivity).
    destruct Hitem as [-> | ->]; exact E.
  - intros Hff. rewrite Hl. apply elem_of_app. left. apply Hlog, Hff.
Qed.

(** ** One-dimensional coordinates *)

Lemma axis_view_ok g lb ub k s a g0 w g1 w1 :
  axis_view g lb ub k s g0 w = (Ok a, g1, w1) ->
  g1 = g0 /\ exists n b, a = Alias (_type g) [n] b.
Proof.
  intros H. unfold axis_view in H.
  apply bind_ok in H as (p & g2 & w2 & Hp & H).
  unfold get_coord_ptr in Hp. apply native_ok in Hp as (? & ? & _ & -> & ->).
  apply bind_ok in H as (d & g2 & w2 & Hd & H). apply lift_ok in Hd as (_ & -> & ->).
  apply bind_ok in H as (n & g2 & w2 & Hn & H). apply lift_ok in Hn as (_ & -> & ->).
  apply lift_ok in H as (H & -> & _). apply ndarray_from_esmf_ok in H.
  split; [reflexivity | eauto].
Qed.

(** The 1D linker returns only for rank 2 or 3, and then every dimension
    holds an array of its own, of as many axes as the rank. *)
Lemma link_1D_owned s u g w g' w' :
  _link_coord_buffer_1Dcoords s g w = (Ok u, g', w') ->
  (_rank g = 2 \/ _rank g = 3)
  /\ _type g' = _type g
  /\ forall d, d < _rank g ->
       exists sh c, coord_at g' s d = Some (Owned (_type g) sh c) /\ length sh = _rank g.
Proof.
  intros H. unfold _link_coord_buffer_1Dcoords in H.
  apply bind_ok in H as (g0 & g1 & w1 & Hs & H). apply self_ok in Hs as (-> & -> & ->).
  apply bind_ok in H as ([lb ub] & g1 & w1 & Hb & H).
  unfold get_bounds in Hb. apply native_ok in Hb as (? & ? & _ & -> & ->).
  apply bind_ok in H as (gc0 & g1 & w1 & H0 & H).
  apply axis_view_ok in H0 as (-> & n0 & b0 & ->).
  apply bind_ok in H as (gc1 & g2 & w2 & H1 & H).
  apply axis_view_ok in H1 as (-> & n1 & b1 & ->).
  apply bind_ok in H as ([[gc00 gc11] gc22] & g3 & w3 & Hm & H).
  assert (g3 = g
          /\ ((_rank g = 2 /\ gc22 = None
               /\ exists c0 c1, gc00 = Owned (_type g) [n0; n1] c0
                                /\ gc11 = Owned (_type g) [n0; n1] c1)
              \/ (_rank g = 3
                  /\ exists n2 c0 c1 c2,
                       gc00 = Owned (_type g) [n0; n1; n2] c0
                       /\ gc11 = Owned (_type g) [n0; n1; n2] c1
                       /\ gc22 = Some (Owned (_type g) [n0; n1; n2] c2)))) as [-> Hshape].
  { destruct (decide (_rank g = 3)) as [E3|N3].
    - apply bind_ok in Hm as (gc2 & g4 & w4 & H2 & Hm).
      apply axis_view_ok in H2 as (-> & n2 & b2 & ->).
      apply bind_ok in Hm as (m & g5 & w5 & Hmem & Hm).
      apply the_mem_ok in Hmem as (_ & -> & _).
      destruct (meshgrid3 _ _ _) as [[c0 c1] c2]. apply ret_ok in Hm as (Hm & -> & _).
      injection Hm as -> -> ->. split; [reflexivity|]. right. split; [exact E3|].
      exists n2, c0, c1, c2. simpl. auto.
    - destruct (decide (_rank g = 2)) as [E2|N2]; [|minv Hm].
      apply bind_ok in Hm as (m & g5 & w5 & Hmem & Hm).
      apply the_mem_ok in Hmem as (_ & -> & _).
      destruct (meshgrid2 _ _) as [c0 c1]. apply ret_ok in Hm as (Hm & -> & _).
      injection Hm as -> -> ->. split; [reflexivity|]. left. split; [exact E2|].
      split; [reflexivity|]. exists c0, c1. simpl. auto. }
  apply bind_ok in H as (u1 & g4 & w4 & Hs0 & H).
  apply set_coord_slots in Hs0 as (A0 & O0 & T0 & ->).
  apply bind_ok in H as (u2 & g5 & w5 & Hs1 & H).
  apply set_coord_slots in Hs1 as (A1 & O1 & T1 & ->).
  apply bind_ok in H as (u3 & g6 & w6 & Hs2 & H).
  assert (_coords g' = _coords g6 /\ _type g' = _type g6) as [Hc Ht].
  { apply when_ok in H as [[_ H] | (_ & -> & _)]; [|auto].
    apply modify_ok in H as (-> & _). auto. }
  assert (forall d, coord_at g' s d = coord_at g6 s d) as Hsame.
  { intros d. unfold coord_at. rewrite Hc. reflexivity. }
  destruct Hshape as [(E2 & -> & c0 & c1 & -> & ->) | (E3 & n2 & c0 & c1 & c2 & -> & -> & ->)].
  - apply ret_ok in Hs2 as (_ & -> & _).
    split; [left; exact E2|]. split; [congruence|].
    intros d Hd. rewrite Hsame. assert (d = 0 \/ d = 1) as [-> | ->] by lia.
    + rewrite O1 by discriminate. rewrite A0. exists [n0; n1], c0. rewrite E2. auto.
    + rewrite A1. exists [n0; n1], c1. rewrite E2. auto.
  - apply set_coord_slots in Hs2 as (A2 & O2 & T2 & _).
    split; [right; exact E3|]. split; [congruence|].
    intros d Hd. rewrite Hsame. assert (d = 0 \/ d = 1 \/ d = 2) as [-> | [-> | ->]] by lia.
    + rewrite O2, O1 by discriminate. rewrite A0. exists [n0; n1; n2], c0. rewrite E3. auto.
    + rewrite O2 by discriminate. rewrite A1. exists [n0; n1; n2], c1. rewrite E3. auto.
    + rewrite A2. exists [n0; n1; n2], c2. rewrite E3. auto.
Qed.

(** Filling in place keeps an array that owns its cells an array of the same
    type and shape that owns its cells. *)
Lemma fill_coord_owned s d z u g w g' w' :
  fill_coord s d z g w = (Ok u, g', w') ->
  _type g' = _type g
  /\ forall d' t sh c, coord_at g s d' = Some (Owned t sh c) ->
       exists c', coord_at g' s d' = Some (Owned t sh c').
Proof.
  intros H. unfold fill_coord in H.
  apply bind_ok in H as (a & g1 & w1 & Hg & H).
  apply get_coord_ok in Hg as (-> & -> & Hat).
  destruct a as [[t0 sh0 d0 | t0 sh0 b0]|]; simpl in H.
  - apply set_coord_slots in H as (A & O & T & _). split; [exact T|].
    intros d' t sh c Hd'. destruct (decide (d' = d)) as [->|Hne].
    + rewrite Hat in Hd'. injection Hd' as -> -> ->. rewrite A. eauto.
    + rewrite O by exact Hne. eauto.
  - apply write_mem_ok in H as (-> & _). split; [reflexivity|]. eauto.
  - exfalso. exact (raise_ok _ _ _ _ _ _ H).
Qed.

Lemma allocate_coords_1D s ff u g w g' w' :
  _allocate_coords_ s ff g w = (Ok u, g', w') ->
  0 < _ndims g < _rank g ->
  _ndims g = 1
  /\ (_rank g = 2 \/ _rank g = 3)
  /\ forall d, d < _rank g ->
       exists sh c, coord_at g' s d = Some (Owned (_type g) sh c) /\ length sh = _rank g.
Proof.
  intros H Hn. unfold _allocate_coords_ in H.
  apply bind_ok in H as (u1 & g1 & w1 & Hv & H).
  apply bind_ok in H as (u2 & g2 & w2 & Hz0 & H).
  apply bind_ok in H as (u3 & g3 & w3 & Hz1 & H).
  apply bind_ok in H as (g0 & g4 & w4 & Hs & H). apply self_ok in Hs as (-> & -> & ->).
  apply bind_ok in H as (u5 & g5 & w5 & Hz2 & H).
  apply bind_ok in H as (u6 & g6 & w6 & Hl & Hfill).
  frame_of Hv as Fv. frame_of Hz0 as Fz0. frame_of Hz1 as Fz1. frame_of Hz2 as Fz2.
  assert (frame any any g g3) as F3.
  { eapply frame_trans; [exact Fv|]. eapply frame_trans; [exact Fz0 | exact Fz1]. }
  assert (frame any any g g5) as F5 by (eapply frame_trans; [exact F3 | exact Fz2]).
  pose proof (fr_ndims _ _ _ _ F5) as End. pose proof (fr_rank _ _ _ _ F5) as Erk.
  pose proof (fr_type _ _ _ _ F5) as Ety.
  unfold link_coords in Hl.
  apply bind_ok in Hl as (g0 & g7 & w7 & Hs & Hl). apply self_ok in Hs as (-> & -> & ->).
  destruct (decide (_ndims g5 = _rank g5 \/ _ndims g5 = 0)) as [Hyes|_]; [lia|].
  destruct (decide (_ndims g5 < _rank g5)) as [_|Hno]; [|lia].
  apply bind_ok in Hl as (u7 & g7 & w7 & Hw & Hl).
  assert (_ndims g5 = 1 /\ g7 = g5) as [E1 ->].
  { apply when_ok in Hw as [[_ Hw] | (Hb & -> & _)].
    - exfalso. exact (raise_ok _ _ _ _ _ _ Hw).
    - apply negb_false_iff, bool_decide_eq_true in Hb. auto. }
  apply link_1D_owned in Hl as (Hr & Ht6 & Hown).
  rewrite Erk, Ety in Hown. rewrite Erk in Hr. rewrite Ety in Ht6.
  split; [lia|]. split; [exact Hr|].
  destruct ff; simpl in Hfill.
  - apply ret_ok in Hfill as (_ & -> & _). exact Hown.
  - apply bind_ok in Hfill as (u8 & g8 & w8 & Hf0 & Hfill).
    apply fill_coord_owned in Hf0 as (T8 & K8).
    apply bind_ok in Hfill as (u9 & g9 & w9 & Hf1 & Hfill).
    apply fill_coord_owned in Hf1 as (T9 & K9).
    assert (forall d' t sh c, coord_at g9 s d' = Some (Owned t sh c) ->
              exists c', coord_at g' s d' = Some (Owned t sh c')) as K10.
    { apply when_ok in Hfill as [[_ Hf2] | (_ & -> & _)]; [|eauto].
      apply fill_coord_owned in Hf2 as (_ & K). exact K. }
    intros d Hd. destruct (Hown d Hd) as (sh & c & Hat & Hlen).
    apply K8 in Hat as (c8 & Hat). apply K9 in Hat as (c9 & Hat).
    apply K10 in Hat as (c10 & Hat). eauto.
Qed.

(** X25. The coordinates of a Grid with one-dimensional coordinates are
    copies, not views of native memory: [add_coords] at one location that
    was empty, on a Grid whose number of coordinate dimensions is positive
    and below its rank, returns only if that number is 1 and the rank is 2
    or 3, and then every dimension holds an array that owns its cells, of
    the Grid's type and of as many axes as the rank. *)
Theorem one_dim_coordinates_are_copies (sl : option StaggerArg) (s : nat) (cd : option nat)
    (ff : bool) (g : Grid) (w : World St) r g' w' :
  normalize sl = [s] ->
  coord_at g s 0 = None ->
  0 < _ndims g < _rank g ->
  add_coords sl cd ff g w = (Ok r, g', w') ->
  _ndims g = 1
  /\ (_rank g = 2 \/ _rank g = 3)
  /\ forall d, d < _rank g ->
       exists sh c, coord_at g' s d = Some (Owned (_type g) sh c) /\ length sh = _rank g.
Proof.
  intros Hn Hempty Hnd H. unfold add_coords in H. rewrite Hn in H.
  apply bind_ok in H as (u & g1 & w1 & Hloop & Hret).
  assert (g' = g1 /\ w' = w1) as [-> ->].
  { destruct cd.
    - apply get_coord_ok in Hret as (-> & -> & _). auto.
    - apply ret_ok in Hret as (_ & -> & ->). auto. }
  simpl in Hloop. apply bind_ok in Hloop as (u1 & g2 & w2 & Hat & Hnil).
  apply ret_ok in Hnil as (_ & -> & ->).
  unfold add_coords_at in Hat.
  apply bind_ok in Hat as (c & g3 & w3 & Hget & Hat).
  apply get_coord_ok in Hget as (-> & -> & Hget). rewrite Hempty in Hget. subst c.
  apply bind_ok in Hat as (u2 & g3 & w3 & Hnat & Hat).
  assert (g3 = g) as ->.
  { destruct ff; simpl in Hnat; minv Hnat; reflexivity. }
  apply bind_ok in Hat as (u3 & g4 & w4 & Hall & Hflag).
  destruct (allocate_coords_1D _ _ _ _ _ _ _ Hall Hnd) as (E1 & Hr & Hown).
  split; [exact E1|]. split; [exact Hr|].
  unfold set_flag in Hflag. minv Hflag.
  intros d Hd. destruct (Hown d Hd) as (sh & c & Hview & Hlen).
  exists sh, c. split; [|exact Hlen]. unfold coord_at in *. simpl. exact Hview.
Qed.

End GridMethods.

(** * Bounds verification on a native side that moves *)

(** C8. A repeated bounds verification is meant to fail on any native-side
    drift.  The code compares [cached.all()] with
    [fresh.all()], so it accepts a drift that keeps both arrays free of
    zeros.  On a native side whose upper bounds grow by one after every
    query, the first verification of location 0 of a new 4 by 4 Grid caches
    the upper bounds [[4, 4]] and the size [[4, 4]]; the native side then
    reports [[5, 5]]; the second verification returns normally all the same
    and leaves the stale cache in place. *)
Theorem verify_accepts_drift :
  let esmp := toy_esmp 1 1 in
  let run := Grid_call esmp toy_loc args_bare toy_world in
  let first := _verify_grid_bounds_ esmp 0 run.1.2 run.2 in
  let second := _verify_grid_bounds_ esmp 0 first.1.2 first.2 in
  run.1.1 = Ok tt
  /\ first.1.1 = Ok tt
  /\ upper_at first.1.2 0 = Some [4; 4]%Z
  /\ size_at first.1.2 0 = Some [4; 4]%Z
  /\ (ESMP_GridGetCoordBounds esmp (_struct first.1.2) 0 (nstate first.2) (mem first.2)).1.1
     = Ok ([0; 0]%Z, [5; 5]%Z)
  /\ second.1.1 = Ok tt
  /\ second.1.2 = first.1.2.
Proof.
  intros esmp run first second.
  split; [vm_compute; reflexivity|].
  split; [vm_compute; reflexivity|].
  split; [vm_compute; reflexivity|].
  split; [vm_compute; reflexivity|].
  split; [vm_compute; reflexivity|].
  split; vm_compute; reflexivity.
Qed.

(** * The statements at concrete inputs

    Each lemma below runs a theorem above on the reference native side: the
    hypotheses are checked by evaluation, so none of them is vacuous. *)

(** The stateless reference side is steady: every call returns, and the
    bounds are [(0, ub)] at every location. *)
Lemma box_steady pets (ub sz : list Z) :
  np_sub ub ((fun _ => 0%Z) <$> ub) = Ok sz -> nonneg_shape sz = true ->
  steady (box_esmp pets ub) (fun _ => (fun _ => 0%Z) <$> ub) (fun _ => ub) (fun _ => sz).
Proof.
  intros Hsub Hnn.
  constructor; intros; simpl; try reflexivity; try (eexists; reflexivity).
  split; assumption.
Qed.

Lemma box_4x4_steady :
  steady (box_esmp 1 [4; 4]%Z) (fun _ => [0; 0]%Z) (fun _ => [4; 4]%Z) (fun _ => [4; 4]%Z).
Proof. exact (box_steady 1 [4; 4]%Z [4; 4]%Z eq_refl eq_refl). Qed.

Lemma box_4x4x2_steady :
  steady (box_esmp 1 [4; 4; 2]%Z) (fun _ => [0; 0; 0]%Z) (fun _ => [4; 4; 2]%Z)
         (fun _ => [4; 4; 2]%Z).
Proof. exact (box_steady 1 [4; 4; 2]%Z [4; 4; 2]%Z eq_refl eq_refl). Qed.

Lemma args_4x4_accepted : accepted toy_loc args_4x4 [4; 4]%Z.
Proof.
  split; [simpl; lia|]. split; [left; reflexivity|]. split.
  - intros s Hs. simpl in Hs. apply list_elem_of_singleton in Hs. subst s. simpl. lia.
  - simpl. discriminate.
Qed.

Lemma args_periodic_accepted : accepted toy_loc args_periodic [4; 4; 2]%Z.
Proof.
  split; [simpl; lia|]. split; [right; reflexivity|]. split.
  - intros s Hs. simpl in Hs. inversion Hs.
  - simpl. discriminate.
Qed.

(** [Grid()] with every argument at its default. *)
Lemma constructor_requires_mode_witness :
  a_max_index default_args = None
  /\ (a_filename default_args = None \/ a_filetype default_args = None)
  /\ __init__ (box_esmp 1 [4; 4]%Z) toy_loc default_args blank box_world
     = (Raise GridArgumentError, blank, box_world)
  /\ Grid_call (box_esmp 1 [4; 4]%Z) toy_loc default_args box_world
     = (Raise GridArgumentError, blank, mkWorld tt ∅ [CManager] []).
Proof.
  split; [reflexivity|]. split; [left; reflexivity|]. split; [|reflexivity].
  apply (proj1 (constructor_requires_mode (box_esmp 1 [4; 4]%Z) toy_loc default_args
                  eq_refl (or_introl eq_refl))).
Defined.

Lemma args_pair_accepted : accepted toy_loc args_pair [4; 4]%Z.
Proof.
  split; [simpl; lia|]. split; [left; reflexivity|]. split.
  - intros s Hs. simpl in Hs.
    apply elem_of_cons in Hs as [->|Hs]; [simpl; lia|].
    apply list_elem_of_singleton in Hs. subst s. simpl. lia.
  - simpl. discriminate.
Qed.

(** [Grid(max_index=[4, 4], staggerloc=[CENTER, CORNER])]: rank 2 and the
    four flags [[True, False, False, True]]. *)
Lemma in_memory_shape_witness :
  let run := Grid_call (box_esmp 1 [4; 4]%Z) toy_loc args_pair box_world in
  a_max_index args_pair = Some [4; 4]%Z
  /\ (length [4; 4]%Z = 2 \/ length [4; 4]%Z = 3)
  /\ run = (Ok tt, run.1.2, run.2)
  /\ _staggerloc run.1.2 = [true; false; false; true]
  /\ (_rank run.1.2 = length [4; 4]%Z
      /\ length (_staggerloc run.1.2) = 2 ^ _rank run.1.2
      /\ forall i, i < 2 ^ _rank run.1.2 ->
           _staggerloc run.1.2 !! i
           = Some match a_staggerloc args_pair with
                  | None => false
                  | Some (One s) => bool_decide (i = s)
                  | Some (Many l) => bool_decide (i ∈ l)
                  end)
  /\ steady (box_esmp 1 [4; 4]%Z) (fun _ => [0; 0]%Z) (fun _ => [4; 4]%Z)
            (fun _ => [4; 4]%Z)
  /\ accepted toy_loc args_pair [4; 4]%Z
  /\ exists g w',
       Grid_call (box_esmp 1 [4; 4]%Z) toy_loc args_pair box_world = (Ok tt, g, w').
Proof.
  intros run.
  assert (Hrun : run = (Ok tt, run.1.2, run.2)) by (vm_compute; reflexivity).
  assert (Hflags : _staggerloc run.1.2 = [true; false; false; true])
    by (vm_compute; reflexivity).
  destruct (in_memory_shape (box_esmp 1 [4; 4]%Z) toy_loc args_pair [4; 4]%Z box_world
              eq_refl (or_introl eq_refl)) as [Hshape Hreturns].
  split; [reflexivity|]. split; [left; reflexivity|]. split; [exact Hrun|].
  split; [exact Hflags|].
  split; [exact (Hshape run.1.2 run.2 Hrun)|].
  split; [exact box_4x4_steady|]. split; [exact args_pair_accepted|].
  exact (Hreturns _ _ _ box_4x4_steady args_pair_accepted).
Defined.

(** [Grid(max_index=[4, 4, 2], num_peri_dims=1)]. *)
Lemma in_memory_periodic_defaults_witness :
  let run := Grid_call (box_esmp 1 [4; 4; 2]%Z) toy_loc args_periodic box_world in
  a_max_index args_periodic = Some [4; 4; 2]%Z
  /\ a_num_peri_dims args_periodic = Some 1%Z
  /\ a_periodic_dim args_periodic = None
  /\ run = (Ok tt, run.1.2, run.2)
  /\ ((_periodic_dim run.1.2 = Some 0%Z /\ _pole_dim run.1.2 = Some 1%Z)
      /\ _periodic_dim run.1.2 <> Some 1%Z /\ _pole_dim run.1.2 <> Some 2%Z)
  /\ steady (box_esmp 1 [4; 4; 2]%Z) (fun _ => [0; 0; 0]%Z) (fun _ => [4; 4; 2]%Z)
            (fun _ => [4; 4; 2]%Z)
  /\ accepted toy_loc args_periodic [4; 4; 2]%Z
  /\ exists g w',
       Grid_call (box_esmp 1 [4; 4; 2]%Z) toy_loc args_periodic box_world = (Ok tt, g, w').
Proof.
  intros run.
  assert (Hrun : run = (Ok tt, run.1.2, run.2)) by (vm_compute; reflexivity).
  destruct (in_memory_periodic_defaults (box_esmp 1 [4; 4; 2]%Z) toy_loc args_periodic
              [4; 4; 2]%Z box_world eq_refl eq_refl eq_refl) as [Hdefaults Hreturns].
  split; [reflexivity|]. split; [reflexivity|]. split; [reflexivity|]. split; [exact Hrun|].
  split; [exact (Hdefaults run.1.2 run.2 Hrun)|].
  split; [exact box_4x4x2_steady|]. split; [exact args_periodic_accepted|].
  exact (Hreturns _ _ _ box_4x4x2_steady args_periodic_accepted).
Defined.


(** On the 4 by 4 grid, [add_coords(CORNER)] populates the corner. *)
Lemma add_coords_populates_witness :
  let run := Grid_call (box_esmp 1 [4; 4]%Z) toy_loc args_4x4 box_world in
  let first := add_coords (box_esmp 1 [4; 4]%Z) toy_loc (Some (One 3)) None false
                 run.1.2 run.2 in
  3 ∈ normalize toy_loc (Some (One 3))
  /\ (_ndims run.1.2 = _rank run.1.2 \/ _ndims run.1.2 = 0)
  /\ (coord_at run.1.2 3 0 = None \/ populated run.1.2 3)
  /\ first = (Ok None, first.1.2, first.2)
  /\ populated first.1.2 3.
Proof.
  intros run first.
  assert (Hfirst : first = (Ok None, first.1.2, first.2)) by (vm_compute; reflexivity).
  assert (Hin : 3 ∈ normalize toy_loc (Some (One 3))) by (simpl; left).
  split; [exact Hin|]. split; [left; reflexivity|]. split; [left; reflexivity|].
  split; [exact Hfirst|].
  exact (add_coords_populates (box_esmp 1 [4; 4]%Z) toy_loc (Some (One 3)) None false 3
           run.1.2 run.2 None first.1.2 first.2 Hin (or_introl eq_refl) (or_introl eq_refl)
           Hfirst).
Defined.

(** [add_item(MASK, CENTER)] twice on the 4 by 4 grid: the second call
    raises and returns the Grid and the world the first one left. *)
Lemma add_item_twice_fails_witness :
  let run := Grid_call (box_esmp 1 [4; 4]%Z) toy_loc args_4x4 box_world in
  let first := add_item (box_esmp 1 [4; 4]%Z) toy_loc MASK (Some (One 0)) false
                 run.1.2 run.2 in
  (MASK = MASK \/ MASK = AREA)
  /\ normalize toy_loc (Some (One 0)) = [0]
  /\ first = (Ok (Some (Alias I4 [4; 4]%Z (toy_item_ptr MASK 0))), first.1.2, first.2)
  /\ add_item (box_esmp 1 [4; 4]%Z) toy_loc MASK (Some (One 0)) false first.1.2 first.2
     = (Raise GridItemAlreadyLinked, first.1.2, first.2).
Proof.
  intros run first.
  assert (Hfirst : first = (Ok (Some (Alias I4 [4; 4]%Z (toy_item_ptr MASK 0))),
                            first.1.2, first.2)) by (vm_compute; reflexivity).
  split; [left; reflexivity|]. split; [reflexivity|]. split; [exact Hfirst|].
  exact (proj2 (add_item_twice_fails (box_esmp 1 [4; 4]%Z) toy_loc MASK (Some (One 0)) 0
                  (or_introl eq_refl) eq_refl)
           false false run.1.2 run.2 _ first.1.2 first.2 Hfirst).
Defined.

(** [add_item(AREA, CENTER)] and [add_item(MASK, CENTER)] on the 4 by 4
    grid: sixteen zeros, sixteen ones. *)
Lemma fresh_grid_items_witness :
  let esmp := box_esmp 1 [4; 4]%Z in
  let run := Grid_call esmp toy_loc args_4x4 box_world in
  let area := add_item esmp toy_loc AREA (Some (One 0)) false run.1.2 run.2 in
  let mask := add_item esmp toy_loc MASK (Some (One 0)) false run.1.2 run.2 in
  a_max_index args_4x4 = Some [4; 4]%Z
  /\ run = (Ok tt, run.1.2, run.2)
  /\ bounds_fixed esmp (_struct run.1.2) (CENTER toy_loc) [0; 0]%Z [4; 4]%Z
  /\ area = (Ok (Some (Alias R8 [4; 4]%Z (toy_item_ptr AREA 0))), area.1.2, area.2)
  /\ mask = (Ok (Some (Alias I4 [4; 4]%Z (toy_item_ptr MASK 0))), mask.1.2, mask.2)
  /\ (exists x, Some (Alias R8 [4; 4]%Z (toy_item_ptr AREA 0)) = Some x
        /\ area_at area.1.2 (CENTER toy_loc) = Some x
        /\ dtype_of x = R8
        /\ size_at area.1.2 (CENTER toy_loc) = Some (shape_of x)
        /\ contents (mem area.2) x
           = replicate (nelems (shape_of x)) (Some (SReal (inject_Z 0))))
  /\ (exists x, Some (Alias I4 [4; 4]%Z (toy_item_ptr MASK 0)) = Some x
        /\ mask_at mask.1.2 (CENTER toy_loc) = Some x
        /\ dtype_of x = I4
        /\ size_at mask.1.2 (CENTER toy_loc) = Some (shape_of x)
        /\ contents (mem mask.2) x = replicate (nelems (shape_of x)) (Some (SInt 1)))
  /\ steady esmp (fun _ => [0; 0]%Z) (fun _ => [4; 4]%Z) (fun _ => [4; 4]%Z)
  /\ accepted toy_loc args_4x4 [4; 4]%Z
  /\ CENTER toy_loc < 2 ^ length [4; 4]%Z
  /\ truthy (a_add_user_area args_4x4) = false
  /\ truthy (a_add_mask args_4x4) = false
  /\ (exists r g' w',
        add_item esmp toy_loc AREA (Some (One (CENTER toy_loc))) false run.1.2 run.2
        = (Ok r, g', w'))
  /\ (exists r g' w',
        add_item esmp toy_loc MASK (Some (One (CENTER toy_loc))) false run.1.2 run.2
        = (Ok r, g', w')).
Proof.
  intros esmp run area mask.
  assert (Hrun : run = (Ok tt, run.1.2, run.2)) by (vm_compute; reflexivity).
  assert (Hfix : bounds_fixed esmp (_struct run.1.2) (CENTER toy_loc) [0; 0]%Z [4; 4]%Z)
    by (intros st m; reflexivity).
  assert (Harea : area = (Ok (Some (Alias R8 [4; 4]%Z (toy_item_ptr AREA 0))),
                          area.1.2, area.2)) by (vm_compute; reflexivity).
  assert (Hmask : mask = (Ok (Some (Alias I4 [4; 4]%Z (toy_item_ptr MASK 0))),
                          mask.1.2, mask.2)) by (vm_compute; reflexivity).
  destruct (fresh_grid_items esmp toy_loc args_4x4 [4; 4]%Z box_world run.1.2 run.2
              [0; 0]%Z [4; 4]%Z eq_refl Hrun Hfix) as (HA & HM & Hreturns).
  assert (Hlt : CENTER toy_loc < 2 ^ length [4; 4]%Z) by (simpl; lia).
  split; [reflexivity|]. split; [exact Hrun|]. split; [exact Hfix|].
  split; [exact Harea|]. split; [exact Hmask|].
  split; [exact (HA _ _ _ Harea)|]. split; [exact (HM _ _ _ Hmask)|].
  split; [exact box_4x4_steady|]. split; [exact args_4x4_accepted|].
  split; [exact Hlt|]. split; [reflexivity|]. split; [reflexivity|].
  exact (Hreturns _ _ _ box_4x4_steady args_4x4_accepted Hlt eq_refl eq_refl).
Defined.

(** Slicing the cached grid with two workers running. *)
Lemma getitem_parallel_fails_witness :
  pet_count (box_esmp 2 [4; 4]%Z) (nstate box_world) (mem box_world) = (Ok 2, tt, ∅)
  /\ 1 < 2
  /\ __getitem__ (box_esmp 2 [4; 4]%Z) toy_slicing tt cached_grid box_world
     = (Raise SerialMethod, cached_grid, mkWorld tt ∅ [CPetCount] []).
Proof.
  split; [reflexivity|]. split; [lia|].
  apply (getitem_parallel_fails (box_esmp 2 [4; 4]%Z) toy_slicing tt cached_grid box_world
           2 tt ∅); [reflexivity | lia].
Defined.

(** Slicing the same grid with one worker returns a Grid that is marked
    finalized; the parent is the object it was. *)
Example getitem_serial_runs :
  let out := __getitem__ (box_esmp 1 [4; 4]%Z) toy_slicing tt cached_grid box_world in
  out.1.2 = cached_grid
  /\ match out.1.1 with
     | Ok ret_ => _finalized ret_ = Some true /\ _struct ret_ = _struct cached_grid
     | Raise _ => False
     end.
Proof. vm_compute. split; [reflexivity | split; reflexivity]. Qed.

(** Destroying the cached grid twice, and a copy of it first. *)
Example destroy_twice_runs :
  let esmp := box_esmp 1 [4; 4]%Z in
  calls (bind (destroy esmp) (fun _ => destroy esmp) cached_grid box_world).2
  = [CGridDestroy (Some 7%N)]
  /\ _finalized (bind (destroy esmp) (fun _ => destroy esmp) cached_grid box_world).1.2
     = Some true.
Proof. split; reflexivity. Qed.


(** A Grid left half-allocated by a call that raised.  On a native side
    where the buffer of dimension 1 cannot be obtained, [add_coords(CORNER)]
    raises after the placeholders of the corner have been stored; a second
    [add_coords(CORNER)] then finds the first slot set, warns and returns
    normally, and the flag of the corner is still [False]. *)
Lemma add_coords_after_failure :
  let esmp := flaky_esmp [4; 4]%Z in
  let run := Grid_call esmp toy_loc args_bare box_world in
  let first := add_coords esmp toy_loc (Some (One 3)) None false run.1.2 run.2 in
  let second := add_coords esmp toy_loc (Some (One 3)) None false first.1.2 first.2 in
  run.1.1 = Ok tt
  /\ first.1.1 = Raise (NativeError 1)
  /\ second.1.1 = Ok None
  /\ _ndims first.1.2 = _rank first.1.2
  /\ _staggerloc second.1.2 !! 3 = Some false
  /\ ~ populated second.1.2 3.
Proof.
  intros esmp run first second.
  assert (Hflag : _staggerloc second.1.2 !! 3 = Some false) by (vm_compute; reflexivity).
  repeat split; try (vm_compute; reflexivity).
  intros (_ & _ & _ & _ & Hf). rewrite Hflag in Hf. discriminate.
Qed.

(** * The further properties at concrete inputs *)

(** [Grid(max_index=[4, 4], staggerloc=CENTER)] has four entries in every
    shadow list and two slots in every row. *)
Lemma constructor_lays_out_witness :
  let run := Grid_call (box_esmp 1 [4; 4]%Z) toy_loc args_4x4 box_world in
  run = (Ok tt, run.1.2, run.2) /\ shaped run.1.2.
Proof.
  intros run.
  assert (Hrun : run = (Ok tt, run.1.2, run.2)) by (vm_compute; reflexivity).
  split; [exact Hrun|].
  exact (constructor_lays_out (box_esmp 1 [4; 4]%Z) toy_loc args_4x4 box_world
           run.1.2 run.2 Hrun).
Defined.

Lemma cached_grid_shaped : shaped cached_grid.
Proof. constructor; reflexivity. Qed.

(** On the cached grid, [add_coords(CORNER)] and [add_item(MASK, CORNER)]. *)
Lemma layout_kept_witness :
  let esmp := box_esmp 1 [4; 4]%Z in
  shaped cached_grid
  /\ shaped (add_coords esmp toy_loc (Some (One 3)) None false cached_grid box_world).1.2
  /\ shaped (add_item esmp toy_loc MASK (Some (One 3)) false cached_grid box_world).1.2.
Proof.
  intros esmp. split; [exact cached_grid_shaped|].
  exact (layout_kept esmp toy_loc cached_grid box_world (Some (One 3)) None MASK false
           cached_grid_shaped).
Defined.

(** On a native side that cannot hand out the buffer of dimension 1,
    [Grid(max_index=[4, 4], staggerloc=CENTER)] raises after the native
    grid has been created; the object has no finalization flag and
    [destroy] makes no native call. *)
Lemma failed_construction_unfinalized_witness :
  let run := Grid_call (flaky_esmp [4; 4]%Z) toy_loc args_4x4 box_world in
  run = (Raise (NativeError 1), run.1.2, run.2)
  /\ calls run.2
     = [CManager; CGridCreateNoPeriDim; CGridAddCoord (Some 7%N) 0;
        CGridGetCoordBounds (Some 7%N) 0; CGridGetCoordPtr (Some 7%N) 0 0;
        CGridGetCoordBounds (Some 7%N) 0; CGridGetCoordPtr (Some 7%N) 1 0]
  /\ _finalized run.1.2 = None
  /\ destroy (flaky_esmp [4; 4]%Z) run.1.2 run.2 = (Ok tt, run.1.2, run.2)
  /\ __del__ (flaky_esmp [4; 4]%Z) run.1.2 run.2 = (Ok tt, run.1.2, run.2).
Proof.
  intros run.
  assert (Hrun : run = (Raise (NativeError 1), run.1.2, run.2)) by (vm_compute; reflexivity).
  split; [exact Hrun|]. split; [vm_compute; reflexivity|].
  exact (failed_construction_unfinalized (flaky_esmp [4; 4]%Z) toy_loc args_4x4 box_world
           (NativeError 1) run.1.2 run.2 Hrun).
Defined.

(** [Grid(max_index=[4, 4])], then [add_coords(CORNER, coord_dim=1)] and
    [get_coords(1, CORNER)]. *)
Lemma get_coords_returns_added_witness :
  let esmp := box_esmp 1 [4; 4]%Z in
  let run := Grid_call esmp toy_loc args_bare box_world in
  let added := add_coords esmp toy_loc (Some (One 3)) (Some 1) false run.1.2 run.2 in
  let x := Alias R8 [4; 4]%Z (toy_coord_ptr 1 3) in
  normalize toy_loc (Some (One 3)) = [3]
  /\ added = (Ok (Some x), added.1.2, added.2)
  /\ get_coords toy_loc 1 (Some (One 3)) added.1.2 added.2 = (Ok x, added.1.2, added.2)
  /\ (_ndims run.1.2 = _rank run.1.2 \/ _ndims run.1.2 = 0)
  /\ (coord_at run.1.2 3 0 = None \/ populated run.1.2 3)
  /\ 1 < _rank run.1.2
  /\ is_Some (Some x).
Proof.
  intros esmp run added x.
  assert (Hadded : added = (Ok (Some x), added.1.2, added.2)) by (vm_compute; reflexivity).
  assert (Hrank : 1 < _rank run.1.2) by (vm_compute; lia).
  destruct (get_coords_returns_added esmp toy_loc (Some (One 3)) 3 1 false run.1.2 run.2
              (Some x) added.1.2 added.2 eq_refl Hadded) as [Hget Hsome].
  split; [reflexivity|]. split; [exact Hadded|]. split; [exact Hget|].
  split; [left; reflexivity|]. split; [left; reflexivity|]. split; [exact Hrank|].
  exact (Hsome (or_introl eq_refl) (or_introl eq_refl) Hrank).
Defined.

(** [add_item(AREA)] on the same Grid, then [get_item(AREA, CENTER)]. *)
Lemma get_item_returns_added_witness :
  let esmp := box_esmp 1 [4; 4]%Z in
  let run := Grid_call esmp toy_loc args_bare box_world in
  let added := add_item esmp toy_loc AREA None false run.1.2 run.2 in
  let x := Alias R8 [4; 4]%Z (toy_item_ptr AREA 0) in
  normalize toy_loc None = [0]
  /\ added = (Ok (Some x), added.1.2, added.2)
  /\ exists y, Some x = Some y
       /\ get_item toy_loc AREA (Some (One 0)) added.1.2 added.2
          = (Ok y, added.1.2, added.2).
Proof.
  intros esmp run added x.
  assert (Hadded : added = (Ok (Some x), added.1.2, added.2)) by (vm_compute; reflexivity).
  split; [reflexivity|]. split; [exact Hadded|].
  exact (get_item_returns_added esmp toy_loc AREA None 0 false run.1.2 run.2
           (Some x) added.1.2 added.2 eq_refl Hadded).
Defined.

(** [Grid(max_index=[4, 4]).get_coords(0)]: the centre was not added. *)
Lemma get_coords_before_add_witness :
  let esmp := box_esmp 1 [4; 4]%Z in
  let run := Grid_call esmp toy_loc args_bare box_world in
  a_max_index args_bare = Some [4; 4]%Z
  /\ run = (Ok tt, run.1.2, run.2)
  /\ (0 ∉ requested toy_loc (a_staggerloc args_bare))
  /\ 0 < 2 ^ length [4; 4]%Z /\ 0 < length [4; 4]%Z
  /\ get_coords toy_loc 0 (Some (One 0)) run.1.2 run.2
     = (Raise AssertionError, run.1.2, run.2).
Proof.
  intros esmp run.
  assert (Hrun : run = (Ok tt, run.1.2, run.2)) by (vm_compute; reflexivity).
  assert (Hout : 0 ∉ requested toy_loc (a_staggerloc args_bare))
    by (intros Hin; inversion Hin).
  assert (H1 : 0 < 2 ^ length [4; 4]%Z) by (simpl; lia).
  assert (H2 : 0 < length [4; 4]%Z) by (simpl; lia).
  split; [reflexivity|]. split; [exact Hrun|]. split; [exact Hout|].
  split; [exact H1|]. split; [exact H2|].
  exact (get_coords_before_add esmp toy_loc args_bare [4; 4]%Z box_world run.1.2 run.2 0 0
           eq_refl Hrun Hout H1 H2).
Defined.

Lemma low_rank_never_constructs_witness :
  a_max_index args_line = Some [4]%Z
  /\ length [4]%Z < 2
  /\ a_staggerloc args_line = Some (One 0)
  /\ normalize toy_loc (Some (One 0)) <> []
  /\ (Grid_call (box_esmp 1 [4]%Z) toy_loc args_line box_world).1.1 = Raise IndexError
  /\ (Grid_call (box_esmp 1 [4]%Z) toy_loc args_line box_world).1.1 <> Ok tt.
Proof.
  assert (H1 : length [4]%Z < 2) by (simpl; lia).
  assert (H2 : normalize toy_loc (Some (One 0)) <> []) by discriminate.
  split; [reflexivity|]. split; [exact H1|]. split; [reflexivity|]. split; [exact H2|].
  split; [vm_compute; reflexivity|].
  exact (low_rank_never_constructs (box_esmp 1 [4]%Z) toy_loc args_line [4]%Z (One 0)
           box_world eq_refl H1 eq_refl H2).
Defined.

(** [Grid(max_index=[4, 4], num_peri_dims=2)] *)
Lemma periodic_dims_checked_witness :
  a_max_index args_two_periodic = Some [4; 4]%Z
  /\ default 0%Z (a_num_peri_dims args_two_periodic) <> 0%Z
  /\ default 0%Z (a_num_peri_dims args_two_periodic) <> 1%Z
  /\ exists g' w',
       __init__ (box_esmp 1 [4; 4]%Z) toy_loc args_two_periodic blank box_world
       = (Raise TypeError, g', w')
       /\ calls w' = calls box_world /\ nstate w' = nstate box_world
       /\ mem w' = mem box_world.
Proof.
  assert (H0 : default 0%Z (a_num_peri_dims args_two_periodic) <> 0%Z) by discriminate.
  assert (H1 : default 0%Z (a_num_peri_dims args_two_periodic) <> 1%Z) by discriminate.
  split; [reflexivity|]. split; [exact H0|]. split; [exact H1|].
  exact (periodic_dims_checked (box_esmp 1 [4; 4]%Z) toy_loc args_two_periodic [4; 4]%Z
           blank box_world eq_refl H0 H1).
Defined.

(** [Grid(max_index=[4, 4], staggerloc=CENTER)] stores [4, 4]. *)
Lemma max_index_stored_witness :
  let run := Grid_call (box_esmp 1 [4; 4]%Z) toy_loc args_4x4 box_world in
  a_max_index args_4x4 = Some [4; 4]%Z
  /\ run = (Ok tt, run.1.2, run.2)
  /\ Forall (fun z => - 2 ^ 31 <= z < 2 ^ 31)%Z [4; 4]%Z
  /\ _max_index run.1.2 = wrap32 <$> [4; 4]%Z
  /\ _max_index run.1.2 = [4; 4]%Z.
Proof.
  intros run.
  assert (Hrun : run = (Ok tt, run.1.2, run.2)) by (vm_compute; reflexivity).
  assert (Hfit : Forall (fun z => - 2 ^ 31 <= z < 2 ^ 31)%Z [4; 4]%Z)
    by (repeat constructor; lia).
  destruct (max_index_stored (box_esmp 1 [4; 4]%Z) toy_loc args_4x4 [4; 4]%Z box_world
              run.1.2 run.2 eq_refl Hrun) as [Hcast Hsame].
  split; [reflexivity|]. split; [exact Hrun|]. split; [exact Hfit|].
  split; [exact Hcast | exact (Hsame Hfit)].
Defined.

(** [Grid(max_index=[4, 4], add_user_area=True, add_mask=True)] *)
Lemma in_memory_items_added_witness :
  let run := Grid_call (box_esmp 1 [4; 4]%Z) toy_loc args_items box_world in
  a_max_index args_items = Some [4; 4]%Z
  /\ run = (Ok tt, run.1.2, run.2)
  /\ truthy (a_add_mask args_items) = true
  /\ truthy (a_add_user_area args_items) = true
  /\ is_Some (mask_at run.1.2 (CENTER toy_loc))
  /\ is_Some (area_at run.1.2 (CENTER toy_loc)).
Proof.
  intros run.
  assert (Hrun : run = (Ok tt, run.1.2, run.2)) by (vm_compute; reflexivity).
  destruct (in_memory_items_added (box_esmp 1 [4; 4]%Z) toy_loc args_items [4; 4]%Z
              box_world run.1.2 run.2 eq_refl Hrun) as [Hmask Harea].
  split; [reflexivity|]. split; [exact Hrun|]. split; [reflexivity|]. split; [reflexivity|].
  split; [exact (Hmask eq_refl) | exact (Harea eq_refl)].
Defined.

(** On the cached grid, against a native side without bounds: location 1
    has nothing cached, the centre has. *)
Lemma bounds_unavailable_witness :
  let w' := mkWorld tt ∅ [CGridGetCoordBounds (Some 7%N) 1] [] in
  let w0 := mkWorld tt ∅ [CGridGetCoordBounds (Some 7%N) 0] [] in
  ESMP_GridGetCoordBounds boundless_esmp (_struct cached_grid) 1
    (nstate box_world) (mem box_world) = (Raise (NativeError 2), tt, ∅)
  /\ _lower_bounds cached_grid !! 1 = Some None
  /\ _verify_grid_bounds_ boundless_esmp 1 cached_grid box_world
     = (Raise GridBoundsNotCreated, cached_grid, w')
  /\ _lower_bounds cached_grid !! 0 = Some (Some [0; 0]%Z)
  /\ _verify_grid_bounds_ boundless_esmp 0 cached_grid box_world
     = (Raise (NativeError 2), cached_grid, w0).
Proof.
  intros w' w0.
  split; [reflexivity|]. split; [reflexivity|].
  split; [exact (proj1 (bounds_unavailable boundless_esmp 1 cached_grid box_world
                          (NativeError 2) tt ∅ eq_refl) eq_refl)|].
  split; [reflexivity|].
  exact (proj2 (bounds_unavailable boundless_esmp 0 cached_grid box_world
                  (NativeError 2) tt ∅ eq_refl) [0; 0]%Z eq_refl).
Defined.

(** On the cached grid, the first verification of location 1. *)
Lemma bounds_cached_witness :
  let esmp := box_esmp 1 [4; 4]%Z in
  _lower_bounds cached_grid !! 1 = Some None
  /\ 1 < length (_upper_bounds cached_grid) /\ 1 < length (_size cached_grid)
  /\ ESMP_GridGetCoordBounds esmp (_struct cached_grid) 1 (nstate box_world) (mem box_world)
     = (Ok ([0; 0]%Z, [4; 4]%Z), tt, ∅)
  /\ np_sub [4; 4]%Z [0; 0]%Z = Ok [4; 4]%Z
  /\ exists g',
       _verify_grid_bounds_ esmp 1 cached_grid box_world
         = (Ok tt, g', mkWorld tt ∅ (calls box_world ++ [CGridGetCoordBounds (_struct cached_grid) 1])
                        (warns box_world))
       /\ lower_at g' 1 = Some [0; 0]%Z /\ upper_at g' 1 = Some [4; 4]%Z
       /\ size_at g' 1 = Some [4; 4]%Z
       /\ same_coordinates cached_grid g' /\ same_items cached_grid g'
       /\ same_attributes cached_grid g'.
Proof.
  intros esmp.
  assert (H1 : 1 < length (_upper_bounds cached_grid)) by (simpl; lia).
  assert (H2 : 1 < length (_size cached_grid)) by (simpl; lia).
  split; [reflexivity|]. split; [exact H1|]. split; [exact H2|].
  split; [reflexivity|]. split; [reflexivity|].
  exact (bounds_cached esmp 1 cached_grid box_world [0; 0]%Z [4; 4]%Z [4; 4]%Z tt ∅
           eq_refl H1 H2 eq_refl eq_refl).
Defined.

(** Slicing the cached grid with one worker running. *)
Lemma slice_is_detached_witness :
  let esmp := box_esmp 1 [4; 4]%Z in
  let out := __getitem__ esmp toy_slicing tt cached_grid box_world in
  exists ret_,
    out = (Ok ret_, out.1.2, out.2)
    /\ out.1.2 = cached_grid
    /\ calls out.2 = calls box_world ++ [CPetCount]
    /\ _finalized ret_ = Some true
    /\ destroy esmp ret_ out.2 = (Ok tt, ret_, out.2)
    /\ _struct ret_ = _struct cached_grid /\ _rank ret_ = _rank cached_grid
    /\ _staggerloc ret_ = _staggerloc cached_grid
    /\ _lower_bounds ret_ = _lower_bounds cached_grid /\ _size ret_ = _size cached_grid
    /\ length (_coords ret_) = 2 ^ _rank cached_grid
    /\ length (_mask ret_) = 2 ^ _rank cached_grid
    /\ length (_area ret_) = 2 ^ _rank cached_grid
    /\ length (_upper_bounds ret_) = 2 ^ _rank cached_grid.
Proof.
  intros esmp out.
  destruct out.1.1 as [ret_|e] eqn:Hres; [|vm_compute in Hres; discriminate Hres].
  assert (Hout : out = (Ok ret_, out.1.2, out.2)).
  { rewrite <- Hres. destruct out as [[r g] w]. reflexivity. }
  exists ret_. split; [exact Hout|].
  exact (slice_is_detached esmp toy_slicing tt cached_grid box_world ret_ out.1.2 out.2 Hout).
Defined.

(** [Grid(max_index=[4, 4])], then [add_coords(CORNER)]: both dimensions
    hold views whose sixteen cells read zero. *)
Lemma added_coordinates_read_zero_witness :
  let esmp := box_esmp 1 [4; 4]%Z in
  let run := Grid_call esmp toy_loc args_bare box_world in
  let added := add_coords esmp toy_loc (Some (One 3)) None false run.1.2 run.2 in
  normalize toy_loc (Some (One 3)) = [3]
  /\ (_ndims run.1.2 = _rank run.1.2 \/ _ndims run.1.2 = 0)
  /\ (_rank run.1.2 = 2 \/ _rank run.1.2 = 3)
  /\ coord_at run.1.2 3 0 = None
  /\ added = (Ok None, added.1.2, added.2)
  /\ forall d, d < _rank run.1.2 ->
       exists sh b,
         coord_at added.1.2 3 d = Some (Alias (_type run.1.2) sh b)
         /\ contents (mem added.2) (Alias (_type run.1.2) sh b)
            = replicate (nelems sh) (Some (cast (_type run.1.2) 0)).
Proof.
  intros esmp run added.
  assert (Hadded : added = (Ok None, added.1.2, added.2)) by (vm_compute; reflexivity).
  split; [reflexivity|]. split; [left; reflexivity|]. split; [left; reflexivity|].
  split; [reflexivity|]. split; [exact Hadded|].
  exact (added_coordinates_read_zero esmp toy_loc (Some (One 3)) 3 None run.1.2 run.2 None
           added.1.2 added.2 eq_refl (or_introl eq_refl) (or_introl eq_refl) eq_refl Hadded).
Defined.

(** A SCRIP file of a 4 by 4 grid, read with its corners. *)
Lemma from_file_shape_witness :
  let run := Grid_call (box_esmp 1 [4; 4]%Z) toy_loc args_scrip box_world in
  a_max_index args_scrip = None
  /\ run = (Ok tt, run.1.2, run.2)
  /\ _staggerloc run.1.2 = [true; false; false; true]
  /\ (forall i, i < 2 ^ _rank run.1.2 ->
        _staggerloc run.1.2 !! i
        = Some (bool_decide
                  (i = CENTER toy_loc
                   \/ (truthy (a_add_corner_stagger args_scrip) = true
                       /\ i = CORNER toy_loc))))
  /\ (a_is_sphere args_scrip = Some false ->
      _num_peri_dims run.1.2 = 0%Z /\ _periodic_dim run.1.2 = a_periodic_dim args_scrip)
  /\ (a_is_sphere args_scrip <> Some false ->
      _num_peri_dims run.1.2 = 1%Z /\ _periodic_dim run.1.2 = Some 0%Z)
  /\ _pole_dim run.1.2 = a_pole_dim args_scrip
  /\ (a_filetype args_scrip = Some SCRIP -> _ndims run.1.2 = _rank run.1.2).
Proof.
  intros run.
  assert (Hrun : run = (Ok tt, run.1.2, run.2)) by (vm_compute; reflexivity).
  split; [reflexivity|]. split; [exact Hrun|]. split; [vm_compute; reflexivity|].
  exact (from_file_shape (box_esmp 1 [4; 4]%Z) toy_loc args_scrip box_world run.1.2 run.2
           eq_refl Hrun).
Defined.

(** [destroy] on the cached grid, on a native side that cannot release. *)
Lemma destroy_failure_retries_witness :
  let w' := mkWorld tt ∅ (calls box_world ++ [CGridDestroy (_struct cached_grid)])
              (warns box_world) in
  _finalized cached_grid = Some false
  /\ ESMP_GridDestroy stuck_esmp (_struct cached_grid) (nstate box_world) (mem box_world)
     = (Raise (NativeError 3), tt, ∅)
  /\ destroy stuck_esmp cached_grid box_world = (Raise (NativeError 3), cached_grid, w')
  /\ calls (destroy stuck_esmp cached_grid w').2
     = calls box_world ++ [CGridDestroy (_struct cached_grid);
                           CGridDestroy (_struct cached_grid)].
Proof.
  intros w'. split; [reflexivity|]. split; [reflexivity|].
  exact (destroy_failure_retries stuck_esmp cached_grid box_world (NativeError 3) tt ∅
           eq_refl eq_refl).
Defined.

(** [Grid(max_index=[4, 4])], then [add_coords(CORNER)]: [has_corners]
    becomes [True]. *)
Lemma corners_follow_linking_witness :
  let esmp := box_esmp 1 [4; 4]%Z in
  let run := Grid_call esmp toy_loc args_bare box_world in
  let added := add_coords esmp toy_loc (Some (One 3)) None false run.1.2 run.2 in
  normalize toy_loc (Some (One 3)) = [3]
  /\ coord_at run.1.2 3 0 = None
  /\ 0 < _rank run.1.2
  /\ _ndims run.1.2 <= _rank run.1.2
  /\ added = (Ok None, added.1.2, added.2)
  /\ _has_corners run.1.2 = false
  /\ is_corner toy_loc 3 = true
  /\ _has_corners added.1.2 = _has_corners run.1.2 || is_corner toy_loc 3.
Proof.
  intros esmp run added.
  assert (Hadded : added = (Ok None, added.1.2, added.2)) by (vm_compute; reflexivity).
  assert (Hrank : 0 < _rank run.1.2) by (vm_compute; lia).
  assert (Hnd : _ndims run.1.2 <= _rank run.1.2) by (vm_compute; lia).
  split; [reflexivity|]. split; [reflexivity|]. split; [exact Hrank|]. split; [exact Hnd|].
  split; [exact Hadded|]. split; [reflexivity|]. split; [reflexivity|].
  exact (corners_follow_linking esmp toy_loc (Some (One 3)) 3 None false run.1.2 run.2 None
           added.1.2 added.2 eq_refl eq_refl Hrank Hnd Hadded).
Defined.

Lemma masked_grid_ready :
  ready (fun _ => [0; 0]%Z) (fun _ => [4; 4]%Z) (fun _ => [4; 4]%Z) 4 2 masked_grid.
Proof.
  constructor; try reflexivity.
  - intros i row Hi. destruct i as [|[|[|[|i]]]]; simpl in Hi;
      try (injection Hi as <-; reflexivity); discriminate Hi.
  - intros s clb Hs. destruct s as [|[|[|[|s]]]]; simpl in Hs; try discriminate Hs.
    injection Hs as <-. repeat split.
Qed.

(** [add_item(MASK, [CENTER, 1])] on a Grid that holds a mask at location 1
    only: the call raises after the mask of the centre has been linked. *)
Lemma add_item_stops_midway_witness :
  let esmp := box_esmp 1 [4; 4]%Z in
  steady esmp (fun _ => [0; 0]%Z) (fun _ => [4; 4]%Z) (fun _ => [4; 4]%Z)
  /\ ready (fun _ => [0; 0]%Z) (fun _ => [4; 4]%Z) (fun _ => [4; 4]%Z) 4 2 masked_grid
  /\ (MASK = MASK \/ MASK = AREA)
  /\ 0 < 4 /\ 1 < 4
  /\ item_at MASK masked_grid 0 = None
  /\ is_Some (item_at MASK masked_grid 1)
  /\ exists g' w',
       add_item esmp toy_loc MASK (Some (Many [0; 1])) false masked_grid box_world
       = (Raise GridItemAlreadyLinked, g', w')
       /\ is_Some (item_at MASK g' 0)
       /\ (false = false -> CGridAddItem (_struct masked_grid) MASK 0 ∈ calls w').
Proof.
  intros esmp.
  assert (H0 : 0 < 4) by lia. assert (H1 : 1 < 4) by lia.
  assert (Hsome : is_Some (item_at MASK masked_grid 1)) by (simpl; eauto).
  split; [exact box_4x4_steady|]. split; [exact masked_grid_ready|].
  split; [left; reflexivity|]. split; [exact H0|]. split; [exact H1|].
  split; [reflexivity|]. split; [exact Hsome|].
  exact (add_item_stops_midway esmp toy_loc _ _ _ 4 2 MASK 0 1 false masked_grid box_world
           box_4x4_steady masked_grid_ready (or_introl eq_refl) H0 H1 eq_refl Hsome).
Defined.

(** A GRIDSPEC grid of rank 2 with one-dimensional coordinates, then
    [add_coords(CORNER, from_file=True)]. *)
Lemma one_dim_coordinates_are_copies_witness :
  let esmp := box_esmp 1 [4; 4]%Z in
  let run := Grid_call esmp toy_loc args_gridspec box_world in
  let added := add_coords esmp toy_loc (Some (One 3)) None true run.1.2 run.2 in
  normalize toy_loc (Some (One 3)) = [3]
  /\ coord_at run.1.2 3 0 = None
  /\ 0 < _ndims run.1.2 < _rank run.1.2
  /\ added = (Ok None, added.1.2, added.2)
  /\ _ndims run.1.2 = 1
  /\ (_rank run.1.2 = 2 \/ _rank run.1.2 = 3)
  /\ forall d, d < _rank run.1.2 ->
       exists sh c, coord_at added.1.2 3 d = Some (Owned (_type run.1.2) sh c)
                    /\ length sh = _rank run.1.2.
Proof.
  intros esmp run added.
  assert (Hadded : added = (Ok None, added.1.2, added.2)) by (vm_compute; reflexivity).
  assert (Hnd : 0 < _ndims run.1.2 < _rank run.1.2) by (vm_compute; lia).
  split; [reflexivity|]. split; [vm_compute; reflexivity|]. split; [exact Hnd|].
  split; [exact Hadded|].
  exact (one_dim_coordinates_are_copies esmp toy_loc (Some (One 3)) 3 None true
           run.1.2 run.2 None added.1.2 added.2 eq_refl eq_refl Hnd Hadded).
Defined.
